(** * Crypto Pay webhook server: a shallow embedding of [main.py] and [config.py]

    The server is one FastAPI handler, [crypto_pay_webhook_handler], with two
    helpers, [verify_signature] and [send_telegram_message], and a
    configuration module.  The embedding follows the Python text: [str] is a
    list of Unicode code points, [bytes] a list of octets, exceptions are an
    error monad, logging and the outbound HTTP call are events of a trace.

    What the program takes from the Python runtime and from third-party
    packages (case mapping and numeric classes of non-ASCII characters, the
    scalar coercions of pydantic, the text of an exception, the depth of
    recursion the interpreter has left when [json.loads] is called) is a
    parameter, [Libs].  [sys.int_max_str_digits] is at its default, 4300:
    the program does not change it. *)

From Stdlib Require Import ZArith NArith List Bool Lia.
From Stdlib.Strings Require Import String Ascii Byte.
From Stdlib Require Import DecimalString.
From Stdlib Require DecimalZ.
Import ListNotations.

Set Warnings "-register-all".

(* ================================================================== *)
(** * Python values: [str], [bytes] and the UTF-8 codec *)
(* ================================================================== *)

Module Py.

(** A Python [str] is a sequence of code points; [bytes] a sequence of octets. *)
Definition codepoint := N.
Definition str := list codepoint.
Definition bytes := list byte.

Definition ord (c : ascii) : codepoint := N_of_ascii c.

Definition is_surrogate (c : N) : bool := (55296 <=? c)%N && (c <=? 57343)%N.
Definition is_cont (b : N) : bool := (128 <=? b)%N && (b <=? 191)%N.
Definition low6 (b : N) : N := N.land b 63.

(** [bytes.decode()] with the default codec: strict UTF-8.  [None] stands for
    [UnicodeDecodeError] (overlong forms, surrogates, truncated sequences and
    code points past U+10FFFF are refused). *)
Fixpoint utf8_decode_octets (bs : list N) : option str :=
  match bs with
  | [] => Some []
  | b0 :: t0 =>
    if (b0 <? 128)%N then option_map (cons b0) (utf8_decode_octets t0)
    else if (b0 <? 194)%N then None
    else if (b0 <? 224)%N then
      match t0 with
      | b1 :: t1 =>
        if is_cont b1
        then option_map (cons (N.lor (N.shiftl (N.land b0 31) 6) (low6 b1)))
                        (utf8_decode_octets t1)
        else None
      | _ => None
      end
    else if (b0 <? 240)%N then
      match t0 with
      | b1 :: b2 :: t2 =>
        let c := N.lor (N.shiftl (N.land b0 15) 12)
                       (N.lor (N.shiftl (low6 b1) 6) (low6 b2)) in
        if is_cont b1 && is_cont b2 && (2048 <=? c)%N && negb (is_surrogate c)
        then option_map (cons c) (utf8_decode_octets t2)
        else None
      | _ => None
      end
    else if (b0 <? 245)%N then
      match t0 with
      | b1 :: b2 :: b3 :: t3 =>
        let c := N.lor (N.shiftl (N.land b0 7) 18)
                       (N.lor (N.shiftl (low6 b1) 12)
                              (N.lor (N.shiftl (low6 b2) 6) (low6 b3))) in
        if is_cont b1 && is_cont b2 && is_cont b3
           && (65536 <=? c)%N && (c <=? 1114111)%N
        then option_map (cons c) (utf8_decode_octets t3)
        else None
      | _ => None
      end
    else None
  end.

Definition decode (b : bytes) : option str :=
  utf8_decode_octets (map Byte.to_N b).

Definition octet (n : N) : byte :=
  match Byte.of_N n with Some b => b | None => x00 end.

(** [str.encode("utf-8")]: [None] stands for [UnicodeEncodeError] (a lone
    surrogate cannot be encoded). *)
Definition utf8_encode_char (c : codepoint) : option (list N) :=
  if (c <? 128)%N then Some [c]
  else if (c <? 2048)%N then
    Some [(192 + N.shiftr c 6)%N; (128 + low6 c)%N]
  else if (c <? 65536)%N then
    if is_surrogate c then None
    else Some [(224 + N.shiftr c 12)%N; (128 + low6 (N.shiftr c 6))%N;
               (128 + low6 c)%N]
  else if (c <=? 1114111)%N then
    Some [(240 + N.shiftr c 18)%N; (128 + low6 (N.shiftr c 12))%N;
          (128 + low6 (N.shiftr c 6))%N; (128 + low6 c)%N]
  else None.

Fixpoint encode (s : str) : option bytes :=
  match s with
  | [] => Some []
  | c :: s' =>
    match utf8_encode_char c, encode s' with
    | Some bs, Some rest => Some (map octet bs ++ rest)
    | _, _ => None
    end
  end.

(** A [bytes] literal and a [str] literal of the source text (the file is
    UTF-8, as the Python source is). *)
Definition b (s : string) : bytes := list_byte_of_string s.

Definition u (s : string) : str :=
  match decode (b s) with Some x => x | None => [] end.

(** ** Operations of [str] the handler uses *)

Definition str_eqb (x y : str) : bool :=
  if list_eq_dec N.eq_dec x y then true else false.

(** [s.startswith(p)] *)
Fixpoint startswith (p s : str) : bool :=
  match p, s with
  | [], _ => true
  | _ :: _, [] => false
  | a :: p', c :: s' => (a =? c)%N && startswith p' s'
  end.

(** [p in s] *)
Fixpoint contains (p s : str) : bool :=
  match s with
  | [] => startswith p []
  | _ :: s' => startswith p s || contains p s'
  end.

(** [s.split(sep)] for a non-empty [sep]: a left-to-right scan, each match
    closing the current piece and skipping the separator.  [skip] counts the
    characters of a matched separator still to pass, [cur] holds the current
    piece reversed. *)
Fixpoint split_from (sep : str) (skip : nat) (cur : str) (s : str) : list str :=
  match s with
  | [] => [rev cur]
  | c :: s' =>
    match skip with
    | S k => split_from sep k cur s'
    | O =>
      if startswith sep s
      then rev cur :: split_from sep (List.length sep - 1) [] s'
      else split_from sep 0 (c :: cur) s'
    end
  end.

Definition split (sep s : str) : list str := split_from sep 0 [] s.

(** [l[-1]] on a list that [split] returned (never empty). *)
Definition last_item (l : list str) : str := last l [].

(** ** What the interpreter's Unicode database decides

    For a code point outside ASCII, the upper-case mapping of [str.upper],
    the decimal value and the white-space class that [int] consults come from
    the Unicode tables built into the interpreter. *)
Record ucd := {
  uc_upper : codepoint -> str;
  uc_decimal : codepoint -> option N;
  uc_isspace : codepoint -> bool
}.

(** The tables of an interpreter that knows ASCII only. *)
Definition ascii_ucd : ucd :=
  {| uc_upper := fun c => [c];
     uc_decimal := fun _ => None;
     uc_isspace := fun _ => false |}.

(** [s.upper()] *)
Definition upper_char (U : ucd) (c : codepoint) : str :=
  if (c <? 128)%N
  then (if (97 <=? c)%N && (c <=? 122)%N then [(c - 32)%N] else [c])
  else uc_upper U c.

Definition upper (U : ucd) (s : str) : str := flat_map (upper_char U) s.

(** ** [int(s)] for a [str], base 10

    CPython first maps the text to ASCII (a non-ASCII space becomes a space,
    a non-ASCII decimal digit its ASCII digit, anything else a [?]) and then
    reads: white space, an optional sign, digits with single underscores
    between them, white space.  It counts the digits, leading zeros
    included and underscores apart, and refuses a text of more than
    [int_max_str_digits] of them.  [None] stands for [ValueError]. *)

(** The default of [sys.int_max_str_digits]. *)
Definition int_max_str_digits : N := 4300.

Definition ascii_isspace (c : codepoint) : bool :=
  ((9 <=? c)%N && (c <=? 13)%N) || (c =? 32)%N.

Definition to_ascii (U : ucd) (c : codepoint) : codepoint :=
  if (c <? 128)%N then c
  else if uc_isspace U c then 32%N
  else match uc_decimal U c with
       | Some d => if (d <? 10)%N then (48 + d)%N else 63%N
       | None => 63%N
       end.

Definition digit_val (c : codepoint) : option Z :=
  if (48 <=? c)%N && (c <=? 57)%N then Some (Z.of_N (c - 48)) else None.

Fixpoint skip_space (s : str) : str :=
  match s with
  | c :: s' => if ascii_isspace c then skip_space s' else s
  | [] => []
  end.

(** The digits after the first one: [acc] is the value read so far and
    [n] the number of digits read. *)
Fixpoint scan_digits (acc : Z) (n : N) (s : str) : option (Z * N * str) :=
  match s with
  | [] => Some (acc, n, [])
  | c :: s' =>
    match digit_val c with
    | Some d => scan_digits (10 * acc + d) (n + 1) s'
    | None =>
      if (c =? 95)%N then
        match s' with
        | c' :: s'' =>
          match digit_val c' with
          | Some d => scan_digits (10 * acc + d) (n + 1) s''
          | None => None
          end
        | [] => None
        end
      else Some (acc, n, s)
    end
  end.

Definition int_of_ascii (a : str) : option Z :=
  let a1 := skip_space a in
  let '(neg, a2) :=
    match a1 with
    | c :: r => if (c =? 43)%N then (false, r)
                else if (c =? 45)%N then (true, r)
                else (false, a1)
    | [] => (false, a1)
    end in
  match a2 with
  | c :: r =>
    match digit_val c with
    | Some d =>
      match scan_digits d 1 r with
      | Some (v, n, rest) =>
        match skip_space rest with
        | [] =>
          if (n <=? int_max_str_digits)%N
          then Some (if neg then (- v)%Z else v)
          else None
        | _ :: _ => None
        end
      | None => None
      end
    | None => None
    end
  | [] => None
  end.

Definition int (U : ucd) (s : str) : option Z :=
  int_of_ascii (map (to_ascii U) s).

(** [str(n)] for an [int], as an f-string renders it. *)
Definition str_of_int (n : Z) : str :=
  map ord (list_ascii_of_string (NilZero.string_of_int (Z.to_int n))).

(** Truth value of an [Optional[str]]: [None] and the empty string are false. *)
Definition truthy (o : option str) : bool :=
  match o with
  | Some (_ :: _) => true
  | _ => false
  end.

End Py.

(* ================================================================== *)
(** * [json.loads] *)
(* ================================================================== *)

Module Json.
Import Py.

(** What [json.loads] builds.  A [float] keeps the text it was read from; a
    [dict] keeps one binding per key, in insertion order. *)
Inductive value :=
| JNone
| JBool (x : bool)
| JInt (n : Z)
| JFloat (tok : str)
| JStr (s : str)
| JList (items : list value)
| JDict (members : list (str * value)).

Definition dict := list (str * value).

(** [d.get(k)] *)
Fixpoint dict_get (k : str) (d : dict) : option value :=
  match d with
  | [] => None
  | (k', v) :: d' => if str_eqb k k' then Some v else dict_get k d'
  end.

(** [d[k] = v]: a later duplicate key overwrites the earlier value. *)
Fixpoint dict_set (k : str) (v : value) (d : dict) : dict :=
  match d with
  | [] => [(k, v)]
  | (k', v') :: d' =>
    if str_eqb k k' then (k, v) :: d' else (k', v') :: dict_set k v d'
  end.

(** The ways [JSONDecodeError] is raised; [OutOfFuel] is the model's own and
    never reaches [loads] (see [Json_facts.loads_fuel]). *)
Inductive error :=
| ExpectingValue
| ExtraData
| UnterminatedString
| InvalidControlCharacter
| InvalidEscape
| ExpectingPropertyName
| ExpectingColon
| ExpectingComma
| UnexpectedBOM
| OutOfFuel.

(** What stops the decoder apart from a malformed text: the interpreter
    raises [RecursionError] when arrays and objects are nested deeper than
    it has room for, and [int] raises [ValueError] on an integer of more
    than [int_max_str_digits] digits.  Neither is a [JSONDecodeError]. *)
Inductive limit :=
| RecursionLimit
| IntMaxStrDigits.

Inductive res (A : Type) :=
| Ok (a : A)
| Err (e : error)
| Exceeded (l : limit).
Arguments Ok {A} a.
Arguments Err {A} e.
Arguments Exceeded {A} l.

Definition is_ws (c : codepoint) : bool :=
  (c =? 32)%N || (c =? 9)%N || (c =? 10)%N || (c =? 13)%N.

Fixpoint skip_ws (s : str) : str :=
  match s with
  | c :: s' => if is_ws c then skip_ws s' else s
  | [] => []
  end.

Definition is_digit (c : codepoint) : bool := (48 <=? c)%N && (c <=? 57)%N.

Definition hex_val (c : codepoint) : option N :=
  if is_digit c then Some (c - 48)%N
  else if (97 <=? c)%N && (c <=? 102)%N then Some (c - 87)%N
  else if (65 <=? c)%N && (c <=? 70)%N then Some (c - 55)%N
  else None.

Definition hex4 (a b c d : codepoint) : option N :=
  match hex_val a, hex_val b, hex_val c, hex_val d with
  | Some x, Some y, Some z, Some w => Some (4096 * x + 256 * y + 16 * z + w)%N
  | _, _, _, _ => None
  end.

(** The character a one-letter escape stands for. *)
Definition simple_escape (c : codepoint) : option codepoint :=
  if (c =? 34)%N then Some 34%N            (* quote *)
  else if (c =? 92)%N then Some 92%N       (* backslash *)
  else if (c =? 47)%N then Some 47%N       (* slash *)
  else if (c =? 98)%N then Some 8%N        (* b *)
  else if (c =? 102)%N then Some 12%N      (* f *)
  else if (c =? 110)%N then Some 10%N      (* n *)
  else if (c =? 114)%N then Some 13%N      (* r *)
  else if (c =? 116)%N then Some 9%N       (* t *)
  else None.

Definition is_high (c : N) : bool := (55296 <=? c)%N && (c <=? 56319)%N.
Definition is_low (c : N) : bool := (56320 <=? c)%N && (c <=? 57343)%N.
Definition join_surrogates (hi lo : N) : N :=
  (65536 + 1024 * (hi - 55296) + (lo - 56320))%N.

(** A low surrogate escape right after a high one: [Some (c2, rest)]. *)
Definition low_escape (s : str) : option (N * str) :=
  match s with
  | c0 :: c1 :: g1 :: g2 :: g3 :: g4 :: rest =>
    if (c0 =? 92)%N && (c1 =? 117)%N then
      match hex4 g1 g2 g3 g4 with
      | Some c2 => if is_low c2 then Some (c2, rest) else None
      | None => None
      end
    else None
  | _ => None
  end.

(** [scanstring] after the opening quote, strict mode: [acc] is the text read
    so far, reversed. *)
Fixpoint scanstring (acc : str) (s : str) : res (str * str) :=
  match s with
  | [] => Err UnterminatedString
  | c :: r =>
    if (c =? 34)%N then Ok (rev acc, r)
    else if (c =? 92)%N then
      match r with
      | [] => Err UnterminatedString
      | e :: r1 =>
        if (e =? 117)%N then
          match r1 with
          | h1 :: h2 :: h3 :: h4 :: r2 =>
            match hex4 h1 h2 h3 h4 with
            | Some uni =>
              if is_high uni then
                match r2 with
                | c0 :: c1 :: g1 :: g2 :: g3 :: g4 :: r3 =>
                  match low_escape r2 with
                  | Some (lo, _) => scanstring (join_surrogates uni lo :: acc) r3
                  | None => scanstring (uni :: acc) r2
                  end
                | _ => scanstring (uni :: acc) r2
                end
              else scanstring (uni :: acc) r2
            | None => Err InvalidEscape
            end
          | _ => Err InvalidEscape
          end
        else
          match simple_escape e with
          | Some ch => scanstring (ch :: acc) r1
          | None => Err InvalidEscape
          end
      end
    else if (c <? 32)%N then Err InvalidControlCharacter
    else scanstring (c :: acc) r
  end.

(** ** Numbers

    An optional minus, an integer part (a lone zero, or a non-zero digit and
    more digits), an optional fraction (a dot and digits), an optional
    exponent (e or E, an optional sign, digits).  Without fraction and
    exponent the number is an [int], read by [int], otherwise a [float]. *)

Fixpoint span_digits (s : str) : str * str :=
  match s with
  | c :: s' =>
    if is_digit c then let '(ds, r) := span_digits s' in (c :: ds, r)
    else ([], s)
  | [] => ([], [])
  end.

(** The integer part: a lone [0], or a non-zero digit and more digits. *)
Definition int_part (s : str) : option (str * str) :=
  match s with
  | c :: s' =>
    if (c =? 48)%N then Some ([c], s')
    else if is_digit c then let '(ds, r) := span_digits s' in Some (c :: ds, r)
    else None
  | [] => None
  end.

Definition frac_part (s : str) : str * str :=
  match s with
  | c :: s' =>
    if (c =? 46)%N then
      match span_digits s' with
      | ([], _) => ([], s)
      | (ds, r) => (c :: ds, r)
      end
    else ([], s)
  | [] => ([], [])
  end.

Definition exp_part (s : str) : str * str :=
  match s with
  | c :: s' =>
    if (c =? 101)%N || (c =? 69)%N then
      let '(sign, s1) :=
        match s' with
        | c' :: s'' => if (c' =? 43)%N || (c' =? 45)%N then ([c'], s'') else ([], s')
        | [] => ([], s')
        end in
      match span_digits s1 with
      | ([], _) => ([], s)
      | (ds, r) => (c :: sign ++ ds, r)
      end
    else ([], s)
  | [] => ([], [])
  end.

(** The number at the head of the text: its groups (the integer with its
    sign, the fraction, the exponent) and the text after it. *)
Definition match_number (s : str) : option (str * str * str * str) :=
  let '(sign, s0) :=
    match s with
    | c :: s' => if (c =? 45)%N then ([c], s') else ([], s)
    | [] => ([], s)
    end in
  match int_part s0 with
  | None => None
  | Some (ip, s1) =>
    let '(fp, s2) := frac_part s1 in
    let '(ep, s3) := exp_part s2 in
    Some (sign ++ ip, fp, ep, s3)
  end.

(** The value of the groups: [int(integer)] when there is neither fraction
    nor exponent, a [float] otherwise.  [None] stands for the [ValueError]
    of [int] on more than [int_max_str_digits] digits. *)
Definition number (integer frac exp : str) : option value :=
  match frac, exp with
  | [], [] => option_map JInt (int_of_ascii integer)
  | _, _ => Some (JFloat (integer ++ frac ++ exp))
  end.

(** ** Arrays, objects and values

    The loops take the scanner of the enclosed values as an argument;
    [fuel] bounds the number of items.  The scanner enters an array or an
    object only while the interpreter has room for one more level:
    [depth] is the number of levels left. *)
Fixpoint parse_array (scan : str -> res (value * str)) (fuel : nat)
         (acc : list value) (s : str) : res (value * str) :=
  match fuel with
  | O => Err OutOfFuel
  | S f =>
    match scan s with
    | Err e => Err e
    | Exceeded l => Exceeded l
    | Ok (v, s1) =>
      match skip_ws s1 with
      | c :: s2 =>
        if (c =? 93)%N then Ok (JList (rev (v :: acc)), s2)
        else if (c =? 44)%N then parse_array scan f (v :: acc) (skip_ws s2)
        else Err ExpectingComma
      | [] => Err ExpectingComma
      end
    end
  end.

Fixpoint parse_object (scan : str -> res (value * str)) (fuel : nat)
         (acc : dict) (s : str) : res (value * str) :=
  match fuel with
  | O => Err OutOfFuel
  | S f =>
    match s with
    | q :: s0 =>
      if (q =? 34)%N then
        match scanstring [] s0 with
        | Err e => Err e
        | Exceeded l => Exceeded l
        | Ok (key, s1) =>
          match skip_ws s1 with
          | c :: s2 =>
            if (c =? 58)%N then
              match scan (skip_ws s2) with
              | Err e => Err e
              | Exceeded l => Exceeded l
              | Ok (v, s3) =>
                match skip_ws s3 with
                | c' :: s4 =>
                  if (c' =? 125)%N then Ok (JDict (dict_set key v acc), s4)
                  else if (c' =? 44)%N
                  then parse_object scan f (dict_set key v acc) (skip_ws s4)
                  else Err ExpectingComma
                | [] => Err ExpectingComma
                end
              end
            else Err ExpectingColon
          | [] => Err ExpectingColon
          end
        end
      else Err ExpectingPropertyName
    | [] => Err ExpectingPropertyName
    end
  end.

(** [scan_once]: one JSON value at the head of [s]. *)
Fixpoint scan_once (depth fuel : nat) (s : str) {struct fuel}
  : res (value * str) :=
  match fuel with
  | O => Err OutOfFuel
  | S f =>
    match s with
    | [] => Err ExpectingValue
    | c :: r =>
      if (c =? 34)%N then
        match scanstring [] r with
        | Ok (x, r') => Ok (JStr x, r')
        | Err e => Err e
        | Exceeded l => Exceeded l
        end
      else if (c =? 123)%N then
        match depth with
        | O => Exceeded RecursionLimit
        | S d =>
          match skip_ws r with
          | c' :: r' =>
            if (c' =? 125)%N then Ok (JDict [], r')
            else parse_object (scan_once d f) f [] (skip_ws r)
          | [] => Err ExpectingPropertyName
          end
        end
      else if (c =? 91)%N then
        match depth with
        | O => Exceeded RecursionLimit
        | S d =>
          match skip_ws r with
          | c' :: r' =>
            if (c' =? 93)%N then Ok (JList [], r')
            else parse_array (scan_once d f) f [] (skip_ws r)
          | [] => Err ExpectingValue
          end
        end
      else if startswith (u "null") s then Ok (JNone, skipn 4 s)
      else if startswith (u "true") s then Ok (JBool true, skipn 4 s)
      else if startswith (u "false") s then Ok (JBool false, skipn 5 s)
      else if startswith (u "NaN") s then Ok (JFloat (u "NaN"), skipn 3 s)
      else if startswith (u "Infinity") s then Ok (JFloat (u "Infinity"), skipn 8 s)
      else if startswith (u "-Infinity") s then Ok (JFloat (u "-Infinity"), skipn 9 s)
      else
        match match_number s with
        | Some (integer, frac, exp, r') =>
          match number integer frac exp with
          | Some v => Ok (v, r')
          | None => Exceeded IntMaxStrDigits
          end
        | None => Err ExpectingValue
        end
    end
  end.

(** [json.loads(s)] for a [str], called with room for [depth] nested
    arrays and objects: a value between optional white space, and nothing
    after it. *)
Definition loads (depth : nat) (s : str) : res value :=
  if startswith [65279%N] s then Err UnexpectedBOM
  else
    match scan_once depth (S (List.length s)) (skip_ws s) with
    | Err e => Err e
    | Exceeded l => Exceeded l
    | Ok (v, r) =>
      match skip_ws r with
      | [] => Ok v
      | _ :: _ => Err ExtraData
      end
    end.

End Json.

(* ================================================================== *)
(** * Exceptions, logging and the effect monad *)
(* ================================================================== *)

(** Where pydantic reports a failure: the path of field names, and whether
    the field was missing or held a value its validator refuses. *)
Inductive field_error :=
| Missing
| Invalid.

Definition error_details := list (list string * field_error).

(** The exceptions the program can meet.  All derive from [Exception]. *)
Inductive exn :=
| UnicodeDecodeError
| UnicodeEncodeError
| JSONDecodeError (e : Json.error)
| TypeError
| ValueError
| RecursionError
| AttributeError (name : string)
| ValidationError (errors : error_details)
| PydanticSerializationError
| RequestException
| HTTPException (status_code : Z) (detail : Py.str).

Inductive level :=
| INFO
| WARNING
| ERROR.

(** The logging statements of [main.py], by what they report. *)
Inductive logpoint :=
| ReceivedHeaders
| ReceivedBody
| LenientVerification
| ParsedWebhook
| JsonDecodeFailed
| ValidationFailed
| ExtractedChatId
| ChatIdParseFailed
| ChatIdNotFound
| MessageSent
| MessageFailed
| MessageFailedContent
| SignatureSkipped
| SignatureVerified
| SignatureMismatch
| SignatureError.

(** What a request does to the outside: log records, and the POST to the
    Telegram Bot API with its URL and JSON body. *)
Inductive event :=
| Log (lvl : level) (what : logpoint)
| Post (url : Py.str) (chat_id : Z) (text : Py.str) (parse_mode : Py.str).

Inductive result (A : Type) :=
| Return (a : A)
| Raise (e : exn).
Arguments Return {A} a.
Arguments Raise {A} e.

(** A computation yields a value or raises, and leaves a trace. *)
Definition M (A : Type) : Type := (result A * list event)%type.

Definition ret {A} (a : A) : M A := (Return a, []).

Definition raise {A} (e : exn) : M A := (Raise e, []).

Definition bind {A B} (m : M A) (f : A -> M B) : M B :=
  match m with
  | (Return a, t) => let '(r, t') := f a in (r, t ++ t')
  | (Raise e, t) => (Raise e, t)
  end.

(** [try: m except Exception as e: h e] *)
Definition try_except {A} (m : M A) (h : exn -> M A) : M A :=
  match m with
  | (Return a, t) => (Return a, t)
  | (Raise e, t) => let '(r, t') := h e in (r, t ++ t')
  end.

Definition log (lvl : level) (what : logpoint) : M unit :=
  (Return tt, [Log lvl what]).

Declare Scope py_scope.
Delimit Scope py_scope with py.
Notation "x <- m ;; k" := (bind m (fun x => k))
  (at level 61, m at next level, right associativity) : py_scope.
Notation "m ;; k" := (bind m (fun _ => k))
  (at level 61, right associativity) : py_scope.

(** What the libraries and the interpreter decide: the Unicode tables,
    pydantic's coercion of a scalar to an [int] field and to a [str] field
    (lax mode accepts more than the exact type), the text [str(e)] of an
    exception, and how many arrays and objects, one inside the other,
    [json.loads] can enter before the interpreter raises [RecursionError]
    (what [sys.getrecursionlimit()] leaves once the frames of the server
    are on the stack). *)
Record Libs := {
  unicode : Py.ucd;
  validate_int : Json.value -> option Z;
  validate_str : Json.value -> option Py.str;
  exn_str : exn -> Py.str;
  recursion_limit : nat
}.

(** Validators that accept the exact JSON type only. *)
Definition strict_int (v : Json.value) : option Z :=
  match v with Json.JInt n => Some n | _ => None end.

Definition strict_str (v : Json.value) : option Py.str :=
  match v with Json.JStr s => Some s | _ => None end.

Definition strict_libs : Libs :=
  {| unicode := Py.ascii_ucd;
     validate_int := strict_int;
     validate_str := strict_str;
     exn_str := fun _ => Py.u "error";
     recursion_limit := 900 |}.

(** What every version of pydantic grants: an [int] is a valid [int], a
    [str] is a valid [str], and [None] is not a [str]. *)
Record conforms (L : Libs) : Prop := {
  int_accepts : forall n, validate_int L (Json.JInt n) = Some n;
  str_accepts : forall s, validate_str L (Json.JStr s) = Some s;
  str_refuses_none : validate_str L Json.JNone = None
}.

(* ================================================================== *)
(** * The pydantic models of the webhook *)
(* ================================================================== *)

Module Models.
Import Py Json.

Record InvoicePayload := {
  invoice_id : Z;
  status : str;
  amount : option str;
  asset : option str;
  fee : option str;
  fiat_amount : option str;
  fiat_currency : option str;
  description : option str;
  custom_payload : option str
}.

Record CryptoPayWebhook := {
  update_id : Z;
  update_type : str;
  request_date : str;
  payload : InvoicePayload
}.

(** Validation collects the errors of all fields. *)
Definition V (A : Type) : Type := (error_details + A)%type.

Definition pure {A} (a : A) : V A := inr a.

Definition ap {A B} (f : V (A -> B)) (x : V A) : V B :=
  match f, x with
  | inr g, inr a => inr (g a)
  | inl e1, inl e2 => inl (e1 ++ e2)
  | inl e1, inr _ => inl e1
  | inr _, inl e2 => inl e2
  end.

Definition at_field {A} (name : string) (x : V A) : V A :=
  match x with
  | inl errs => inl (map (fun '(loc, k) => (name :: loc, k)) errs)
  | inr a => inr a
  end.

Definition scalar {A} (validate : value -> option A) (v : value) : V A :=
  match validate v with
  | Some a => inr a
  | None => inl [([], Invalid)]
  end.

(** A field without default: the key [key] must be present. *)
Definition required {A} (validate : value -> V A) (key : string) (d : dict)
  : V A :=
  match dict_get (u key) d with
  | Some v => at_field key (validate v)
  | None => inl [([key], Missing)]
  end.

(** A field [Optional[T] = None] read from the key [key]: an absent key gives
    the default, [null] gives [None]. *)
Definition optional {A} (validate : value -> V A) (key : string) (d : dict)
  : V (option A) :=
  match dict_get (u key) d with
  | None => inr None
  | Some JNone => inr None
  | Some v =>
    at_field key (match validate v with inr a => inr (Some a) | inl e => inl e end)
  end.

(** A field whose type is a model takes a [dict]. *)
Definition model {A} (fields : dict -> V A) (v : value) : V A :=
  match v with
  | JDict d => fields d
  | _ => inl [([], Invalid)]
  end.

Section Validation.
Variable L : Libs.

Local Notation "f <*> x" := (ap f x) (at level 50, left associativity).

(** [InvoicePayload]: the field [custom_payload] is read from the key
    [payload] (its alias); unknown keys are ignored. *)
Definition validate_InvoicePayload (d : dict) : V InvoicePayload :=
  pure Build_InvoicePayload
    <*> required (scalar (validate_int L)) "invoice_id" d
    <*> required (scalar (validate_str L)) "status" d
    <*> optional (scalar (validate_str L)) "amount" d
    <*> optional (scalar (validate_str L)) "asset" d
    <*> optional (scalar (validate_str L)) "fee" d
    <*> optional (scalar (validate_str L)) "fiat_amount" d
    <*> optional (scalar (validate_str L)) "fiat_currency" d
    <*> optional (scalar (validate_str L)) "description" d
    <*> optional (scalar (validate_str L)) "payload" d.

Definition validate_CryptoPayWebhook (d : dict) : V CryptoPayWebhook :=
  pure Build_CryptoPayWebhook
    <*> required (scalar (validate_int L)) "update_id" d
    <*> required (scalar (validate_str L)) "update_type" d
    <*> required (scalar (validate_str L)) "request_date" d
    <*> required (model validate_InvoicePayload) "payload" d.

(** The constructor call with the parsed value unpacked as keyword
    arguments: unpacking anything but a mapping is a [TypeError]; a mapping
    is validated. *)
Definition new_CryptoPayWebhook (data : value) : M CryptoPayWebhook :=
  match data with
  | JDict d =>
    match validate_CryptoPayWebhook d with
    | inr w => ret w
    | inl errs => raise (ValidationError errs)
    end
  | _ => raise TypeError
  end.

End Validation.

(** The fields of type [str] a webhook holds. *)
Definition str_fields (w : CryptoPayWebhook) : list str :=
  let p := payload w in
  [update_type w; request_date w; status p]
    ++ flat_map (fun o => match o with Some s => [s] | None => [] end)
         [amount p; asset p; fee p; fiat_amount p; fiat_currency p;
          description p; custom_payload p].

(** The text has a UTF-8 encoding: it holds no lone surrogate. *)
Definition encodable (s : str) : bool :=
  match encode s with
  | Some _ => true
  | None => false
  end.

(** [webhook_data.model_dump_json(indent=2)].  pydantic writes the JSON
    text in UTF-8: a [str] field that holds a lone surrogate cannot be
    written, and the call raises [PydanticSerializationError].  The text
    itself is only logged and is not modelled. *)
Definition model_dump_json (w : CryptoPayWebhook) : M unit :=
  if forallb encodable (str_fields w) then ret tt
  else raise PydanticSerializationError.

End Models.

(* ================================================================== *)
(** * [hashlib.sha256] and [hmac] *)
(* ================================================================== *)

Module Hashlib.
Import Py.
Local Open Scope Z_scope.

(** 32-bit words are integers reduced modulo 2^32. *)
Definition w32 (x : Z) : Z := x mod 4294967296.
Definition add32 (x y : Z) : Z := w32 (x + y).
Definition rotr (n x : Z) : Z :=
  Z.lor (Z.shiftr x n) (w32 (Z.shiftl x (32 - n))).

Definition Ch (x y z : Z) : Z :=
  Z.lxor (Z.land x y) (Z.land (w32 (Z.lnot x)) z).
Definition Maj (x y z : Z) : Z :=
  Z.lxor (Z.lxor (Z.land x y) (Z.land x z)) (Z.land y z).
Definition Sigma0 (x : Z) : Z :=
  Z.lxor (Z.lxor (rotr 2 x) (rotr 13 x)) (rotr 22 x).
Definition Sigma1 (x : Z) : Z :=
  Z.lxor (Z.lxor (rotr 6 x) (rotr 11 x)) (rotr 25 x).
Definition sigma0 (x : Z) : Z :=
  Z.lxor (Z.lxor (rotr 7 x) (rotr 18 x)) (Z.shiftr x 3).
Definition sigma1 (x : Z) : Z :=
  Z.lxor (Z.lxor (rotr 17 x) (rotr 19 x)) (Z.shiftr x 10).

Definition K256 : list Z :=
  [
    1116352408; 1899447441; 3049323471; 3921009573; 961987163; 1508970993;
    2453635748; 2870763221; 3624381080; 310598401; 607225278; 1426881987;
    1925078388; 2162078206; 2614888103; 3248222580; 3835390401; 4022224774;
    264347078; 604807628; 770255983; 1249150122; 1555081692; 1996064986;
    2554220882; 2821834349; 2952996808; 3210313671; 3336571891; 3584528711;
    113926993; 338241895; 666307205; 773529912; 1294757372; 1396182291;
    1695183700; 1986661051; 2177026350; 2456956037; 2730485921; 2820302411;
    3259730800; 3345764771; 3516065817; 3600352804; 4094571909; 275423344;
    430227734; 506948616; 659060556; 883997877; 958139571; 1322822218;
    1537002063; 1747873779; 1955562222; 2024104815; 2227730452; 2361852424;
    2428436474; 2756734187; 3204031479; 3329325298
  ].

Definition H256 : list Z :=
  [
    1779033703; 3144134277; 1013904242; 2773480762;
    1359893119; 2600822924; 528734635; 1541459225
  ].

(** The message schedule, most recent word first: word t is computed from
    the words t-2, t-7, t-15 and t-16. *)
Fixpoint extend (n : nat) (w : list Z) : list Z :=
  match n with
  | O => w
  | S n' =>
    match w with
    | _ :: w2 :: _ :: _ :: _ :: _ :: w7 :: _ :: _ :: _ :: _ :: _ :: _ :: _
        :: w15 :: w16 :: _ =>
      extend n' (add32 (add32 (sigma1 w2) w7) (add32 (sigma0 w15) w16) :: w)
    | _ => w
    end
  end.

Definition schedule (block : list Z) : list Z := rev (extend 48 (rev block)).

Definition round (st : list Z) (kw : Z * Z) : list Z :=
  match st with
  | [a; b; c; d; e; f; g; h] =>
    let t1 := add32 (add32 (add32 h (Sigma1 e)) (Ch e f g))
                    (add32 (fst kw) (snd kw)) in
    let t2 := add32 (Sigma0 a) (Maj a b c) in
    [add32 t1 t2; a; b; c; add32 d t1; e; f; g]
  | _ => st
  end.

Definition compress (h : list Z) (block : list Z) : list Z :=
  map (fun p => add32 (fst p) (snd p))
      (combine h (fold_left round (combine K256 (schedule block)) h)).

(** Feed the words sixteen at a time: [cur] is the block being filled,
    reversed, and [n] its length. *)
Fixpoint absorb (h : list Z) (cur : list Z) (n : nat) (ws : list Z) : list Z :=
  match ws with
  | [] => h
  | w :: ws' =>
    if Nat.eqb n 15
    then absorb (compress h (rev (w :: cur))) [] 0%nat ws'
    else absorb h (w :: cur) (S n) ws'
  end.

Fixpoint words (bs : list Z) : list Z :=
  match bs with
  | b0 :: b1 :: b2 :: b3 :: bs' =>
    (b0 * 16777216 + b1 * 65536 + b2 * 256 + b3) :: words bs'
  | _ => []
  end.

Definition be_bytes (n : nat) (x : Z) : list Z :=
  map (fun i => Z.shiftr x (8 * Z.of_nat i) mod 256) (rev (seq 0 n)).

(** Padding: a 1 bit, zeros up to 56 modulo 64, the bit length on 8 octets. *)
Definition pad (msg : list Z) : list Z :=
  let len := Z.of_nat (List.length msg) in
  let zeros := Z.to_nat ((55 - len) mod 64) in
  msg ++ [128] ++ repeat 0 zeros ++ be_bytes 8 (8 * len).

Definition sha256_octets (msg : list Z) : list Z :=
  flat_map (be_bytes 4) (absorb H256 [] 0%nat (words (pad msg))).

Definition octets (x : bytes) : list Z := map (fun c => Z.of_N (Byte.to_N c)) x.
Definition of_octets (l : list Z) : bytes := map (fun z => octet (Z.to_N z)) l.

(** [hashlib.sha256(data).digest()] *)
Definition sha256 (data : bytes) : bytes := of_octets (sha256_octets (octets data)).

(** [hmac.new(key, msg, hashlib.sha256).digest()]: the block size is 64; a
    longer key is hashed first. *)
Definition hmac_sha256 (key msg : bytes) : bytes :=
  let k := octets key in
  let k0 := if (64 <? Z.of_nat (List.length k)) then sha256_octets k else k in
  let k1 := k0 ++ repeat 0 (64 - List.length k0) in
  let inner := sha256_octets (map (Z.lxor 54) k1 ++ octets msg) in
  of_octets (sha256_octets (map (Z.lxor 92) k1 ++ inner)).

Definition hex_digit (n : N) : codepoint :=
  if (n <? 10)%N then (48 + n)%N else (87 + n)%N.

(** [.hexdigest()]: two lower-case hexadecimal digits per octet. *)
Definition hexlify (x : bytes) : str :=
  flat_map (fun c => let n := Byte.to_N c in
                     [hex_digit (n / 16)%N; hex_digit (n mod 16)%N]) x.

Definition hmac_sha256_hexdigest (key msg : bytes) : str :=
  hexlify (hmac_sha256 key msg).

(** [hmac.compare_digest(a, b)] on two [str]: equality, and a [TypeError]
    when either holds a non-ASCII character.  (That the comparison takes
    the same time wherever the strings differ is not a property of its
    result.) *)
Definition is_ascii (s : str) : bool := forallb (fun c => (c <? 128)%N) s.

Definition compare_digest (a b : str) : M bool :=
  if is_ascii a && is_ascii b then ret (str_eqb a b) else raise TypeError.

End Hashlib.

(* ================================================================== *)
(** * [config.py] *)
(* ================================================================== *)

Module Config.
Import Py.

(** [os.getenv], once [load_dotenv()] has run. *)
Definition environ := string -> option str.

(** A module is the names it binds; the settings are [Optional[str]]. *)
Definition module := list (string * option str).

(** The two assignments of [config.py]. *)
Definition config (getenv : environ) : module :=
  [ ("TELEGRAM_BOT_TOKEN"%string, getenv "TELEGRAM_BOT_TOKEN"%string);
    ("CRYPTO_PAY_API_TOKEN"%string, getenv "CRYPTO_PAY_API_TOKEN"%string) ].

Fixpoint lookup (name : string) (m : module) : option (option str) :=
  match m with
  | [] => None
  | (n, v) :: m' => if String.eqb name n then Some v else lookup name m'
  end.

(** [config.NAME]: a name the module does not bind is an [AttributeError]. *)
Definition getattr (m : module) (name : string) : M (option str) :=
  match lookup name m with
  | Some v => ret v
  | None => raise (AttributeError name)
  end.

End Config.

(* ================================================================== *)
(** * [main.py] *)
(* ================================================================== *)

Module Main.
Import Py Json Models Hashlib Config.
Local Open Scope py_scope.
Local Open Scope Z_scope.

(** What [requests.post] meets: a response with its status code, or a
    [RequestException] (connection error, timeout, invalid URL). *)
Inductive post_outcome :=
| Response (status_code : Z)
| Failed.

(** The network answers a POST by its URL, chat id and text. *)
Definition network := str -> Z -> str -> post_outcome.

(** The JSON object a handler returns. *)
Definition body := list (str * str).

(** How FastAPI answers: a returned object is a 200, an [HTTPException] its
    status code and detail, any other exception a 500. *)
Inductive http_response :=
| JSONResponse (status_code : Z) (content : body)
| ErrorResponse (status_code : Z) (detail : str)
| InternalServerError.

Definition respond (r : result body) : http_response :=
  match r with
  | Return d => JSONResponse 200 d
  | Raise (HTTPException code detail) => ErrorResponse code detail
  | Raise _ => InternalServerError
  end.

(** How an f-string renders an [Optional[str]]. *)
Definition format (o : option str) : str :=
  match o with
  | Some s => s
  | None => u "None"
  end.

(** The text of an [Optional[str]] known to be true. *)
Definition the (o : option str) : str :=
  match o with
  | Some s => s
  | None => []
  end.

Definition bytes_decode (x : bytes) : M str :=
  match decode x with
  | Some s => ret s
  | None => raise UnicodeDecodeError
  end.

Definition str_encode (s : str) : M bytes :=
  match encode s with
  | Some x => ret x
  | None => raise UnicodeEncodeError
  end.

(** The exception at a limit of the interpreter. *)
Definition limit_error (l : limit) : exn :=
  match l with
  | RecursionLimit => RecursionError
  | IntMaxStrDigits => ValueError
  end.

Definition marker : str := u "user_id:".

Definition soft_error : body :=
  [ (u "status", u "error");
    (u "message", u "chat_id not found in payload, notification skipped") ].

Definition processed : body :=
  [ (u "status", u "ok"); (u "message", u "Webhook processed") ].

Section Server.

Variable L : Libs.
(** The module [config] as [main.py] imports it. *)
Variable cfg : module.
Variable net : network.

(** [json.loads(s)]: a malformed text is a [JSONDecodeError]; nesting
    beyond what the interpreter has room for is a [RecursionError], an
    integer of too many digits a [ValueError]. *)
Definition json_loads (s : str) : M value :=
  match loads (recursion_limit L) s with
  | Ok v => ret v
  | Err e => raise (JSONDecodeError e)
  | Exceeded l => raise (limit_error l)
  end.

(** [requests.post(url, json=payload, timeout=5)] *)
Definition requests_post (url : str) (chat_id : Z) (text : str) : M Z :=
  (match net url chat_id text with
   | Response code => Return code
   | Failed => Raise RequestException
   end, [Post url chat_id text (u "HTML")]).

(** [response.raise_for_status()]: an [HTTPError] for a 4xx or 5xx status. *)
Definition raise_for_status (code : Z) : M unit :=
  if (400 <=? code) && (code <? 600) then raise RequestException else ret tt.

Definition send_telegram_message (chat_id : Z) (text : str) : M bool :=
  token <- getattr cfg "TELEGRAM_BOT_TOKEN" ;;
  let telegram_api_url :=
    u "https://api.telegram.org/bot" ++ format token ++ u "/sendMessage" in
  try_except
    (response <- requests_post telegram_api_url chat_id text ;;
     raise_for_status response ;;
     log INFO MessageSent ;;
     ret true)
    (fun e =>
       match e with
       | RequestException =>
         log ERROR MessageFailed ;;
         log ERROR MessageFailedContent ;;
         ret false
       | _ => raise e
       end).

Definition verify_signature (request_body : bytes)
           (signature_header : option str) : M bool :=
  secret <- getattr cfg "CRYPTO_PAY_WEBHOOK_SECRET" ;;
  if negb (truthy secret) || negb (truthy signature_header) then
    log WARNING SignatureSkipped ;;
    ret true
  else
    try_except
      (key <- str_encode (the secret) ;;
       let calculated_signature := hmac_sha256_hexdigest key request_body in
       same <- compare_digest calculated_signature (the signature_header) ;;
       if same : bool then
         log INFO SignatureVerified ;;
         ret true
       else
         log WARNING SignatureMismatch ;;
         ret false)
      (fun _ =>
         log ERROR SignatureError ;;
         ret false).

(** Lines 133 to 141 of the handler: the chat id is read from the text after
    the marker; any exception on the way is logged and leaves it [None]. *)
Definition extract_chat_id (custom_payload_str : option str) : M (option Z) :=
  if truthy custom_payload_str then
    try_except
      (if contains marker (the custom_payload_str) then
         match int (unicode L) (last_item (split marker (the custom_payload_str))) with
         | Some n =>
           log INFO ExtractedChatId ;;
           ret (Some n)
         | None => raise ValueError
         end
       else ret None)
      (fun _ =>
         log ERROR ChatIdParseFailed ;;
         ret None)
  else ret None.

(** [not chat_id] for an [Optional[int]]: [None] and [0] are false values. *)
Definition not_chat_id (chat_id : option Z) : bool :=
  match chat_id with
  | None => true
  | Some n => n =? 0
  end.

(** Lines 153 to 162 of the handler. *)
Definition notification_text (invoice_id : Z) (status : str)
           (amount asset : option str) : str :=
  let notification_text :=
    u "Статус вашего платежа (Инвойс ID: " ++ str_of_int invoice_id
      ++ u ") обновлен: <b>" ++ upper (unicode L) status ++ u "</b>." in
  if str_eqb status (u "paid") then
    let notification_text :=
      u "✅ Ваш платеж (Инвойс ID: " ++ str_of_int invoice_id
        ++ u ") успешно получен!" in
    if truthy amount && truthy asset then
      u "✅ Ваш платеж на сумму " ++ the amount ++ u " " ++ the asset
        ++ u " (Инвойс ID: " ++ str_of_int invoice_id
        ++ u ") успешно получен!"
    else notification_text
  else if str_eqb status (u "expired") then
    u "⌛️ Срок действия вашего платежа (Инвойс ID: "
      ++ str_of_int invoice_id ++ u ") истек."
  else notification_text.

(** Lines 115 to 124: the body is decoded, parsed and validated, and the
    webhook is written as JSON for the log, all inside the [try]; a
    [JSONDecodeError] and any other exception become two different 400s. *)
Definition parse_webhook (raw_body : bytes) : M CryptoPayWebhook :=
  try_except
    (text <- bytes_decode raw_body ;;
     webhook_data_dict <- json_loads text ;;
     webhook_data <- new_CryptoPayWebhook L webhook_data_dict ;;
     model_dump_json webhook_data ;;
     log INFO ParsedWebhook ;;
     ret webhook_data)
    (fun e =>
       match e with
       | JSONDecodeError _ =>
         log ERROR JsonDecodeFailed ;;
         raise (HTTPException 400 (u "Invalid JSON payload"))
       | _ =>
         log ERROR ValidationFailed ;;
         raise (HTTPException 400 (u "Invalid payload structure: " ++ exn_str L e))
       end).

(** [POST /webhook/crypto_pay].  The call of [verify_signature] is commented
    out in the source: the handler logs a warning instead. *)
Definition crypto_pay_webhook_handler (raw_body : bytes)
           (crypto_pay_signature : option str) : M body :=
  log INFO ReceivedHeaders ;;
  _ <- bytes_decode raw_body ;;
  log INFO ReceivedBody ;;
  log WARNING LenientVerification ;;
  webhook_data <- parse_webhook raw_body ;;
  let invoice_payload := payload webhook_data in
  let invoice_id := invoice_id invoice_payload in
  let status := status invoice_payload in
  let amount := amount invoice_payload in
  let asset := asset invoice_payload in
  let custom_payload_str := custom_payload invoice_payload in
  chat_id <- extract_chat_id custom_payload_str ;;
  if not_chat_id chat_id then
    log ERROR ChatIdNotFound ;;
    ret soft_error
  else
    let notification_text := notification_text invoice_id status amount asset in
    _ <- send_telegram_message (match chat_id with Some n => n | None => 0 end)
                               notification_text ;;
    ret processed.

End Server.

(** Whether a trace holds a call of the Telegram Bot API. *)
Definition is_post (e : event) : bool :=
  match e with
  | Post _ _ _ _ => true
  | Log _ _ => false
  end.

Definition notifier_invoked (t : list event) : bool := existsb is_post t.

End Main.

(* ================================================================== *)
(** * JSON texts, as RFC 8259 writes them *)
(* ================================================================== *)

(** A document is a JSON text with its layout: the white space, the way
    each character of a string is written, the digits of a number.  Its
    [text] is what is sent, its [meaning] the Python value it stands for.
    This is the grammar of the RFC, written without reference to the
    decoder of [Json]. *)
Module Grammar.
Import Py Json.

(** White space: space, horizontal tab, line feed, carriage return. *)
Definition ws (c : codepoint) : bool := existsb (N.eqb c) [32; 9; 10; 13]%N.

Definition white (s : str) : bool := forallb ws s.

Definition digit (c : codepoint) : bool := existsb (N.eqb c) (u "0123456789").

Definition digits (s : str) : bool := forallb digit s.

(** The number a string of digits denotes. *)
Definition decimal (ds : str) : Z :=
  fold_left (fun acc c => (10 * acc + Z.of_N (c - 48))%Z) ds 0%Z.

(** ** Strings *)

(** The place of a character in a text. *)
Fixpoint index (c : codepoint) (l : str) : option N :=
  match l with
  | [] => None
  | x :: l' => if (x =? c)%N then Some 0%N else option_map N.succ (index c l')
  end.

(** The value of a hexadecimal digit, in either case. *)
Definition hex (c : codepoint) : option N :=
  match index c (u "0123456789abcdef") with
  | Some v => Some v
  | None => index c (u "0123456789ABCDEF")
  end.

(** The two-character escapes: the letter after the backslash, and the
    character it stands for. *)
Definition escapes : list (codepoint * codepoint) :=
  [ (34, 34); (92, 92); (47, 47); (98, 8); (102, 12); (110, 10); (114, 13);
    (116, 9) ]%N.

Fixpoint assoc (e : codepoint) (l : list (codepoint * codepoint))
  : option codepoint :=
  match l with
  | [] => None
  | (k, v) :: l' => if (k =? e)%N then Some v else assoc e l'
  end.

Definition escape (e : codepoint) : option codepoint := assoc e escapes.

(** How a string writes one character, or one half of a surrogate pair. *)
Inductive item :=
| Plain (c : codepoint)
| Escape (e : codepoint)
| Unicode (h1 h2 h3 h4 : codepoint).

Definition item_text (i : item) : str :=
  match i with
  | Plain c => [c]
  | Escape e => [92%N; e]
  | Unicode h1 h2 h3 h4 => [92%N; 117%N; h1; h2; h3; h4]
  end.

Definition items_text (l : list item) : str := flat_map item_text l.

(** The code unit four hexadecimal digits denote. *)
Definition code (h1 h2 h3 h4 : codepoint) : option N :=
  match hex h1, hex h2, hex h3, hex h4 with
  | Some a, Some b, Some c, Some d => Some (((a * 16 + b) * 16 + c) * 16 + d)%N
  | _, _, _, _ => None
  end.

(** An unescaped character is none of the quotation mark, the backslash and
    the control characters. *)
Definition wf_item (i : item) : bool :=
  match i with
  | Plain c => (32 <=? c)%N && negb (c =? 34)%N && negb (c =? 92)%N
  | Escape e => match escape e with Some _ => true | None => false end
  | Unicode h1 h2 h3 h4 =>
    match code h1 h2 h3 h4 with Some _ => true | None => false end
  end.

Definition wf_items (l : list item) : bool := forallb wf_item l.

Definition item_char (i : item) : codepoint :=
  match i with
  | Plain c => c
  | Escape e => match escape e with Some c => c | None => e end
  | Unicode h1 h2 h3 h4 =>
    match code h1 h2 h3 h4 with Some c => c | None => 0%N end
  end.

(** The surrogates of UTF-16, and the character a pair of them encodes. *)
Definition high (c : N) : bool := (0xD800 <=? c)%N && (c <=? 0xDBFF)%N.
Definition low (c : N) : bool := (0xDC00 <=? c)%N && (c <=? 0xDFFF)%N.
Definition supplementary (hi lo : N) : N :=
  (0x10000 + (hi - 0xD800) * 0x400 + (lo - 0xDC00))%N.

(** The text a string denotes: a high surrogate escape followed by a low
    one is one character; any other item is one character by itself. *)
Fixpoint chars (l : list item) : str :=
  match l with
  | [] => []
  | i :: l' =>
    match i, l' with
    | Unicode _ _ _ _, (Unicode _ _ _ _ as j) :: l'' =>
      if high (item_char i) && low (item_char j)
      then supplementary (item_char i) (item_char j) :: chars l''
      else item_char i :: chars l'
    | _, _ => item_char i :: chars l'
    end
  end.

(** ** Documents *)

Inductive doc :=
| DNull
| DBool (x : bool)
| DNumber (minus : bool) (integer frac exp : str)
| DString (l : list item)
| DArray (w : str) (elements : list (str * doc * str))
| DObject (w : str) (members : list (str * list item * str * str * doc * str)).

(** Texts with commas between them. *)
Fixpoint commas (l : list str) : str :=
  match l with
  | [] => []
  | x :: l' =>
    match l' with
    | [] => x
    | _ :: _ => x ++ 44%N :: commas l'
    end
  end.

(** An element is a value between white space; a member is a name, a colon
    and a value, with white space around each; an array or an object
    without items holds white space [w] only. *)
Fixpoint text (d : doc) : str :=
  match d with
  | DNull => u "null"
  | DBool true => u "true"
  | DBool false => u "false"
  | DNumber minus integer frac exp =>
    (if minus then [45%N] else []) ++ integer ++ frac ++ exp
  | DString l => 34%N :: items_text l ++ [34%N]
  | DArray w elements =>
    91%N :: match elements with
            | [] => w
            | _ :: _ =>
              commas (map (fun '(a, x, b) => a ++ text x ++ b) elements)
            end ++ [93%N]
  | DObject w members =>
    123%N :: match members with
             | [] => w
             | _ :: _ =>
               commas (map (fun '(a, k, b, c, x, e) =>
                              a ++ 34%N :: items_text k ++ [34%N] ++ b
                                ++ 58%N :: c ++ text x ++ e) members)
             end ++ [125%N]
  end.

(** The [dict] the members of an object build, in the order of the text: a
    name that comes again takes the place of the earlier one. *)
Definition build (l : list (str * value)) : dict :=
  fold_left (fun acc kv => dict_set (fst kv) (snd kv) acc) l [].

Fixpoint meaning (d : doc) : value :=
  match d with
  | DNull => JNone
  | DBool x => JBool x
  | DNumber minus integer [] [] =>
    JInt (if minus then (- decimal integer)%Z else decimal integer)
  | DNumber minus integer frac exp =>
    JFloat ((if minus then [45%N] else []) ++ integer ++ frac ++ exp)
  | DString l => JStr (chars l)
  | DArray _ elements => JList (map (fun '(_, x, _) => meaning x) elements)
  | DObject _ members =>
    JDict (build (map (fun '(_, k, _, _, x, _) => (chars k, meaning x)) members))
  end.

(** The integer part: a lone zero, or digits that do not start with one.
    The fraction: nothing, or a dot and digits.  The exponent: nothing, or
    the letter e in either case, an optional sign and digits. *)
Definition wf_integer (i : str) : bool :=
  match i with
  | [] => false
  | c :: r => digits i && ((negb (c =? 48)%N) || match r with [] => true | _ => false end)
  end.

Definition some_digits (s : str) : bool :=
  match s with
  | [] => false
  | _ :: _ => digits s
  end.

Definition wf_frac (f : str) : bool :=
  match f with
  | [] => true
  | c :: ds => (c =? 46)%N && some_digits ds
  end.

Definition wf_exp (e : str) : bool :=
  match e with
  | [] => true
  | c :: r =>
    ((c =? 101)%N || (c =? 69)%N)
    && match r with
       | s :: ds =>
         if (s =? 43)%N || (s =? 45)%N then some_digits ds else some_digits r
       | [] => false
       end
  end.

Fixpoint wf (d : doc) : bool :=
  match d with
  | DNull | DBool _ => true
  | DNumber _ integer frac exp => wf_integer integer && wf_frac frac && wf_exp exp
  | DString l => wf_items l
  | DArray w elements =>
    white w && forallb (fun '(a, x, b) => white a && wf x && white b) elements
  | DObject w members =>
    white w
    && forallb (fun '(a, k, b, c, x, e) =>
                  white a && wf_items k && white b && white c && wf x
                  && white e) members
  end.

(** What the interpreter has room for: arrays and objects nested at most
    [depth] deep, and no integer of more than [int_max_str_digits]
    digits. *)
Fixpoint fits (depth : nat) (d : doc) {struct d} : bool :=
  match d with
  | DNull | DBool _ | DString _ => true
  | DNumber _ integer [] [] =>
    (N.of_nat (List.length integer) <=? int_max_str_digits)%N
  | DNumber _ _ _ _ => true
  | DArray _ elements =>
    match depth with
    | O => false
    | S n => forallb (fun '(_, x, _) => fits n x) elements
    end
  | DObject _ members =>
    match depth with
    | O => false
    | S n => forallb (fun '(_, _, _, _, x, _) => fits n x) members
    end
  end.

(** The parts of the text of an array and of an object, and what each
    stands for. *)
Definition element_text (e : str * doc * str) : str :=
  let '(a, x, b) := e in a ++ text x ++ b.

Definition element_meaning (e : str * doc * str) : value :=
  let '(_, x, _) := e in meaning x.

Definition member_text (m : str * list item * str * str * doc * str) : str :=
  let '(a, k, b, c, x, e) := m in
  a ++ 34%N :: items_text k ++ [34%N] ++ b ++ 58%N :: c ++ text x ++ e.

Definition member_binding (m : str * list item * str * str * doc * str)
  : str * value :=
  let '(_, k, _, _, x, _) := m in (chars k, meaning x).

(** What comes after a value in a JSON text: the end of the text, white
    space, a comma, a closing bracket or a closing brace. *)
Definition follows (rest : str) : Prop :=
  match rest with
  | [] => True
  | c :: _ => In c [32; 9; 10; 13; 44; 93; 125]%N
  end.

(** The text is empty, or starts with a character that [p] accepts. *)
Definition head_is (p : codepoint -> bool) (s : str) : bool :=
  match s with
  | [] => true
  | c :: _ => p c
  end.

(** A string written without escapes, and an object member, an array
    element and an object written without white space. *)
Definition literal (s : string) : list item := map Plain (u s).

Definition member (name : string) (x : doc)
  : str * list item * str * str * doc * str :=
  ([], literal name, [], [], x, []).

Definition element (x : doc) : str * doc * str := ([], x, []).

Definition object (members : list (str * list item * str * str * doc * str))
  : doc := DObject [] members.

Definition integer (n : string) : doc := DNumber false (u n) [] [].

End Grammar.

(* ================================================================== *)
(** * The vocabulary of the specification *)
(* ================================================================== *)

Module Spec.
Import Py Json Models Hashlib Config Main Grammar.

(** The occurrence of [sep] between [p] and [r] is the last one of the text:
    no other way to cut the text around [sep] has a longer left part. *)
Definition last_occurrence (sep p r : str) : Prop :=
  forall p' r', p ++ sep ++ r = p' ++ sep ++ r' ->
                (List.length p' <= List.length p)%nat.

(** The text has no occurrence of [sep]. *)
Definition no_occurrence (sep s : str) : Prop :=
  forall p r, s <> p ++ sep ++ r.

(** Signature verification fails: a shared secret is configured, a signature
    header is present, and the HMAC-SHA256 hex digest of the raw body under
    the secret is not the header. *)
Definition signature_fails (secret header : option str) (raw_body : bytes)
  : Prop :=
  truthy secret = true /\ truthy header = true /\
  exists key, encode (the secret) = Some key /\
              hmac_sha256_hexdigest key raw_body <> the header.

(** The documented shape of the body: a JSON object is an invoice record, or
    a webhook envelope, when it binds the required keys to values of the
    right type and each optional key to a string, to [null] or not at all;
    [custom_payload] is the key [payload] of the invoice object. *)
Definition has (d : dict) (key : string) (v : value) : Prop :=
  dict_get (u key) d = Some v.

Definition has_optional (d : dict) (key : string) (o : option str) : Prop :=
  match o with
  | Some s => has d key (JStr s)
  | None => dict_get (u key) d = None \/ has d key JNone
  end.

Definition invoice_record (d : dict) (p : InvoicePayload) : Prop :=
  has d "invoice_id" (JInt (invoice_id p)) /\
  has d "status" (JStr (status p)) /\
  has_optional d "amount" (amount p) /\
  has_optional d "asset" (asset p) /\
  has_optional d "fee" (fee p) /\
  has_optional d "fiat_amount" (fiat_amount p) /\
  has_optional d "fiat_currency" (fiat_currency p) /\
  has_optional d "description" (description p) /\
  has_optional d "payload" (custom_payload p).

Definition webhook_envelope (d : dict) (w : CryptoPayWebhook) : Prop :=
  has d "update_id" (JInt (update_id w)) /\
  has d "update_type" (JStr (update_type w)) /\
  has d "request_date" (JStr (request_date w)) /\
  exists inv, has d "payload" (JDict inv) /\ invoice_record inv (payload w).

(** The body is valid JSON matching the schema: it is the UTF-8 form of a
    JSON text, the document [x] with white space around it, and [x] stands
    for an object of the documented shape, that of the envelope [w]. *)
Definition valid_body (raw_body : bytes) (x : doc) (w : CryptoPayWebhook)
  : Prop :=
  wf x = true
  /\ exists (w1 w2 : str) (d : dict),
       white w1 = true /\ white w2 = true
       /\ decode raw_body = Some (w1 ++ text x ++ w2)
       /\ meaning x = JDict d /\ webhook_envelope d w.

(** The marks of the three kinds of message. *)
Definition success_marker : str := u "✅".
Definition expiry_marker : str := u "⌛️".
Definition amount_fragment : str := u "на сумму".

(** The outbound call failed: a network error, or a response that is not a
    2xx.  [raise_for_status] sees a failure in a 4xx or 5xx only. *)
Definition non_2xx (o : post_outcome) : bool :=
  match o with
  | Response code => negb ((200 <=? code)%Z && (code <? 300)%Z)
  | Failed => true
  end.

Definition client_or_server_error (o : post_outcome) : bool :=
  match o with
  | Response code => (400 <=? code)%Z && (code <? 600)%Z
  | Failed => true
  end.

(** The URL the notifier posts to. *)
Definition send_message_url (token : option str) : str :=
  u "https://api.telegram.org/bot" ++ format token ++ u "/sendMessage".

(** A scanner of JSON values is good up to [n] when, on a text shorter than
    [n], it does not run out of fuel and leaves less than it was given. *)
Definition good (scan : str -> res (value * str)) (n : nat) : Prop :=
  forall s, (List.length s < n)%nat ->
            scan s <> Err OutOfFuel
            /\ forall v r, scan s = Ok (v, r) ->
                           (List.length r < List.length s)%nat.

(** A scanner reads the document [x] when, on the text of [x] followed by
    what may follow a value, it returns the meaning of [x] and the text
    after it. *)
Definition reads (scan : str -> res (value * str)) (x : doc) : Prop :=
  forall rest, follows rest -> scan (text x ++ rest) = Ok (meaning x, rest).

(** The characters an [int] is rendered with: the minus sign and digits. *)
Definition is_int_char (c : codepoint) : Prop :=
  c = 45%N \/ (48 <= c <= 57)%N.

(** The log records every request that decodes starts with. *)
Definition preamble : list event :=
  [Log INFO ReceivedHeaders; Log INFO ReceivedBody;
   Log WARNING LenientVerification].

End Spec.

(* ================================================================== *)
(** * Sample requests and environments *)
(* ================================================================== *)

Module Samples.
Import Py Json Models Config Main Grammar.

(** A JSON text written with an apostrophe where JSON has a double quote. *)
Definition json_bytes (s : string) : bytes :=
  map (fun c => if Byte.eqb c x27 then x22 else c) (b s).

Definition no_env : environ := fun _ => None.

(** An environment that sets a shared secret, under the name [config.py]
    reads and under the name [verify_signature] reads. *)
Definition env_secret : environ :=
  fun name =>
    if String.eqb name "CRYPTO_PAY_WEBHOOK_SECRET"
       || String.eqb name "CRYPTO_PAY_API_TOKEN"
    then Some (u "key") else None.

(** A module that binds the secret, as [verify_signature] expects of
    [config]. *)
Definition config_with_secret (getenv : environ) : module :=
  ("CRYPTO_PAY_WEBHOOK_SECRET"%string, getenv "CRYPTO_PAY_WEBHOOK_SECRET"%string)
    :: config getenv.

Definition net_ok : network := fun _ _ _ => Response 200.
Definition net_down : network := fun _ _ _ => Failed.
Definition net_not_modified : network := fun _ _ _ => Response 304.

Definition body_paid : bytes :=
  json_bytes "{'update_id':1,'update_type':'invoice_paid','request_date':'2024-05-01T10:00:00Z','payload':{'invoice_id':7,'status':'paid','amount':'10.5','asset':'TON','payload':'foo:bar,user_id:42','custom_payload':'ignored'}}".

Definition body_no_marker : bytes :=
  json_bytes "{'update_id':1,'update_type':'invoice_paid','request_date':'2024-05-01T10:00:00Z','payload':{'invoice_id':7,'status':'paid','payload':'no marker here'}}".

Definition body_zero : bytes :=
  json_bytes "{'update_id':1,'update_type':'invoice_paid','request_date':'2024-05-01T10:00:00Z','payload':{'invoice_id':7,'status':'paid','payload':'order 9;user_id:0'}}".

Definition webhook_paid : CryptoPayWebhook :=
  {| update_id := 1;
     update_type := u "invoice_paid";
     request_date := u "2024-05-01T10:00:00Z";
     payload :=
       {| invoice_id := 7; status := u "paid";
          amount := Some (u "10.5"); asset := Some (u "TON");
          fee := None; fiat_amount := None; fiat_currency := None;
          description := None;
          custom_payload := Some (u "foo:bar,user_id:42") |} |}.

Definition webhook_no_marker : CryptoPayWebhook :=
  {| update_id := 1;
     update_type := u "invoice_paid";
     request_date := u "2024-05-01T10:00:00Z";
     payload :=
       {| invoice_id := 7; status := u "paid";
          amount := None; asset := None;
          fee := None; fiat_amount := None; fiat_currency := None;
          description := None;
          custom_payload := Some (u "no marker here") |} |}.

Definition webhook_zero : CryptoPayWebhook :=
  {| update_id := 1;
     update_type := u "invoice_paid";
     request_date := u "2024-05-01T10:00:00Z";
     payload :=
       {| invoice_id := 7; status := u "paid";
          amount := None; asset := None;
          fee := None; fiat_amount := None; fiat_currency := None;
          description := None;
          custom_payload := Some (u "order 9;" ++ u "user_id:0") |} |}.

(** The document [body_paid] is the text of. *)
Definition doc_paid : doc :=
  object
    [ member "update_id" (integer "1");
      member "update_type" (DString (literal "invoice_paid"));
      member "request_date" (DString (literal "2024-05-01T10:00:00Z"));
      member "payload"
        (object
           [ member "invoice_id" (integer "7");
             member "status" (DString (literal "paid"));
             member "amount" (DString (literal "10.5"));
             member "asset" (DString (literal "TON"));
             member "payload" (DString (literal "foo:bar,user_id:42"));
             member "custom_payload" (DString (literal "ignored")) ]) ].

(** A paid invoice whose description ends in half an emoji: the escape of
    a high surrogate that no low surrogate follows. *)
Definition body_surrogate : bytes :=
  json_bytes "{'update_id':1,'update_type':'invoice_paid','request_date':'2024-05-01T10:00:00Z','payload':{'invoice_id':7,'status':'paid','description':'Pizza \ud83c','payload':'user_id:42'}}".

Definition doc_surrogate : doc :=
  object
    [ member "update_id" (integer "1");
      member "update_type" (DString (literal "invoice_paid"));
      member "request_date" (DString (literal "2024-05-01T10:00:00Z"));
      member "payload"
        (object
           [ member "invoice_id" (integer "7");
             member "status" (DString (literal "paid"));
             member "description"
               (DString (literal "Pizza "
                           ++ [Unicode (ord "d") (ord "8") (ord "3") (ord "c")]));
             member "payload" (DString (literal "user_id:42")) ]) ].

Definition webhook_surrogate : CryptoPayWebhook :=
  {| update_id := 1;
     update_type := u "invoice_paid";
     request_date := u "2024-05-01T10:00:00Z";
     payload :=
       {| invoice_id := 7; status := u "paid";
          amount := None; asset := None;
          fee := None; fiat_amount := None; fiat_currency := None;
          description := Some (u "Pizza " ++ [0xD83C%N]);
          custom_payload := Some (u "user_id:42") |} |}.

(** A paid invoice whose number is written with 4301 digits: a seven and
    4300 zeros. *)
Definition body_long : bytes :=
  json_bytes "{'update_id':1,'update_type':'invoice_paid','request_date':'2024-05-01T10:00:00Z','payload':{'invoice_id':7"
    ++ repeat x30 4300
    ++ json_bytes ",'status':'paid','payload':'user_id:42'}}".

Definition doc_long : doc :=
  object
    [ member "update_id" (integer "1");
      member "update_type" (DString (literal "invoice_paid"));
      member "request_date" (DString (literal "2024-05-01T10:00:00Z"));
      member "payload"
        (object
           [ member "invoice_id"
               (DNumber false (u "7" ++ repeat 48%N 4300) [] []);
             member "status" (DString (literal "paid"));
             member "payload" (DString (literal "user_id:42")) ]) ].

Definition webhook_long : CryptoPayWebhook :=
  {| update_id := 1;
     update_type := u "invoice_paid";
     request_date := u "2024-05-01T10:00:00Z";
     payload :=
       {| invoice_id := (7 * 10 ^ 4300)%Z; status := u "paid";
          amount := None; asset := None;
          fee := None; fiat_amount := None; fiat_currency := None;
          description := None;
          custom_payload := Some (u "user_id:42") |} |}.

(** A body, and its HMAC-SHA256 hex digest under the key [key]. *)
Definition fox : bytes := b "The quick brown fox jumps over the lazy dog".

Definition fox_signature : str :=
  u "f7bc83f430538424b13298e6aa6fb143ef4d59a14946175997479dbc2d1a3cd8".

End Samples.

(* ================================================================== *)
(** * Vocabulary for the behaviour of the whole request *)
(* ================================================================== *)

Module Observe.
Import Py Json Models Config Main.

(** The calls of the Telegram Bot API in a trace, in order. *)
Definition posts (t : list event) : list event := filter is_post t.

(** A text of ASCII white space only, as [int] skips it. *)
Definition blank (s : str) : Prop := Forall (fun c => ascii_isspace c = true) s.

(** A lower-case hexadecimal digit. *)
Definition is_lower_hex (c : codepoint) : bool :=
  ((48 <=? c)%N && (c <=? 57)%N) || ((97 <=? c)%N && (c <=? 102)%N).

(** The value an accumulating reader gives the digits [d] after [acc]. *)
Fixpoint value_after (d : Decimal.uint) (acc : Z) : Z :=
  match d with
  | Decimal.Nil => acc
  | Decimal.D0 d' => value_after d' (10 * acc)
  | Decimal.D1 d' => value_after d' (10 * acc + 1)
  | Decimal.D2 d' => value_after d' (10 * acc + 2)
  | Decimal.D3 d' => value_after d' (10 * acc + 3)
  | Decimal.D4 d' => value_after d' (10 * acc + 4)
  | Decimal.D5 d' => value_after d' (10 * acc + 5)
  | Decimal.D6 d' => value_after d' (10 * acc + 6)
  | Decimal.D7 d' => value_after d' (10 * acc + 7)
  | Decimal.D8 d' => value_after d' (10 * acc + 8)
  | Decimal.D9 d' => value_after d' (10 * acc + 9)
  end%Z.

(** The characters of the digits [d]. *)
Definition digits_of (d : Decimal.uint) : str :=
  map ord (list_ascii_of_string (NilEmpty.string_of_uint d)).

(** The number of decimal digits of an integer, the sign apart. *)
Definition digit_count (n : Z) : N :=
  N.of_nat (List.length (str_of_int (Z.abs n))).

(** The keys [InvoicePayload] reads, and those [CryptoPayWebhook] reads. *)
Definition invoice_keys : list string :=
  [ "invoice_id"; "status"; "amount"; "asset"; "fee"; "fiat_amount";
    "fiat_currency"; "description"; "payload" ]%string.

Definition webhook_keys : list string :=
  [ "update_id"; "update_type"; "request_date"; "payload" ]%string.

(** A webhook whose custom payload is [cp], with no amount. *)
Definition webhook_with (st : str) (cp : option str) : CryptoPayWebhook :=
  {| update_id := 1;
     update_type := u "invoice_paid";
     request_date := u "2024-05-01T10:00:00Z";
     payload :=
       {| invoice_id := 7; status := st;
          amount := None; asset := None;
          fee := None; fiat_amount := None; fiat_currency := None;
          description := None;
          custom_payload := cp |} |}.

Definition body_group : bytes :=
  Samples.json_bytes "{'update_id':1,'update_type':'invoice_paid','request_date':'2024-05-01T10:00:00Z','payload':{'invoice_id':7,'status':'expired','payload':'order 9;user_id: -100200 '}}".

Definition body_no_id : bytes :=
  Samples.json_bytes "{'update_id':1,'update_type':'invoice_paid','request_date':'2024-05-01T10:00:00Z','payload':{'invoice_id':7,'status':'paid','payload':'order 9;user_id: '}}".

(** A text of JSON white space only. *)
Definition json_blank (s : str) : Prop := Forall (fun c => is_ws c = true) s.

(** A module whose secret holds a lone surrogate, as an environment
    variable that is not UTF-8 gives one. *)
Definition config_bad_secret : module :=
  [ ("CRYPTO_PAY_WEBHOOK_SECRET"%string, Some [107%N; 56448%N]) ].

(** [sep.join(pieces)] *)
Fixpoint join (sep : str) (pieces : list str) : str :=
  match pieces with
  | [] => []
  | x :: rest =>
    match rest with
    | [] => x
    | _ :: _ => x ++ sep ++ join sep rest
    end
  end.

End Observe.

(* ================================================================== *)
(** * Facts about [str] *)
(* ================================================================== *)

Module Py_facts.
Import Py Spec.

Lemma startswith_app (p r : str) : startswith p (p ++ r) = true.
Proof.
  induction p as [|a p IH]; simpl; [reflexivity|].
  now rewrite N.eqb_refl, IH.
Qed.

Lemma startswith_inv (p s : str) :
  startswith p s = true -> exists r, s = p ++ r.
Proof.
  revert s; induction p as [|a p IH]; intros s H.
  - now exists s.
  - destruct s as [|c s]; simpl in H; [discriminate|].
    apply andb_true_iff in H as [Hc Hs].
    apply N.eqb_eq in Hc; subst c.
    destruct (IH _ Hs) as [r ->].
    now exists r.
Qed.

Lemma startswith_length (p s : str) :
  startswith p s = true -> (List.length p <= List.length s)%nat.
Proof.
  intros H; destruct (startswith_inv _ _ H) as [r ->].
  rewrite length_app; lia.
Qed.

(** [p in s] holds exactly when [s] splits around a copy of [p]. *)
Lemma contains_iff (p s : str) :
  contains p s = true <-> exists a r, s = a ++ p ++ r.
Proof.
  split.
  - induction s as [|c s IH]; simpl; intros H.
    + destruct (startswith_inv _ _ H) as [r Hr].
      exists [], r; exact Hr.
    + apply orb_true_iff in H as [H|H].
      * destruct (startswith_inv _ _ H) as [r Hr].
        exists [], r; exact Hr.
      * destruct (IH H) as (a & r & ->).
        now exists (c :: a), r.
  - intros (a & r & ->).
    induction a as [|c a IH]; simpl.
    + destruct (p ++ r) eqn:E.
      * destruct p; [reflexivity | discriminate].
      * cbn [contains]. rewrite <- E, startswith_app; reflexivity.
    + rewrite IH; apply orb_true_r.
Qed.

Lemma contains_app_mid (a p r : str) : contains p (a ++ p ++ r) = true.
Proof. apply contains_iff; now exists a, r. Qed.

Lemma skipn_app_length (a t : str) (k : nat) :
  skipn (List.length a + k) (a ++ t) = skipn k t.
Proof. induction a; simpl; auto. Qed.

Lemma split_from_not_nil sep skip cur s : split_from sep skip cur s <> [].
Proof.
  revert skip cur; induction s as [|c s IH]; intros skip cur; simpl.
  - discriminate.
  - destruct skip; [destruct (startswith sep (c :: s))|]; try apply IH.
    discriminate.
Qed.

Lemma last_cons_not_nil (x : str) (l : list str) :
  l <> [] -> last (x :: l) [] = last l [].
Proof. destruct l; [congruence | reflexivity]. Qed.

Section Split.

Variable sep : str.
Hypothesis sep_not_empty : sep <> [].
(** No proper suffix of [sep] is a prefix of it: two occurrences of [sep] in
    a text never overlap. *)
Hypothesis unbordered :
  forall s i, startswith sep s = true ->
              (0 < i < List.length sep)%nat ->
              startswith sep (skipn i s) = false.

(** Past the last occurrence, [split] only extends the current piece. *)
Lemma split_from_no_occurrence s : forall skip cur,
  (forall j, (skip <= j)%nat -> startswith sep (skipn j s) = false) ->
  last (split_from sep skip cur s) [] = rev cur ++ skipn skip s.
Proof.
  induction s as [|c s IH]; intros skip cur H; simpl.
  - destruct skip; simpl; now rewrite app_nil_r.
  - destruct skip as [|k].
    + pose proof (H 0%nat (Nat.le_refl 0)) as H0. cbn [skipn] in H0.
      rewrite H0, IH.
      * simpl. now rewrite <- app_assoc.
      * intros j _. apply (H (S j)); lia.
    + rewrite IH; [reflexivity|].
      intros j Hj. apply (H (S j)); lia.
Qed.

(** The last piece [split] returns is the text after the last occurrence. *)
Lemma split_from_last_occurrence s : forall skip cur i,
  startswith sep (skipn i s) = true ->
  (forall j, (i < j)%nat -> startswith sep (skipn j s) = false) ->
  (skip <= i)%nat ->
  last (split_from sep skip cur s) [] = skipn (i + List.length sep) s.
Proof.
  assert (Hlen : (0 < List.length sep)%nat)
    by (destruct sep; [congruence | simpl; lia]).
  induction s as [|c s IH]; intros skip cur i Hi Hlast Hskip.
  - rewrite skipn_nil in Hi. destruct sep; [congruence | discriminate].
  - simpl split_from. destruct skip as [|k].
    + destruct (startswith sep (c :: s)) eqn:Hhere.
      * rewrite last_cons_not_nil by apply split_from_not_nil.
        destruct i as [|i].
        -- rewrite split_from_no_occurrence.
           ++ simpl. destruct (List.length sep); [lia|].
              simpl. now rewrite Nat.sub_0_r.
           ++ intros j Hj. apply (Hlast (S j)); lia.
        -- assert (List.length sep <= S i)%nat.
           { destruct (le_lt_dec (List.length sep) (S i)); [assumption|].
             rewrite (unbordered (c :: s) (S i) Hhere) in Hi by lia. discriminate. }
           apply (IH _ _ i); [exact Hi | | lia].
           intros j Hj. apply (Hlast (S j)); lia.
      * destruct i as [|i]; [simpl in Hi; congruence|].
        apply (IH _ _ i); [exact Hi | | lia].
        intros j Hj. apply (Hlast (S j)); lia.
    + destruct i as [|i]; [lia|].
      apply (IH _ _ i); [exact Hi | | lia].
      intros j Hj. apply (Hlast (S j)); lia.
Qed.

(** The same, with the occurrence given as a decomposition of the text:
    [p ++ sep ++ r] where no decomposition has a longer left part. *)
Lemma split_last_occurrence (p r : str) :
  (forall p' r', p ++ sep ++ r = p' ++ sep ++ r' ->
                 (List.length p' <= List.length p)%nat) ->
  last_item (split sep (p ++ sep ++ r)) = r.
Proof.
  intros Hlast. unfold last_item, split.
  rewrite (split_from_last_occurrence _ 0%nat [] (List.length p)).
  - rewrite app_assoc, <- length_app.
    rewrite <- (Nat.add_0_r (List.length (p ++ sep))).
    now rewrite skipn_app_length.
  - rewrite <- (Nat.add_0_r (List.length p)), skipn_app_length.
    apply startswith_app.
  - intros j Hj.
    destruct (startswith sep (skipn j (p ++ sep ++ r))) eqn:E; [|reflexivity].
    destruct (startswith_inv _ _ E) as [r' Hr'].
    assert (Hjl : (j <= List.length (p ++ sep ++ r))%nat).
    { destruct (le_lt_dec j (List.length (p ++ sep ++ r))); [assumption|].
      rewrite skipn_all2 in E by lia.
      destruct sep; [congruence | discriminate]. }
    specialize (Hlast (firstn j (p ++ sep ++ r)) r').
    rewrite <- Hr', firstn_skipn in Hlast.
    specialize (Hlast eq_refl).
    rewrite length_firstn in Hlast. lia.
  - lia.
Qed.

End Split.

(** The marker of the chat id starts with its only [u]: it is unbordered. *)
Lemma marker_unbordered s i :
  startswith (u "user_id:") s = true ->
  (0 < i < List.length (u "user_id:"))%nat ->
  startswith (u "user_id:") (skipn i s) = false.
Proof.
  intros H Hi.
  destruct (startswith_inv _ _ H) as [r ->].
  change (List.length (u "user_id:")) with 8%nat in Hi.
  do 8 (destruct i as [|i]; [try lia; reflexivity|]).
  lia.
Qed.

Lemma marker_not_empty : u "user_id:" <> [].
Proof. discriminate. Qed.

Lemma str_eqb_eq (x y : str) : str_eqb x y = true <-> x = y.
Proof.
  unfold str_eqb. destruct (list_eq_dec N.eq_dec x y); split; congruence.
Qed.

Lemma str_eqb_refl (x : str) : str_eqb x x = true.
Proof. now apply str_eqb_eq. Qed.

Lemma str_eqb_neq (x y : str) : x <> y -> str_eqb x y = false.
Proof.
  unfold str_eqb. destruct (list_eq_dec N.eq_dec x y); congruence.
Qed.

(** An occurrence is the last one when the separator does not occur again
    from its second character on. *)
Lemma contains_false_skipn (p s : str) (k : nat) :
  contains p s = false -> startswith p (skipn k s) = false.
Proof.
  intros H.
  destruct (startswith p (skipn k s)) eqn:E; [|reflexivity].
  destruct (startswith_inv _ _ E) as [r Hr].
  assert (contains p s = true); [|congruence].
  apply contains_iff. exists (firstn k s), r.
  now rewrite <- Hr, firstn_skipn.
Qed.

Lemma last_occurrence_intro (sep p r : str) :
  contains sep (skipn 1 (sep ++ r)) = false ->
  forall p' r', p ++ sep ++ r = p' ++ sep ++ r' ->
                (List.length p' <= List.length p)%nat.
Proof.
  intros H p' r' E.
  destruct (le_lt_dec (List.length p') (List.length p)) as [|Hlt]; [assumption|].
  exfalso.
  pose proof (contains_false_skipn _ _ (List.length p' - List.length p - 1) H) as Hk.
  rewrite skipn_skipn in Hk.
  replace (List.length p' - List.length p - 1 + 1)%nat
    with (List.length p' - List.length p)%nat in Hk by lia.
  rewrite <- (skipn_app_length p) in Hk.
  replace (List.length p + (List.length p' - List.length p))%nat
    with (List.length p' + 0)%nat in Hk by lia.
  rewrite E, skipn_app_length in Hk. cbn [skipn] in Hk.
  now rewrite startswith_app in Hk.
Qed.

Lemma no_occurrence_contains (sep s : str) :
  (forall p r, s <> p ++ sep ++ r) -> contains sep s = false.
Proof.
  intros H. destruct (contains sep s) eqn:E; [|reflexivity].
  apply contains_iff in E as (a & r & ->). now elim (H a r).
Qed.

(** The characters of a rendered [int] are digits and the minus sign. *)

Lemma string_of_uint_chars (d : Decimal.uint) :
  Forall is_int_char
         (map ord (list_ascii_of_string (NilEmpty.string_of_uint d))).
Proof.
  induction d; simpl; try constructor; try assumption;
    right; unfold ord; simpl; lia.
Qed.

Lemma str_of_int_chars (n : Z) : Forall is_int_char (str_of_int n).
Proof.
  unfold str_of_int, NilZero.string_of_int.
  destruct (Z.to_int n) as [d|d].
  - unfold NilZero.string_of_uint.
    destruct d; try apply string_of_uint_chars.
    constructor; [right; unfold ord; simpl; lia | constructor].
  - simpl. constructor; [now left|].
    unfold NilZero.string_of_uint.
    destruct d; try apply string_of_uint_chars.
    constructor; [right; unfold ord; simpl; lia | constructor].
Qed.

(** A run of characters that differ from the first one of the pattern
    holds no start of an occurrence. *)
Lemma contains_skip (f0 : codepoint) (frag d rest : str) :
  Forall (fun c => c <> f0) d ->
  contains (f0 :: frag) (d ++ rest) = contains (f0 :: frag) rest
  \/ (rest = [] /\ contains (f0 :: frag) (d ++ rest) = false).
Proof.
  intros Hd. induction Hd as [|c d Hc Hd IH].
  - now left.
  - cbn [app contains startswith].
    apply N.eqb_neq in Hc. rewrite N.eqb_sym in Hc. rewrite Hc. cbn [andb orb].
    exact IH.
Qed.

Lemma contains_skip_eq (f0 : codepoint) (frag d : str) (c0 : codepoint) (rest : str) :
  Forall (fun c => c <> f0) d ->
  contains (f0 :: frag) (d ++ c0 :: rest) = contains (f0 :: frag) (c0 :: rest).
Proof.
  intros Hd. destruct (contains_skip f0 frag d (c0 :: rest) Hd) as [H|[H _]];
    [exact H | discriminate].
Qed.

End Py_facts.

(* ================================================================== *)
(** * Facts about [json.loads]: the fuel is enough *)
(* ================================================================== *)

Module Json_facts.
Import Py Json Spec Py_facts.

Lemma skip_ws_length (s : str) :
  (List.length (skip_ws s) <= List.length s)%nat.
Proof.
  induction s as [|c s IH]; simpl; [lia|].
  destruct (is_ws c); simpl; lia.
Qed.

(** [scanstring] reads the closing quote at least, and never runs out. *)
Lemma scanstring_consumes (n : nat) : forall s acc,
  (List.length s <= n)%nat ->
  scanstring acc s <> Err OutOfFuel
  /\ forall x r, scanstring acc s = Ok (x, r) ->
                 (List.length r < List.length s)%nat.
Proof.
  induction n as [|n IH]; intros s acc Hn.
  - destruct s; [|simpl in Hn; lia]. split; [discriminate|]. intros x r [=].
  - destruct s as [|c s]; [split; [discriminate|]; intros x r [=]|].
    cbn [List.length] in Hn.
    assert (IHle : forall s' acc',
               (List.length s' <= List.length s)%nat ->
               scanstring acc' s' <> Err OutOfFuel
               /\ forall x r, scanstring acc' s' = Ok (x, r) ->
                              (List.length r < S (List.length s))%nat).
    { intros s' acc' Hs'. destruct (IH s' acc' ltac:(lia)) as [H1 H2].
      split; [exact H1|]. intros x r Hx. specialize (H2 x r Hx). lia. }
    cbn [scanstring List.length].
    destruct (c =? 34)%N.
    { split; [discriminate|]. intros x r [= <- <-]. lia. }
    destruct (c =? 92)%N.
    2:{ destruct (c <? 32)%N.
        - split; [discriminate|]. intros x r [=].
        - apply IHle. lia. }
    destruct s as [|e r1]; [split; [discriminate|]; intros x r [=]|].
    destruct (e =? 117)%N.
    2:{ destruct (simple_escape e).
        - apply IHle. simpl. lia.
        - split; [discriminate|]. intros x r [=]. }
    destruct r1 as [|h1 [|h2 [|h3 [|h4 r2]]]];
      try (split; [discriminate|]; intros x r [=]).
    destruct (hex4 h1 h2 h3 h4) as [uni|];
      [|split; [discriminate|]; intros x r [=]].
    destruct (is_high uni); [|apply IHle; simpl; lia].
    destruct r2 as [|c0 [|c1 [|g1 [|g2 [|g3 [|g4 r3]]]]]];
      try (apply IHle; simpl; lia).
    destruct (low_escape _) as [[lo rest]|]; apply IHle; simpl; lia.
Qed.

Lemma span_digits_length (s : str) :
  (List.length (snd (span_digits s)) <= List.length s)%nat.
Proof.
  induction s as [|c s IH]; simpl; [lia|].
  destruct (is_digit c); [|simpl; lia].
  destruct (span_digits s); simpl in *; lia.
Qed.

Lemma int_part_length (s : str) ip r :
  int_part s = Some (ip, r) -> (List.length r < List.length s)%nat.
Proof.
  unfold int_part. destruct s as [|c s]; [discriminate|].
  destruct (c =? 48)%N; [intros [= <- <-]; simpl; lia|].
  destruct (is_digit c); [|discriminate].
  pose proof (span_digits_length s) as H.
  destruct (span_digits s). intros [= <- <-]. simpl in *. lia.
Qed.

Lemma frac_part_length (s : str) :
  (List.length (snd (frac_part s)) <= List.length s)%nat.
Proof.
  unfold frac_part. destruct s as [|c s]; [simpl; lia|].
  destruct (c =? 46)%N; [|simpl; lia].
  pose proof (span_digits_length s) as H.
  destruct (span_digits s) as [[|d ds] r]; simpl in *; lia.
Qed.

Lemma exp_part_length (s : str) :
  (List.length (snd (exp_part s)) <= List.length s)%nat.
Proof.
  unfold exp_part. destruct s as [|c s]; [simpl; lia|].
  destruct ((c =? 101)%N || (c =? 69)%N); [|simpl; lia].
  destruct s as [|c' s''].
  - simpl. lia.
  - destruct ((c' =? 43)%N || (c' =? 45)%N).
    + pose proof (span_digits_length s'') as H.
      destruct (span_digits s'') as [[|d ds] r]; simpl in *; lia.
    + pose proof (span_digits_length (c' :: s'')) as H.
      destruct (span_digits (c' :: s'')) as [[|d ds] r]; simpl in *; lia.
Qed.

Lemma match_number_length (s : str) i f e r :
  match_number s = Some (i, f, e, r) -> (List.length r < List.length s)%nat.
Proof.
  unfold match_number.
  assert (H0 : forall s0, (List.length s0 <= List.length s)%nat ->
               forall sign : str,
               match int_part s0 with
               | None => None
               | Some (ip, s1) =>
                 let '(fp, s2) := frac_part s1 in
                 let '(ep, s3) := exp_part s2 in
                 Some (sign ++ ip, fp, ep, s3)
               end = Some (i, f, e, r) -> (List.length r < List.length s)%nat).
  { intros s0 Hs0 sign.
    destruct (int_part s0) as [[ip s1]|] eqn:Ei; [|discriminate].
    apply int_part_length in Ei.
    pose proof (frac_part_length s1) as Hf.
    destruct (frac_part s1) as [fp s2].
    pose proof (exp_part_length s2) as He.
    destruct (exp_part s2) as [ep s3]. simpl in *.
    intros [= _ _ _ <-]. lia. }
  destruct s as [|c s']; [exact (H0 [] (Nat.le_refl _) [])|].
  destruct (c =? 45)%N; cbv beta iota.
  - apply (H0 s' ltac:(simpl; lia) [c]).
  - apply (H0 (c :: s') (Nat.le_refl _) []).
Qed.

Lemma literal_length (l s : str) (k : nat) :
  startswith l s = true -> (0 < k <= List.length l)%nat ->
  (List.length (skipn k s) < List.length s)%nat.
Proof.
  intros H Hk. apply startswith_length in H.
  rewrite length_skipn. lia.
Qed.

Lemma parse_array_good scan n :
  good scan n ->
  forall fuel acc s,
    (List.length s < fuel)%nat -> (List.length s < n)%nat ->
    parse_array scan fuel acc s <> Err OutOfFuel
    /\ forall v r, parse_array scan fuel acc s = Ok (v, r) ->
                   (List.length r < List.length s)%nat.
Proof.
  intros Hscan. induction fuel as [|f IH]; intros acc s Hf Hn; [lia|].
  cbn [parse_array].
  destruct (Hscan s Hn) as [Hoof Hlen].
  destruct (scan s) as [[v s1]|e|l].
  2:{ split; [congruence|]. intros v r [=]. }
  2:{ split; [discriminate|]. intros v r [=]. }
  specialize (Hlen v s1 eq_refl).
  pose proof (skip_ws_length s1) as Hws.
  destruct (skip_ws s1) as [|c s2]; [split; [discriminate|]; intros ? ? [=]|].
  cbn [List.length] in Hws.
  destruct (c =? 93)%N.
  { split; [discriminate|]. intros v' r [= <- <-]. lia. }
  destruct (c =? 44)%N; [|split; [discriminate|]; intros ? ? [=]].
  pose proof (skip_ws_length s2) as Hws2.
  destruct (IH (v :: acc) (skip_ws s2) ltac:(lia) ltac:(lia)) as [H1 H2].
  split; [exact H1|]. intros v' r Hr. specialize (H2 v' r Hr). lia.
Qed.

Lemma parse_object_good scan n :
  good scan n ->
  forall fuel acc s,
    (List.length s < fuel)%nat -> (List.length s < n)%nat ->
    parse_object scan fuel acc s <> Err OutOfFuel
    /\ forall v r, parse_object scan fuel acc s = Ok (v, r) ->
                   (List.length r < List.length s)%nat.
Proof.
  intros Hscan. induction fuel as [|f IH]; intros acc s Hf Hn; [lia|].
  cbn [parse_object].
  destruct s as [|q s0]; [split; [discriminate|]; intros ? ? [=]|].
  cbn [List.length] in *.
  destruct (q =? 34)%N; [|split; [discriminate|]; intros ? ? [=]].
  destruct (scanstring_consumes (List.length s0) s0 [] (Nat.le_refl _))
    as [Hs1 Hs2].
  destruct (scanstring [] s0) as [[key s1]|e|l].
  2:{ split; [congruence|]. intros ? ? [=]. }
  2:{ split; [discriminate|]. intros ? ? [=]. }
  specialize (Hs2 key s1 eq_refl).
  pose proof (skip_ws_length s1) as Hws1.
  destruct (skip_ws s1) as [|c s2]; [split; [discriminate|]; intros ? ? [=]|].
  cbn [List.length] in Hws1.
  destruct (c =? 58)%N; [|split; [discriminate|]; intros ? ? [=]].
  pose proof (skip_ws_length s2) as Hws2.
  destruct (Hscan (skip_ws s2) ltac:(lia)) as [Hoof Hlen].
  destruct (scan (skip_ws s2)) as [[v s3]|e|l].
  2:{ split; [congruence|]. intros ? ? [=]. }
  2:{ split; [discriminate|]. intros ? ? [=]. }
  specialize (Hlen v s3 eq_refl).
  pose proof (skip_ws_length s3) as Hws3.
  destruct (skip_ws s3) as [|c' s4]; [split; [discriminate|]; intros ? ? [=]|].
  cbn [List.length] in Hws3.
  destruct (c' =? 125)%N.
  { split; [discriminate|]. intros v' r [= <- <-]. lia. }
  destruct (c' =? 44)%N; [|split; [discriminate|]; intros ? ? [=]].
  pose proof (skip_ws_length s4) as Hws4.
  destruct (IH (dict_set key v acc) (skip_ws s4) ltac:(lia) ltac:(lia))
    as [H1 H2].
  split; [exact H1|]. intros v' r Hr. specialize (H2 v' r Hr). lia.
Qed.

Lemma scan_once_good (n : nat) : forall depth, good (scan_once depth n) n.
Proof.
  induction n as [|f IH]; intros depth s Hs; [lia|].
  cbn [scan_once].
  destruct s as [|c r]; [split; [discriminate|]; intros ? ? [=]|].
  cbn [List.length] in Hs.
  destruct (c =? 34)%N.
  { destruct (scanstring_consumes (List.length r) r [] (Nat.le_refl _))
      as [H1 H2].
    destruct (scanstring [] r) as [[x r']|e|l].
    - specialize (H2 x r' eq_refl). split; [discriminate|].
      intros v r0 [= <- <-]. simpl. lia.
    - split; [congruence|]. intros ? ? [=].
    - split; [discriminate|]. intros ? ? [=]. }
  destruct (c =? 123)%N.
  { destruct depth as [|d]; [split; [discriminate|]; intros ? ? [=]|].
    pose proof (skip_ws_length r) as Hws.
    destruct (skip_ws r) as [|c' r'] eqn:E;
      [split; [discriminate|]; intros ? ? [=]|].
    cbn [List.length] in Hws.
    destruct (c' =? 125)%N.
    - split; [discriminate|]. intros v r0 [= <- <-]. simpl. lia.
    - destruct (parse_object_good (scan_once d f) f (IH d) f [] (c' :: r')
                  ltac:(simpl; lia) ltac:(simpl; lia)) as [H1 H2].
      split; [exact H1|]. intros v r0 Hr. specialize (H2 v r0 Hr).
      simpl in *. lia. }
  destruct (c =? 91)%N.
  { destruct depth as [|d]; [split; [discriminate|]; intros ? ? [=]|].
    pose proof (skip_ws_length r) as Hws.
    destruct (skip_ws r) as [|c' r'] eqn:E;
      [split; [discriminate|]; intros ? ? [=]|].
    cbn [List.length] in Hws.
    destruct (c' =? 93)%N.
    - split; [discriminate|]. intros v r0 [= <- <-]. simpl. lia.
    - destruct (parse_array_good (scan_once d f) f (IH d) f [] (c' :: r')
                  ltac:(simpl; lia) ltac:(simpl; lia)) as [H1 H2].
      split; [exact H1|]. intros v r0 Hr. specialize (H2 v r0 Hr).
      simpl in *. lia. }
  repeat match goal with
         | |- context [if startswith ?l (c :: r) then _ else _] =>
           destruct (startswith l (c :: r)) eqn:?;
             [split; [discriminate|]; intros v0 r0 Hv;
              match type of Hv with
              | Ok (_, skipn ?k _) = _ =>
                assert (r0 = skipn k (c :: r)) as -> by congruence;
                apply (literal_length l); [assumption | vm_compute; lia]
              end|]
         end.
  destruct (match_number (c :: r)) as [[[[i fr] e] r']|] eqn:E.
  - apply match_number_length in E.
    destruct (number i fr e); (split; [discriminate|]); [|intros ? ? [=]].
    intros ? ? [= <- <-]. exact E.
  - split; [discriminate|]. intros ? ? [=].
Qed.

(** [loads] gives its scanner enough fuel: the model's own error is never
    its result. *)
Lemma loads_fuel (depth : nat) (s : str) : loads depth s <> Err OutOfFuel.
Proof.
  unfold loads. destruct (startswith _ s); [discriminate|].
  pose proof (skip_ws_length s) as Hws.
  destruct (scan_once_good (S (List.length s)) depth (skip_ws s) ltac:(lia))
    as [H _].
  destruct (scan_once _ _ _) as [[v r]|e|l]; [|congruence|discriminate].
  destruct (skip_ws r); discriminate.
Qed.

End Json_facts.

(* ================================================================== *)
(** * The decoder reads every JSON text *)
(* ================================================================== *)

Module Grammar_facts.
Import Py Json Grammar Spec Py_facts Json_facts.

Ltac literals :=
  repeat match goal with
         | |- context [u ?s] =>
           let v := eval vm_compute in (u s) in change (u s) with v
         end.

(** Induction on a document, with the property known of the values an
    array or an object holds. *)
Lemma doc_induction (P : doc -> Prop) :
  P DNull -> (forall x, P (DBool x)) ->
  (forall m i f e, P (DNumber m i f e)) ->
  (forall l, P (DString l)) ->
  (forall w es, Forall (fun e => P (snd (fst e))) es -> P (DArray w es)) ->
  (forall w ms, Forall (fun m => P (snd (fst m))) ms -> P (DObject w ms)) ->
  forall d, P d.
Proof.
  intros HNull HBool HNumber HString HArray HObject.
  fix IH 1. intros [ | x | m i f e | l | w es | w ms].
  - exact HNull.
  - apply HBool.
  - apply HNumber.
  - apply HString.
  - apply HArray. revert es. fix IHl 1. intros [|[[a x] b] es].
    + constructor.
    + constructor; [apply IH | apply IHl].
  - apply HObject. revert ms. fix IHl 1. intros [|[[[[[a k] b] c] x] e] ms].
    + constructor.
    + constructor; [apply IH | apply IHl].
Qed.

(** ** White space *)

Lemma is_ws_ws (c : codepoint) : is_ws c = ws c.
Proof.
  unfold is_ws, ws. cbn [existsb].
  destruct (c =? 32)%N, (c =? 9)%N, (c =? 10)%N, (c =? 13)%N; reflexivity.
Qed.

Lemma skip_ws_blank_app (w s : str) :
  white w = true -> skip_ws (w ++ s) = skip_ws s.
Proof.
  induction w as [|c w IH]; [reflexivity|].
  cbn [white forallb app skip_ws]. intros H.
  apply andb_true_iff in H as [Hc Hw]. rewrite is_ws_ws, Hc. now apply IH.
Qed.

Lemma skip_ws_head (c : codepoint) (s : str) :
  ws c = false -> skip_ws (c :: s) = c :: s.
Proof. intros H. cbn [skip_ws]. now rewrite is_ws_ws, H. Qed.

Lemma skip_ws_all (w : str) : white w = true -> skip_ws w = [].
Proof.
  intros H. rewrite <- (app_nil_r w), skip_ws_blank_app by exact H.
  reflexivity.
Qed.

Lemma ws_cases (c : codepoint) :
  ws c = true -> c = 32%N \/ c = 9%N \/ c = 10%N \/ c = 13%N.
Proof.
  unfold ws. cbn [existsb].
  destruct (N.eqb_spec c 32); [auto|].
  destruct (N.eqb_spec c 9); [auto|].
  destruct (N.eqb_spec c 10); [auto|].
  destruct (N.eqb_spec c 13); [auto|discriminate].
Qed.

Lemma follows_blank (w : str) (c : codepoint) (s : str) :
  white w = true -> In c [44; 93; 125]%N -> follows (w ++ c :: s).
Proof.
  intros Hw Hc. destruct w as [|c0 w]; cbn [app follows].
  - cbn [In] in *. intuition.
  - cbn [white forallb] in Hw. apply andb_true_iff in Hw as [H0 _].
    apply ws_cases in H0. cbn [In]. intuition.
Qed.

Lemma follows_blank_end (w : str) : white w = true -> follows w.
Proof.
  destruct w as [|c0 w]; [exact (fun _ => I)|].
  cbn [white forallb follows]. intros Hw.
  apply andb_true_iff in Hw as [H0 _].
  apply ws_cases in H0. cbn [In]. intuition.
Qed.

(** ** Strings *)

Ltac by_cases c :=
  repeat match goal with
         | |- context [(?k =? c)%N] =>
           destruct (N.eqb_spec k c) as [<-|?]; [vm_compute|]
         end.

Lemma hex_sound (c : codepoint) (v : N) : hex c = Some v -> hex_val c = Some v.
Proof.
  unfold hex. literals. cbn [index].
  by_cases c; intros [= <-]; reflexivity.
Qed.

Lemma code_sound (h1 h2 h3 h4 : codepoint) (x : N) :
  code h1 h2 h3 h4 = Some x -> hex4 h1 h2 h3 h4 = Some x.
Proof.
  unfold code, hex4.
  destruct (hex h1) as [a|] eqn:E1; [|discriminate].
  destruct (hex h2) as [b|] eqn:E2; [|discriminate].
  destruct (hex h3) as [c|] eqn:E3; [|discriminate].
  destruct (hex h4) as [d|] eqn:E4; [|discriminate].
  rewrite (hex_sound _ _ E1), (hex_sound _ _ E2), (hex_sound _ _ E3),
    (hex_sound _ _ E4).
  intros [= <-]. f_equal. lia.
Qed.

Lemma escape_sound (e ch : codepoint) :
  escape e = Some ch -> simple_escape e = Some ch /\ (e =? 117)%N = false.
Proof.
  unfold escape, escapes. cbn [assoc].
  by_cases e; intros [= <-]; split; reflexivity.
Qed.

Lemma low_escape_head (c0 : codepoint) (s : str) :
  (c0 =? 92)%N = false -> low_escape (c0 :: s) = None.
Proof.
  intros H. unfold low_escape.
  destruct s as [|c1 [|g1 [|g2 [|g3 [|g4 r]]]]]; try reflexivity.
  now rewrite H.
Qed.

Lemma low_escape_second (c0 c1 : codepoint) (s : str) :
  (c1 =? 117)%N = false -> low_escape (c0 :: c1 :: s) = None.
Proof.
  intros H. unfold low_escape.
  destruct s as [|g1 [|g2 [|g3 [|g4 r]]]]; try reflexivity.
  now rewrite H, andb_false_r.
Qed.

(** After a high surrogate that no low surrogate escape follows, the
    scanner goes on with the surrogate alone. *)
Lemma scanstring_unicode (acc : str) (h1 h2 h3 h4 uni : codepoint) (r2 : str) :
  hex4 h1 h2 h3 h4 = Some uni ->
  is_high uni = false \/ low_escape r2 = None ->
  scanstring acc (92 :: 117 :: h1 :: h2 :: h3 :: h4 :: r2)%N
  = scanstring (uni :: acc) r2.
Proof.
  intros Hx H. cbn [scanstring]. change (92 =? 34)%N with false.
  change (92 =? 92)%N with true. change (117 =? 117)%N with true.
  cbv iota. rewrite Hx.
  destruct H as [-> | Hl]; [reflexivity|].
  destruct (is_high uni); [|reflexivity].
  destruct r2 as [|c0 [|c1 [|g1 [|g2 [|g3 [|g4 r3]]]]]]; try reflexivity.
  now rewrite Hl.
Qed.

Lemma scanstring_pair (acc : str) (h1 h2 h3 h4 g1 g2 g3 g4 hi lo : codepoint)
      (r3 : str) :
  hex4 h1 h2 h3 h4 = Some hi -> hex4 g1 g2 g3 g4 = Some lo ->
  is_high hi = true -> is_low lo = true ->
  scanstring acc (92 :: 117 :: h1 :: h2 :: h3 :: h4
                    :: 92 :: 117 :: g1 :: g2 :: g3 :: g4 :: r3)%N
  = scanstring (join_surrogates hi lo :: acc) r3.
Proof.
  intros Hh Hl Hhi Hlo. cbn [scanstring]. change (92 =? 34)%N with false.
  change (92 =? 92)%N with true. change (117 =? 117)%N with true.
  cbv iota. rewrite Hh, Hhi. unfold low_escape.
  change (92 =? 92)%N with true. change (117 =? 117)%N with true.
  cbn [andb]. now rewrite Hl, Hlo.
Qed.

Lemma chars_cons_alone (i : item) (l : list item) :
  match i, l with
  | Unicode _ _ _ _, Unicode _ _ _ _ as j :: _ =>
    high (item_char i) && low (item_char j) = false
  | _, _ => True
  end ->
  chars (i :: l) = item_char i :: chars l.
Proof.
  destruct i; try reflexivity.
  destruct l as [|[] l]; try reflexivity.
  cbn [chars]. now intros ->.
Qed.

Lemma scanstring_items (n : nat) : forall l,
  (List.length l <= n)%nat -> wf_items l = true ->
  forall acc rest,
    scanstring acc (items_text l ++ 34%N :: rest) = Ok (rev acc ++ chars l, rest).
Proof.
  induction n as [|n IH]; intros l Hn Hwf acc rest.
  - destruct l; [|cbn in Hn; lia].
    cbn. now rewrite app_nil_r.
  - destruct l as [|i l]; [cbn; now rewrite app_nil_r|].
    cbn [List.length] in Hn.
    cbn [wf_items forallb] in Hwf. apply andb_true_iff in Hwf as [Hi Hl].
    assert (Hstep : forall c,
               scanstring (c :: acc) (items_text l ++ 34%N :: rest)
               = Ok (rev acc ++ c :: chars l, rest)).
    { intros c. rewrite (IH l ltac:(lia) Hl). cbn [rev].
      now rewrite <- app_assoc. }
    destruct i as [c | e | h1 h2 h3 h4].
    + cbn [wf_item] in Hi.
      apply andb_true_iff in Hi as [Hi H92].
      apply andb_true_iff in Hi as [H32 H34].
      apply negb_true_iff in H92, H34. apply N.leb_le in H32.
      cbn [items_text flat_map item_text app scanstring].
      rewrite H34, H92.
      destruct (c <? 32)%N eqn:E; [apply N.ltb_lt in E; lia|].
      rewrite chars_cons_alone by exact I. apply Hstep.
    + cbn [wf_item] in Hi.
      destruct (escape e) as [ch|] eqn:He; [|discriminate].
      destruct (escape_sound e ch He) as [Hs Hu].
      cbn [items_text flat_map item_text app scanstring].
      change (92 =? 34)%N with false. change (92 =? 92)%N with true.
      cbv iota. rewrite Hu, Hs.
      rewrite chars_cons_alone by exact I. cbn [item_char]. rewrite He.
      apply Hstep.
    + cbn [wf_item] in Hi.
      destruct (code h1 h2 h3 h4) as [uni|] eqn:Hc; [|discriminate].
      pose proof (code_sound _ _ _ _ _ Hc) as Hx.
      cbn [items_text flat_map item_text app].
      destruct l as [|j l'].
      * rewrite (scanstring_unicode acc h1 h2 h3 h4 uni _ Hx)
          by (right; now apply low_escape_head).
        rewrite chars_cons_alone by exact I. cbn [item_char]. rewrite Hc.
        apply Hstep.
      * cbn [wf_items forallb] in Hl. apply andb_true_iff in Hl as [Hj Hl'].
        destruct j as [c | e | g1 g2 g3 g4].
        -- cbn [wf_item] in Hj.
           apply andb_true_iff in Hj as [_ H92]. apply negb_true_iff in H92.
           rewrite (scanstring_unicode acc h1 h2 h3 h4 uni _ Hx)
             by (right; now apply low_escape_head).
           rewrite chars_cons_alone by exact I. cbn [item_char]. rewrite Hc.
           apply Hstep.
        -- cbn [wf_item] in Hj.
           destruct (escape e) as [ch|] eqn:He; [|discriminate].
           destruct (escape_sound e ch He) as [_ Hu].
           rewrite (scanstring_unicode acc h1 h2 h3 h4 uni _ Hx)
             by (right; now apply low_escape_second).
           rewrite chars_cons_alone by exact I. cbn [item_char]. rewrite Hc.
           apply Hstep.
        -- cbn [wf_item] in Hj.
           destruct (code g1 g2 g3 g4) as [lo|] eqn:Hg; [|discriminate].
           pose proof (code_sound _ _ _ _ _ Hg) as Hy.
           destruct (high uni && low lo) eqn:Hp.
           ++ apply andb_true_iff in Hp as [Hhi Hlo].
              cbn [flat_map item_text app].
              rewrite (scanstring_pair acc h1 h2 h3 h4 g1 g2 g3 g4 uni lo _
                         Hx Hy Hhi Hlo).
              rewrite (IH l' ltac:(cbn in Hn; lia) Hl').
              cbn [chars item_char]. rewrite Hc, Hg, Hhi, Hlo. cbn [andb rev].
              rewrite <- app_assoc. cbn [app].
              replace (join_surrogates uni lo) with (supplementary uni lo)
                by (unfold supplementary, join_surrogates; lia).
              reflexivity.
           ++ rewrite (scanstring_unicode acc h1 h2 h3 h4 uni _ Hx).
              ** rewrite chars_cons_alone
                   by (cbn [item_char]; now rewrite Hc, Hg).
                 cbn [item_char]. rewrite Hc. apply Hstep.
              ** apply andb_false_iff in Hp as [Hhi | Hlo]; [now left|].
                 right. cbn [flat_map item_text app]. unfold low_escape.
                 change (92 =? 92)%N with true. change (117 =? 117)%N with true.
                 cbn [andb]. rewrite Hy.
                 change (is_low lo) with (low lo). now rewrite Hlo.
Qed.

(** ** Numbers *)

Lemma digit_range (c : codepoint) : digit c = true -> (48 <= c <= 57)%N.
Proof.
  unfold digit. literals. cbn [existsb]. intros H.
  repeat (apply orb_true_iff in H as [H|H]; [apply N.eqb_eq in H; lia|]).
  discriminate.
Qed.

Lemma digit_cases (c : codepoint) :
  digit c = true ->
  In c [48; 49; 50; 51; 52; 53; 54; 55; 56; 57]%N.
Proof. intros H. apply digit_range in H. cbn [In]. lia. Qed.

Lemma digit_is_digit (c : codepoint) : digit c = true -> is_digit c = true.
Proof.
  intros H. apply digit_range in H. unfold is_digit.
  apply andb_true_iff. split; apply N.leb_le; lia.
Qed.

Lemma digit_val_digit (c : codepoint) :
  digit c = true -> digit_val c = Some (Z.of_N (c - 48)).
Proof.
  intros H. unfold digit_val. apply digit_is_digit in H.
  unfold is_digit in H. now rewrite H.
Qed.

Lemma head_is_app (p : codepoint -> bool) (a b : str) :
  head_is p (a ++ b) = match a with [] => head_is p b | c :: _ => p c end.
Proof. destruct a; reflexivity. Qed.

Lemma follows_head (p : codepoint -> bool) (rest : str) :
  forallb p [32; 9; 10; 13; 44; 93; 125]%N = true ->
  follows rest -> head_is p rest = true.
Proof.
  intros Hp. destruct rest as [|c rest]; [reflexivity|].
  cbn [follows head_is]. rewrite forallb_forall in Hp. apply Hp.
Qed.

Lemma span_digits_app (ds rest : str) :
  digits ds = true -> head_is (fun c => negb (is_digit c)) rest = true ->
  span_digits (ds ++ rest) = (ds, rest).
Proof.
  intros Hd Hr. induction ds as [|c ds IH].
  - destruct rest as [|c rest]; [reflexivity|].
    cbn [head_is] in Hr. apply negb_true_iff in Hr.
    cbn [app span_digits]. now rewrite Hr.
  - cbn [digits forallb] in Hd. apply andb_true_iff in Hd as [Hc Hd].
    cbn [app span_digits]. rewrite (digit_is_digit c Hc), (IH Hd).
    reflexivity.
Qed.

Lemma int_part_app (i rest : str) :
  wf_integer i = true -> head_is (fun c => negb (is_digit c)) rest = true ->
  int_part (i ++ rest) = Some (i, rest).
Proof.
  intros Hi Hr. destruct i as [|c r]; [discriminate|].
  cbn [wf_integer] in Hi. apply andb_true_iff in Hi as [Hd Hz].
  cbn [digits forallb] in Hd. apply andb_true_iff in Hd as [Hc Hd].
  cbn [app int_part]. destruct (c =? 48)%N.
  - cbn [negb orb] in Hz. destruct r; [reflexivity|discriminate].
  - rewrite (digit_is_digit c Hc), (span_digits_app r rest Hd Hr).
    reflexivity.
Qed.

Lemma some_digits_inv (s : str) :
  some_digits s = true -> exists c r, s = c :: r /\ digits s = true.
Proof. destruct s as [|c r]; [discriminate|]. intros H. now exists c, r. Qed.

Lemma frac_part_app (f rest : str) :
  wf_frac f = true ->
  head_is (fun c => negb (is_digit c) && negb (c =? 46)%N) rest = true ->
  frac_part (f ++ rest) = (f, rest).
Proof.
  intros Hf Hr. destruct f as [|c ds].
  - destruct rest as [|c rest]; [reflexivity|].
    cbn [head_is] in Hr. apply andb_true_iff in Hr as [_ Hr].
    apply negb_true_iff in Hr. cbn [app frac_part]. now rewrite Hr.
  - cbn [wf_frac] in Hf. apply andb_true_iff in Hf as [Hc Hd].
    destruct (some_digits_inv ds Hd) as (d & r & -> & Hds).
    cbn [app frac_part]. rewrite Hc.
    change (d :: r ++ rest) with ((d :: r) ++ rest).
    rewrite span_digits_app; [reflexivity | exact Hds |].
    destruct rest as [|c0 rest]; [reflexivity|].
    cbn [head_is] in *. now apply andb_true_iff in Hr as [Hr _].
Qed.

Lemma exp_part_app (e rest : str) :
  wf_exp e = true ->
  head_is (fun c => negb (is_digit c) && negb ((c =? 101)%N || (c =? 69)%N))
          rest = true ->
  exp_part (e ++ rest) = (e, rest).
Proof.
  intros He Hr.
  assert (Hr' : head_is (fun c => negb (is_digit c)) rest = true).
  { destruct rest as [|c0 rest]; [reflexivity|].
    cbn [head_is] in *. now apply andb_true_iff in Hr as [Hr _]. }
  destruct e as [|c r].
  - destruct rest as [|c rest]; [reflexivity|].
    cbn [head_is] in Hr. apply andb_true_iff in Hr as [_ Hr].
    apply negb_true_iff in Hr. cbn [app exp_part]. now rewrite Hr.
  - cbn [wf_exp] in He. apply andb_true_iff in He as [Hc Hd].
    destruct r as [|s ds]; [discriminate|].
    cbn [app exp_part]. rewrite Hc.
    destruct ((s =? 43)%N || (s =? 45)%N).
    + destruct (some_digits_inv ds Hd) as (d & r & -> & Hds).
      change (d :: r ++ rest) with ((d :: r) ++ rest).
      rewrite span_digits_app by assumption. reflexivity.
    + destruct (some_digits_inv (s :: ds) Hd) as (d & r & Heq & Hds).
      change (s :: ds ++ rest) with ((s :: ds) ++ rest).
      rewrite span_digits_app by assumption. reflexivity.
Qed.

Lemma frac_head (f : str) :
  wf_frac f = true -> head_is (fun c => (c =? 46)%N) f = true.
Proof.
  destruct f as [|c ds]; [reflexivity|]. cbn [wf_frac head_is].
  intros H. now apply andb_true_iff in H as [H _].
Qed.

Lemma exp_head (e : str) :
  wf_exp e = true -> head_is (fun c => (c =? 101)%N || (c =? 69)%N) e = true.
Proof.
  destruct e as [|c r]; [reflexivity|]. cbn [wf_exp head_is].
  intros H. now apply andb_true_iff in H as [H _].
Qed.

Lemma head_is_impl (p q : codepoint -> bool) (s : str) :
  (forall c, p c = true -> q c = true) ->
  head_is p s = true -> head_is q s = true.
Proof. destruct s; [reflexivity|]. cbn [head_is]. auto. Qed.

Lemma dot_no_digit (c : codepoint) :
  (c =? 46)%N = true -> negb (is_digit c) = true.
Proof. intros H. apply N.eqb_eq in H. now subst c. Qed.

Lemma e_no_digit (c : codepoint) :
  (c =? 101)%N || (c =? 69)%N = true ->
  negb (is_digit c) && negb (c =? 46)%N = true.
Proof.
  intros H. apply orb_true_iff in H as [H|H]; apply N.eqb_eq in H; now subst c.
Qed.

(** The number at the head of a text is found whole when what follows is
    not part of a number. *)
Lemma match_number_text (m : bool) (i f e rest : str) :
  wf_integer i = true -> wf_frac f = true -> wf_exp e = true ->
  follows rest ->
  match_number (text (DNumber m i f e) ++ rest)
  = Some ((if m then [45%N] else []) ++ i, f, e, rest).
Proof.
  intros Hi Hf He Hr.
  assert (H3 : head_is (fun c => negb (is_digit c)
                                 && negb ((c =? 101)%N || (c =? 69)%N))
                       rest = true)
    by (now apply follows_head).
  assert (H2 : head_is (fun c => negb (is_digit c) && negb (c =? 46)%N)
                       (e ++ rest) = true).
  { rewrite head_is_app. pose proof (exp_head e He) as Hh.
    destruct e as [|c e']; [now apply follows_head|].
    cbn [head_is] in Hh. now apply e_no_digit. }
  assert (H1 : head_is (fun c => negb (is_digit c)) (f ++ e ++ rest) = true).
  { rewrite head_is_app. pose proof (frac_head f Hf) as Hh.
    destruct f as [|c f'].
    - eapply head_is_impl; [|exact H2]. cbv beta. intros c Hc.
      now apply andb_true_iff in Hc as [Hc _].
    - cbn [head_is] in Hh. now apply dot_no_digit. }
  assert (Hparts : int_part (i ++ f ++ e ++ rest) = Some (i, f ++ e ++ rest)
                   /\ frac_part (f ++ e ++ rest) = (f, e ++ rest)
                   /\ exp_part (e ++ rest) = (e, rest)).
  { split; [now apply int_part_app|].
    split; [now apply frac_part_app | now apply exp_part_app]. }
  destruct Hparts as (Hip & Hfp & Hep).
  cbn [text]. rewrite <- !app_assoc. unfold match_number.
  destruct m; cbn [app].
  - change (45 =? 45)%N with true. cbv iota. now rewrite Hip, Hfp, Hep.
  - destruct i as [|c r]; [discriminate|].
    cbn [wf_integer digits forallb] in Hi.
    apply andb_true_iff in Hi as [Hd _]. apply andb_true_iff in Hd as [Hc _].
    apply digit_range in Hc.
    cbn [app] in *.
    destruct (c =? 45)%N eqn:E; [apply N.eqb_eq in E; lia|].
    now rewrite Hip, Hfp, Hep.
Qed.

Lemma scan_digits_all (ds : str) :
  digits ds = true ->
  forall acc n,
    scan_digits acc n ds
    = Some (fold_left (fun a c => (10 * a + Z.of_N (c - 48))%Z) ds acc,
            (n + N.of_nat (List.length ds))%N, []).
Proof.
  induction ds as [|c ds IH]; intros Hd acc n.
  - cbn. now rewrite N.add_0_r.
  - cbn [digits forallb] in Hd. apply andb_true_iff in Hd as [Hc Hd].
    cbn [scan_digits fold_left List.length]. rewrite (digit_val_digit c Hc).
    rewrite (IH Hd). do 3 f_equal. lia.
Qed.

(** [int] on the integer of a number. *)
Lemma int_of_ascii_literal (m : bool) (i : str) :
  wf_integer i = true ->
  int_of_ascii ((if m then [45%N] else []) ++ i)
  = if (N.of_nat (List.length i) <=? int_max_str_digits)%N
    then Some (if m then (- decimal i)%Z else decimal i)
    else None.
Proof.
  intros Hi. destruct i as [|c r]; [discriminate|].
  cbn [wf_integer digits forallb] in Hi.
  apply andb_true_iff in Hi as [Hd _]. apply andb_true_iff in Hd as [Hc Hd].
  pose proof (digit_range c Hc) as Hrange.
  assert (Hv : decimal (c :: r)
               = fold_left (fun a c => (10 * a + Z.of_N (c - 48))%Z) r
                           (Z.of_N (c - 48))).
  { unfold decimal. cbn [fold_left]. f_equal. }
  assert (Hn : (1 + N.of_nat (List.length r))%N = N.of_nat (List.length (c :: r)))
    by (cbn [List.length]; lia).
  unfold int_of_ascii. destruct m; cbn [app skip_space].
  - change (ascii_isspace 45%N) with false. cbv iota.
    change (45 =? 43)%N with false. change (45 =? 45)%N with true. cbv iota.
    rewrite (digit_val_digit c Hc), (scan_digits_all r Hd), Hn, Hv.
    reflexivity.
  - assert (Hsp : ascii_isspace c = false).
    { unfold ascii_isspace. apply orb_false_iff. split.
      - apply andb_false_iff. right. apply N.leb_gt. lia.
      - apply N.eqb_neq. lia. }
    rewrite Hsp. cbv iota.
    destruct (c =? 43)%N eqn:E1; [apply N.eqb_eq in E1; lia|].
    destruct (c =? 45)%N eqn:E2; [apply N.eqb_eq in E2; lia|].
    rewrite (digit_val_digit c Hc), (scan_digits_all r Hd), Hn, Hv.
    reflexivity.
Qed.

Lemma number_meaning (m : bool) (i f e : str) :
  wf (DNumber m i f e) = true -> fits 0 (DNumber m i f e) = true ->
  number ((if m then [45%N] else []) ++ i) f e = Some (meaning (DNumber m i f e)).
Proof.
  cbn [wf]. intros Hw Hfit.
  apply andb_true_iff in Hw as [Hw _]. apply andb_true_iff in Hw as [Hi _].
  unfold number. destruct f as [|c f].
  - destruct e as [|c e].
    + cbn [fits] in Hfit. rewrite (int_of_ascii_literal m i Hi), Hfit.
      reflexivity.
    + cbn [meaning]. now rewrite <- app_assoc.
  - cbn [meaning]. now rewrite <- app_assoc.
Qed.

Lemma fits_number (depth : nat) (m : bool) (i f e : str) :
  fits depth (DNumber m i f e) = fits 0 (DNumber m i f e).
Proof. reflexivity. Qed.

(** ** Values *)

Lemma text_head (d : doc) :
  wf d = true ->
  exists c t, text d = c :: t /\ ws c = false
              /\ (c =? 93)%N = false /\ (c =? 125)%N = false
              /\ (c =? 65279)%N = false.
Proof.
  destruct d as [ | [|] | m i f e | l | w es | w ms]; intros Hw;
    try (eexists _, _; repeat split; reflexivity).
  destruct m; [eexists _, _; repeat split; reflexivity|].
  cbn [wf] in Hw. apply andb_true_iff in Hw as [Hw _].
  apply andb_true_iff in Hw as [Hi _].
  destruct i as [|c r]; [discriminate|].
  cbn [wf_integer digits forallb] in Hi.
  apply andb_true_iff in Hi as [Hd _]. apply andb_true_iff in Hd as [Hc _].
  exists c, (r ++ f ++ e). split; [reflexivity|].
  apply digit_cases in Hc. cbn [In] in Hc.
  repeat (destruct Hc as [<- | Hc]; [repeat split|]). contradiction.
Qed.

Lemma skip_ws_text (w : str) (d : doc) (s : str) :
  white w = true -> wf d = true -> skip_ws (w ++ text d ++ s) = text d ++ s.
Proof.
  intros Hw Hd. rewrite skip_ws_blank_app by exact Hw.
  destruct (text_head d Hd) as (c & t & -> & Hc & _).
  cbn [app]. now apply skip_ws_head.
Qed.

Lemma text_length (d : doc) : wf d = true -> (1 <= List.length (text d))%nat.
Proof.
  intros Hd. destruct (text_head d Hd) as (c & t & -> & _). cbn. lia.
Qed.

Lemma commas_length_in (t : str) (l : list str) :
  In t l -> (List.length t <= List.length (commas l))%nat.
Proof.
  induction l as [|x l IH]; [contradiction|].
  intros [-> | Hin].
  - destruct l; cbn [commas]; [lia|]. rewrite length_app. lia.
  - destruct l as [|y l]; [contradiction|].
    specialize (IH Hin). change (commas (x :: y :: l))
      with (x ++ 44%N :: commas (y :: l)).
    rewrite length_app. cbn [List.length]. lia.
Qed.

Lemma commas_length_ge (l : list str) :
  Forall (fun t => (1 <= List.length t)%nat) l ->
  (List.length l <= List.length (commas l))%nat.
Proof.
  induction 1 as [|x l Hx Hl IH]; [cbn; lia|].
  destruct l as [|y l]; [cbn in *; lia|].
  change (commas (x :: y :: l)) with (x ++ 44%N :: commas (y :: l)).
  rewrite length_app. cbn [List.length] in *. lia.
Qed.

Ltac norm_app := cbn [app]; repeat (rewrite <- app_assoc; cbn [app]).

(** The loop of an array, on elements the scanner reads. *)
Lemma parse_array_elements (scan : str -> res (value * str)) :
  forall es e fuel acc rest,
    (List.length es < fuel)%nat ->
    Forall (fun e => white (fst (fst e)) = true /\ white (snd e) = true
                     /\ wf (snd (fst e)) = true /\ reads scan (snd (fst e)))
           (e :: es) ->
    parse_array scan fuel acc
                (skip_ws (commas (map element_text (e :: es)) ++ 93%N :: rest))
    = Ok (JList (rev acc ++ map element_meaning (e :: es)), rest).
Proof.
  induction es as [|e2 es IH]; intros [[a x] b] fuel acc rest Hfuel Hok;
    (destruct fuel as [|fuel]; [cbn in Hfuel; lia|]);
    apply Forall_cons_iff in Hok as [(Ha & Hb & Hw & Hr) Hok];
    cbn [fst snd] in Ha, Hb, Hw, Hr.
  - cbn [map commas element_text]. norm_app.
    rewrite skip_ws_text by assumption.
    cbn [parse_array].
    rewrite Hr by (apply follows_blank; [exact Hb | cbn; auto]).
    rewrite skip_ws_blank_app by exact Hb.
    rewrite skip_ws_head by reflexivity.
    change (93 =? 93)%N with true. cbv iota.
    cbn [rev element_meaning]. reflexivity.
  - change (commas (map element_text ((a, x, b) :: e2 :: es)))
      with (element_text (a, x, b) ++ 44%N :: commas (map element_text (e2 :: es))).
    cbn [element_text]. norm_app.
    rewrite skip_ws_text by assumption.
    cbn [parse_array].
    rewrite Hr by (apply follows_blank; [exact Hb | cbn; auto]).
    rewrite skip_ws_blank_app by exact Hb.
    rewrite skip_ws_head by reflexivity.
    change (44 =? 93)%N with false. change (44 =? 44)%N with true. cbv iota.
    rewrite (IH e2 fuel (meaning x :: acc) rest);
      [|cbn in Hfuel; lia|exact Hok].
    cbn [rev map element_meaning]. now rewrite <- app_assoc.
Qed.

(** The loop of an object, on members whose values the scanner reads. *)
Lemma parse_object_members (scan : str -> res (value * str)) :
  forall ms m fuel acc rest,
    (List.length ms < fuel)%nat ->
    Forall (fun m =>
              let '(a, k, b, c, x, e) := m in
              white a = true /\ wf_items k = true /\ white b = true
              /\ white c = true /\ wf x = true /\ white e = true
              /\ reads scan x) (m :: ms) ->
    parse_object scan fuel acc
                 (skip_ws (commas (map member_text (m :: ms)) ++ 125%N :: rest))
    = Ok (JDict (fold_left (fun acc kv => dict_set (fst kv) (snd kv) acc)
                           (map member_binding (m :: ms)) acc), rest).
Proof.
  induction ms as [|m2 ms IH]; intros [[[[[a k] b] c] x] e] fuel acc rest Hfuel Hok;
    (destruct fuel as [|fuel]; [cbn in Hfuel; lia|]);
    apply Forall_cons_iff in Hok as [(Ha & Hk & Hb & Hc & Hw & He & Hr) Hok].
  - cbn [map commas member_text]. norm_app.
    rewrite skip_ws_blank_app by exact Ha.
    rewrite skip_ws_head by reflexivity.
    cbn [parse_object]. change (34 =? 34)%N with true. cbv iota.
    rewrite (scanstring_items (List.length k) k (Nat.le_refl _) Hk).
    cbn [rev app].
    rewrite skip_ws_blank_app by exact Hb.
    rewrite skip_ws_head by reflexivity.
    change (58 =? 58)%N with true. cbv iota.
    rewrite skip_ws_text by assumption.
    rewrite Hr by (apply follows_blank; [exact He | cbn; auto]).
    rewrite skip_ws_blank_app by exact He.
    rewrite skip_ws_head by reflexivity.
    change (125 =? 125)%N with true. cbv iota. reflexivity.
  - change (commas (map member_text ((a, k, b, c, x, e) :: m2 :: ms)))
      with (member_text (a, k, b, c, x, e)
              ++ 44%N :: commas (map member_text (m2 :: ms))).
    cbn [member_text]. norm_app.
    rewrite skip_ws_blank_app by exact Ha.
    rewrite skip_ws_head by reflexivity.
    cbn [parse_object]. change (34 =? 34)%N with true. cbv iota.
    rewrite (scanstring_items (List.length k) k (Nat.le_refl _) Hk).
    cbn [rev app].
    rewrite skip_ws_blank_app by exact Hb.
    rewrite skip_ws_head by reflexivity.
    change (58 =? 58)%N with true. cbv iota.
    rewrite skip_ws_text by assumption.
    rewrite Hr by (apply follows_blank; [exact He | cbn; auto]).
    rewrite skip_ws_blank_app by exact He.
    rewrite skip_ws_head by reflexivity.
    change (44 =? 125)%N with false. change (44 =? 44)%N with true. cbv iota.
    rewrite (IH m2 fuel (dict_set (chars k) (meaning x) acc) rest);
      [reflexivity | cbn in Hfuel; lia | exact Hok].
Qed.

Lemma scan_once_dispatch (depth f : nat) (m : bool) (c : codepoint) (r : str) :
  digit c = true ->
  scan_once depth (S f) ((if m then [45%N] else []) ++ c :: r)
  = match match_number ((if m then [45%N] else []) ++ c :: r) with
    | Some (i, fr, e, r') =>
      match number i fr e with
      | Some v => Ok (v, r')
      | None => Exceeded IntMaxStrDigits
      end
    | None => Err ExpectingValue
    end.
Proof.
  intros Hc. apply digit_cases in Hc. cbn [In] in Hc.
  repeat (destruct Hc as [<- | Hc]; [destruct m; reflexivity|]).
  contradiction.
Qed.

Lemma scan_once_number (depth f : nat) (m : bool) (i fr e : str) :
  wf (DNumber m i fr e) = true -> fits depth (DNumber m i fr e) = true ->
  reads (scan_once depth (S f)) (DNumber m i fr e).
Proof.
  intros Hw Hfit rest Hr.
  pose proof Hw as Hw'. cbn [wf] in Hw'.
  apply andb_true_iff in Hw' as [Hw' He]. apply andb_true_iff in Hw' as [Hi Hf].
  assert (Htxt : exists c r, digit c = true
                             /\ text (DNumber m i fr e) ++ rest
                                = (if m then [45%N] else []) ++ c :: r).
  { destruct i as [|c r]; [discriminate|].
    cbn [wf_integer digits forallb] in Hi.
    apply andb_true_iff in Hi as [Hd _]. apply andb_true_iff in Hd as [Hc _].
    exists c, (r ++ fr ++ e ++ rest). split; [exact Hc|].
    cbn [text]. now rewrite <- !app_assoc. }
  destruct Htxt as (c & r & Hc & Htxt).
  rewrite Htxt, (scan_once_dispatch depth f m c r Hc), <- Htxt.
  rewrite (match_number_text m i fr e rest Hi Hf He Hr).
  now rewrite (number_meaning m i fr e Hw Hfit).
Qed.

Lemma skip_ws_elements_head (e : str * doc * str) (es : list (str * doc * str))
      (rest : str) :
  white (fst (fst e)) = true -> wf (snd (fst e)) = true ->
  exists c r,
    skip_ws (commas (map element_text (e :: es)) ++ 93%N :: rest) = c :: r
    /\ (c =? 93)%N = false.
Proof.
  destruct e as [[a x] b]. cbn [fst snd]. intros Ha Hx.
  destruct (text_head x Hx) as (c & t & Ht & _ & H93 & _).
  destruct es as [|e2 es].
  - cbn [map commas element_text]. norm_app.
    rewrite skip_ws_text by assumption. rewrite Ht. now eexists _, _.
  - change (commas (map element_text ((a, x, b) :: e2 :: es)))
      with (element_text (a, x, b) ++ 44%N :: commas (map element_text (e2 :: es))).
    cbn [element_text]. norm_app.
    rewrite skip_ws_text by assumption. rewrite Ht. now eexists _, _.
Qed.

Lemma skip_ws_members_head
      (m : str * list item * str * str * doc * str)
      (ms : list (str * list item * str * str * doc * str)) (rest : str) :
  white (fst (fst (fst (fst (fst m))))) = true ->
  exists r,
    skip_ws (commas (map member_text (m :: ms)) ++ 125%N :: rest) = 34%N :: r.
Proof.
  destruct m as [[[[[a k] b] c] x] e]. cbn [fst snd]. intros Ha.
  destruct ms as [|m2 ms].
  - cbn [map commas member_text]. norm_app.
    rewrite skip_ws_blank_app by exact Ha.
    rewrite skip_ws_head by reflexivity. now eexists.
  - change (commas (map member_text ((a, k, b, c, x, e) :: m2 :: ms)))
      with (member_text (a, k, b, c, x, e)
              ++ 44%N :: commas (map member_text (m2 :: ms))).
    cbn [member_text]. norm_app.
    rewrite skip_ws_blank_app by exact Ha.
    rewrite skip_ws_head by reflexivity. now eexists.
Qed.

Lemma element_text_length (a : str) (x : doc) (b : str) :
  (List.length (text x) <= List.length (element_text (a, x, b)))%nat.
Proof. cbn [element_text]. rewrite !length_app. lia. Qed.

Lemma member_text_length (a : str) (k : list item) (b c : str) (x : doc)
      (e : str) :
  (List.length (text x) < List.length (member_text (a, k, b, c, x, e)))%nat.
Proof.
  cbn [member_text]. rewrite length_app. cbn [List.length].
  rewrite !length_app. cbn [List.length]. rewrite !length_app. lia.
Qed.

(** The scanner reads every document the interpreter has room for. *)
Theorem scan_once_text (d : doc) :
  wf d = true ->
  forall depth fuel,
    fits depth d = true -> (List.length (text d) < fuel)%nat ->
    reads (scan_once depth fuel) d.
Proof.
  induction d as [ | x | m i f e | l | w es IH | w ms IH] using doc_induction;
    intros Hw depth fuel Hfit Hfuel;
    (destruct fuel as [|fuel]; [cbn in Hfuel; lia|]).
  - intros rest Hr. reflexivity.
  - intros rest Hr. destruct x; reflexivity.
  - now apply scan_once_number.
  - intros rest Hr. cbn [text]. norm_app. cbn [scan_once].
    change (34 =? 34)%N with true. cbv iota.
    cbn [wf] in Hw.
    now rewrite (scanstring_items (List.length l) l (Nat.le_refl _) Hw).
  - intros rest Hr. cbn [wf] in Hw. apply andb_true_iff in Hw as [Hw Hes].
    cbn [fits] in Hfit. destruct depth as [|n]; [discriminate|].
    change (text (DArray w es))
      with (91%N :: match es with
                    | [] => w
                    | _ :: _ => commas (map element_text es)
                    end ++ [93%N]) in *.
    cbn [List.length] in Hfuel. rewrite length_app in Hfuel.
    cbn [List.length] in Hfuel.
    norm_app. cbn [scan_once].
    change (91 =? 34)%N with false. change (91 =? 123)%N with false.
    change (91 =? 91)%N with true. cbv iota.
    destruct es as [|e1 es].
    + rewrite skip_ws_blank_app by exact Hw.
      rewrite skip_ws_head by reflexivity. reflexivity.
    + rewrite forallb_forall in Hes, Hfit. rewrite Forall_forall in IH.
      assert (Hall : Forall
                (fun e => white (fst (fst e)) = true /\ white (snd e) = true
                          /\ wf (snd (fst e)) = true
                          /\ reads (scan_once n fuel) (snd (fst e)))
                (e1 :: es)).
      { apply Forall_forall. intros [[a x] b] Hin.
        specialize (Hes _ Hin). specialize (Hfit _ Hin). cbv beta iota in Hes, Hfit.
        apply andb_true_iff in Hes as [Hes Hb].
        apply andb_true_iff in Hes as [Ha Hx].
        cbn [fst snd]. repeat split; try assumption.
        apply (IH _ Hin Hx n fuel Hfit).
        pose proof (commas_length_in (element_text (a, x, b))
                      (map element_text (e1 :: es)) (in_map _ _ _ Hin)) as H1.
        pose proof (element_text_length a x b) as H2. cbn [fst snd]. lia. }
      assert (Hlen : (List.length es < fuel)%nat).
      { assert (H1 : (List.length (map element_text (e1 :: es))
                      <= List.length (commas (map element_text (e1 :: es))))%nat).
        { apply commas_length_ge, Forall_forall. intros t Ht.
          apply in_map_iff in Ht as ([[a x] b] & <- & Hin).
          specialize (Hes _ Hin). cbv beta iota in Hes.
          apply andb_true_iff in Hes as [Hes _].
          apply andb_true_iff in Hes as [_ Hx].
          pose proof (text_length x Hx). pose proof (element_text_length a x b).
          lia. }
        rewrite length_map in H1. cbn [List.length] in H1. lia. }
      pose proof (parse_array_elements (scan_once n fuel) es e1 fuel [] rest
                    Hlen Hall) as Hloop.
      destruct (skip_ws_elements_head e1 es rest) as (c & r & Hs & Hc).
      { apply Forall_inv in Hall. tauto. }
      { apply Forall_inv in Hall. tauto. }
      unfold codepoint in *. rewrite Hs in Hloop. rewrite Hs, Hc.
      exact Hloop.
  - intros rest Hr. cbn [wf] in Hw. apply andb_true_iff in Hw as [Hw Hms].
    cbn [fits] in Hfit. destruct depth as [|n]; [discriminate|].
    change (text (DObject w ms))
      with (123%N :: match ms with
                     | [] => w
                     | _ :: _ => commas (map member_text ms)
                     end ++ [125%N]) in *.
    cbn [List.length] in Hfuel. rewrite length_app in Hfuel.
    cbn [List.length] in Hfuel.
    norm_app. cbn [scan_once].
    change (123 =? 34)%N with false. change (123 =? 123)%N with true.
    cbv iota.
    destruct ms as [|m1 ms].
    + rewrite skip_ws_blank_app by exact Hw.
      rewrite skip_ws_head by reflexivity. reflexivity.
    + rewrite forallb_forall in Hms, Hfit. rewrite Forall_forall in IH.
      assert (Hall : Forall
                (fun m =>
                   let '(a, k, b, c, x, e) := m in
                   white a = true /\ wf_items k = true /\ white b = true
                   /\ white c = true /\ wf x = true /\ white e = true
                   /\ reads (scan_once n fuel) x)
                (m1 :: ms)).
      { apply Forall_forall. intros [[[[[a k] b] c] x] e] Hin.
        specialize (Hms _ Hin). specialize (Hfit _ Hin).
        cbv beta iota in Hms, Hfit.
        repeat match type of Hms with
               | _ && _ = true =>
                 let H := fresh "Hp" in apply andb_true_iff in Hms as [Hms H]
               end.
        repeat split; try assumption.
        apply (IH _ Hin ltac:(assumption) n fuel Hfit).
        pose proof (commas_length_in (member_text (a, k, b, c, x, e))
                      (map member_text (m1 :: ms)) (in_map _ _ _ Hin)) as H1.
        pose proof (member_text_length a k b c x e) as H2. cbn [fst snd]. lia. }
      assert (Hlen : (List.length ms < fuel)%nat).
      { assert (H1 : (List.length (map member_text (m1 :: ms))
                      <= List.length (commas (map member_text (m1 :: ms))))%nat).
        { apply commas_length_ge, Forall_forall. intros t Ht.
          apply in_map_iff in Ht as ([[[[[a k] b] c] x] e] & <- & Hin).
          pose proof (member_text_length a k b c x e). lia. }
        rewrite length_map in H1. cbn [List.length] in H1. lia. }
      pose proof (parse_object_members (scan_once n fuel) ms m1 fuel [] rest
                    Hlen Hall) as Hloop.
      destruct (skip_ws_members_head m1 ms rest) as (r & Hs).
      { apply Forall_inv in Hall.
        destruct m1 as [[[[[a k] b] c] x] e]. cbn [fst]. tauto. }
      unfold codepoint in *. rewrite Hs in Hloop. rewrite Hs.
      change (34 =? 125)%N with false. cbv iota.
      exact Hloop.
Qed.

(** [json.loads] on a JSON text, white space around it allowed, returns
    what the text stands for, when the interpreter has room for it. *)
Theorem loads_text (d : doc) (w1 w2 : str) (depth : nat) :
  wf d = true -> fits depth d = true ->
  white w1 = true -> white w2 = true ->
  loads depth (w1 ++ text d ++ w2) = Ok (meaning d).
Proof.
  intros Hd Hfit H1 H2. unfold loads.
  assert (Hbom : startswith [65279%N] (w1 ++ text d ++ w2) = false).
  { destruct (text_head d Hd) as (c & t & -> & _ & _ & _ & Hc).
    destruct w1 as [|c1 w1]; cbn [app startswith].
    - rewrite N.eqb_sym, Hc. reflexivity.
    - cbn [white forallb] in H1. apply andb_true_iff in H1 as [H1 _].
      apply ws_cases in H1.
      destruct H1 as [-> | [-> | [-> | ->]]]; reflexivity. }
  rewrite Hbom, skip_ws_text by assumption.
  rewrite (scan_once_text d Hd depth _ Hfit).
  - now rewrite skip_ws_all.
  - rewrite !length_app. lia.
  - now apply follows_blank_end.
Qed.

End Grammar_facts.

(* ================================================================== *)
(** * Facts about the handler and its helpers *)
(* ================================================================== *)

Module Main_facts.
Import Py Json Models Hashlib Config Main Spec Py_facts.
Local Open Scope Z_scope.

Lemma truthy_some (s : str) : s <> [] -> truthy (Some s) = true.
Proof. destruct s; [congruence | reflexivity]. Qed.

(** ** The extractor *)

Lemma extract_chat_id_eq (L : Libs) (o : option str) :
  extract_chat_id L o =
  if truthy o then
    if contains marker (the o) then
      match int (unicode L) (last_item (split marker (the o))) with
      | Some n => (Return (Some n), [Log INFO ExtractedChatId])
      | None => (Return None, [Log ERROR ChatIdParseFailed])
      end
    else (Return None, [])
  else (Return None, []).
Proof.
  unfold extract_chat_id.
  destruct (truthy o); [|reflexivity].
  destruct (contains marker (the o)); [|reflexivity].
  destruct (int _ _); reflexivity.
Qed.

(** [split] on the marker, and the text after its last occurrence. *)
Lemma split_marker_last (p r : str) :
  last_occurrence marker p r ->
  last_item (split marker (p ++ marker ++ r)) = r.
Proof.
  exact (split_last_occurrence (u "user_id:") marker_not_empty
                               marker_unbordered p r).
Qed.

Lemma last_occurrence_marker (p r : str) :
  contains marker (skipn 1 (marker ++ r)) = false ->
  last_occurrence marker p r.
Proof. exact (last_occurrence_intro marker p r). Qed.

Lemma extract_chat_id_total (L : Libs) (o : option str) :
  exists c t, extract_chat_id L o = (Return c, t) /\ notifier_invoked t = false.
Proof.
  rewrite extract_chat_id_eq.
  destruct (truthy o); [|eexists _, _; split; reflexivity].
  destruct (contains _ _); [|eexists _, _; split; reflexivity].
  destruct (int _ _); eexists _, _; split; reflexivity.
Qed.

(** ** The parser *)

Lemma parse_webhook_eq (L : Libs) (raw : bytes) :
  parse_webhook L raw =
  match decode raw with
  | None =>
    (Raise (HTTPException 400 (u "Invalid payload structure: "
                                 ++ exn_str L UnicodeDecodeError)),
     [Log ERROR ValidationFailed])
  | Some text =>
    match loads (recursion_limit L) text with
    | Err e =>
      (Raise (HTTPException 400 (u "Invalid JSON payload")),
       [Log ERROR JsonDecodeFailed])
    | Exceeded l =>
      (Raise (HTTPException 400 (u "Invalid payload structure: "
                                   ++ exn_str L (limit_error l))),
       [Log ERROR ValidationFailed])
    | Ok v =>
      match fst (new_CryptoPayWebhook L v) with
      | Return w =>
        if forallb encodable (str_fields w)
        then (Return w, [Log INFO ParsedWebhook])
        else
          (Raise (HTTPException 400 (u "Invalid payload structure: "
                                       ++ exn_str L PydanticSerializationError)),
           [Log ERROR ValidationFailed])
      | Raise e =>
        (Raise (HTTPException 400 (u "Invalid payload structure: "
                                     ++ exn_str L e)),
         [Log ERROR ValidationFailed])
      end
    end
  end.
Proof.
  unfold parse_webhook, bytes_decode, json_loads, new_CryptoPayWebhook,
    model_dump_json.
  destruct (decode raw) as [text|]; [|reflexivity].
  unfold bind at 1, ret at 1. cbv beta iota.
  destruct (loads (recursion_limit L) text) as [v|e|l];
    [|reflexivity|destruct l; reflexivity].
  unfold bind at 1, ret at 1. cbv beta iota.
  destruct v; try reflexivity.
  destruct (validate_CryptoPayWebhook L members) as [errs|w]; [reflexivity|].
  cbn [fst ret]. unfold bind, ret, raise, log, try_except.
  destruct (forallb encodable (str_fields w)); reflexivity.
Qed.

Lemma parse_webhook_cases (L : Libs) (raw : bytes) :
  (exists w, parse_webhook L raw = (Return w, [Log INFO ParsedWebhook]))
  \/ (exists d t, parse_webhook L raw = (Raise (HTTPException 400 d), t)
                  /\ notifier_invoked t = false).
Proof.
  rewrite parse_webhook_eq.
  destruct (decode raw) as [text|];
    [|right; eexists _, _; split; reflexivity].
  destruct (loads (recursion_limit L) text) as [v|e|l];
    [|right; eexists _, _; split; reflexivity ..].
  destruct (fst (new_CryptoPayWebhook L v)) as [w|e];
    [|right; eexists _, _; split; reflexivity].
  destruct (forallb encodable (str_fields w));
    [left; eexists; reflexivity | right; eexists _, _; split; reflexivity].
Qed.

Lemma parse_webhook_decodes (L : Libs) (raw : bytes) w :
  fst (parse_webhook L raw) = Return w ->
  (exists text, decode raw = Some text)
  /\ parse_webhook L raw = (Return w, [Log INFO ParsedWebhook]).
Proof.
  rewrite parse_webhook_eq.
  destruct (decode raw) as [text|]; [|discriminate].
  destruct (loads (recursion_limit L) text) as [v|e|l]; [|discriminate ..].
  destruct (fst (new_CryptoPayWebhook L v)) as [w'|e]; [|discriminate].
  destruct (forallb encodable (str_fields w')); [|discriminate].
  simpl. intros [= ->]. split; [now exists text | reflexivity].
Qed.

(** ** The notifier *)

Lemma send_telegram_message_eq (cfg : module) (net : network) token chat text :
  lookup "TELEGRAM_BOT_TOKEN" cfg = Some token ->
  send_telegram_message cfg net chat text =
  let url := send_message_url token in
  if client_or_server_error (net url chat text)
  then (Return false,
        [Post url chat text (u "HTML");
         Log ERROR MessageFailed; Log ERROR MessageFailedContent])
  else (Return true, [Post url chat text (u "HTML"); Log INFO MessageSent]).
Proof.
  intros Htok.
  unfold send_telegram_message, getattr, requests_post, raise_for_status,
    send_message_url.
  rewrite Htok. cbn -[u app].
  destruct (net _ chat text) as [code|]; cbn -[u app]; [|reflexivity].
  destruct ((400 <=? code) && (code <? 600)); reflexivity.
Qed.

Lemma send_telegram_message_unbound (cfg : module) (net : network) chat text :
  lookup "TELEGRAM_BOT_TOKEN" cfg = None ->
  send_telegram_message cfg net chat text =
  (Raise (AttributeError "TELEGRAM_BOT_TOKEN"), []).
Proof.
  intros Htok. unfold send_telegram_message, getattr. now rewrite Htok.
Qed.

Lemma config_token (env : environ) :
  lookup "TELEGRAM_BOT_TOKEN" (config env) = Some (env "TELEGRAM_BOT_TOKEN"%string).
Proof. reflexivity. Qed.

(** ** The handler, step by step *)

Lemma handler_eq (L : Libs) (cfg : module) (net : network) raw hdr :
  crypto_pay_webhook_handler L cfg net raw hdr =
  match decode raw with
  | None => (Raise UnicodeDecodeError, [Log INFO ReceivedHeaders])
  | Some _ =>
    match parse_webhook L raw with
    | (Raise e, t) => (Raise e, preamble ++ t)
    | (Return w, t) =>
      let p := payload w in
      match extract_chat_id L (custom_payload p) with
      | (Raise e, t1) => (Raise e, preamble ++ t ++ t1)
      | (Return c, t1) =>
        if not_chat_id c
        then (Return soft_error,
              preamble ++ t ++ t1 ++ [Log ERROR ChatIdNotFound])
        else
          match send_telegram_message cfg net
                  (match c with Some n => n | None => 0 end)
                  (notification_text L (invoice_id p) (status p)
                                     (amount p) (asset p)) with
          | (Return _, t2) => (Return processed, preamble ++ t ++ t1 ++ t2)
          | (Raise e, t2) => (Raise e, preamble ++ t ++ t1 ++ t2)
          end
      end
    end
  end.
Proof.
  unfold crypto_pay_webhook_handler, bytes_decode.
  destruct (decode raw) as [text|]; [|reflexivity].
  cbn [bind log ret app].
  destruct (parse_webhook L raw) as [[w|e] t]; [|reflexivity].
  cbn [bind].
  destruct (extract_chat_id L _) as [[c|e] t1]; [|reflexivity].
  cbn [bind].
  destruct (not_chat_id c).
  - cbn -[soft_error]. reflexivity.
  - cbn [bind].
    destruct (send_telegram_message _ _ _ _) as [[x|e] t2]; cbn;
      now rewrite ?app_nil_r.
Qed.

(** ** The signature verifier *)

Lemma hex_digit_ascii (n : N) : (n < 16)%N -> (hex_digit n <? 128)%N = true.
Proof.
  intros H. unfold hex_digit. apply N.ltb_lt.
  destruct (n <? 10)%N eqn:E; [apply N.ltb_lt in E|]; lia.
Qed.

Lemma hexlify_ascii (x : bytes) : is_ascii (hexlify x) = true.
Proof.
  unfold is_ascii, hexlify.
  induction x as [|c x IH]; [reflexivity|].
  cbn [flat_map app forallb].
  pose proof (Byte.to_N_bounded c) as Hc.
  rewrite !hex_digit_ascii, IH; [reflexivity| |].
  - apply N.mod_lt; lia.
  - apply N.Div0.div_lt_upper_bound; lia.
Qed.

(** In a module that does not bind the secret, the first line raises. *)
Lemma verify_signature_unbound (cfg : module) raw hdr :
  lookup "CRYPTO_PAY_WEBHOOK_SECRET" cfg = None ->
  verify_signature cfg raw hdr
  = (Raise (AttributeError "CRYPTO_PAY_WEBHOOK_SECRET"), []).
Proof.
  intros H. unfold verify_signature, getattr. now rewrite H.
Qed.

Lemma config_binds_no_secret (env : environ) :
  lookup "CRYPTO_PAY_WEBHOOK_SECRET" (config env) = None.
Proof. reflexivity. Qed.

(** In a module that binds the secret, the function is the one its
    docstring describes. *)
Lemma verify_signature_bound (cfg : module) secret raw hdr :
  lookup "CRYPTO_PAY_WEBHOOK_SECRET" cfg = Some secret ->
  verify_signature cfg raw hdr =
  if negb (truthy secret) || negb (truthy hdr)
  then (Return true, [Log WARNING SignatureSkipped])
  else
    match encode (the secret) with
    | None => (Return false, [Log ERROR SignatureError])
    | Some key =>
      if is_ascii (the hdr) then
        if str_eqb (hmac_sha256_hexdigest key raw) (the hdr)
        then (Return true, [Log INFO SignatureVerified])
        else (Return false, [Log WARNING SignatureMismatch])
      else (Return false, [Log ERROR SignatureError])
    end.
Proof.
  intros H. unfold verify_signature, getattr. rewrite H.
  unfold bind at 1, ret at 1. cbv beta iota.
  destruct (negb (truthy secret) || negb (truthy hdr)); [reflexivity|].
  unfold str_encode, compare_digest, hmac_sha256_hexdigest.
  destruct (encode (the secret)) as [key|]; [|reflexivity].
  unfold bind at 1, ret at 1. cbv beta iota.
  rewrite hexlify_ascii. cbn [andb].
  destruct (is_ascii (the hdr)); [|reflexivity].
  unfold bind at 1, ret at 1. cbv beta iota.
  destruct (str_eqb _ _); reflexivity.
Qed.

End Main_facts.

(* ================================================================== *)
(** * The properties of the specification *)
(* ================================================================== *)

Module Properties.
Import Py Json Models Hashlib Config Main Grammar Spec Samples.
Import Py_facts Grammar_facts Main_facts.
Local Open Scope Z_scope.

(** ** Extraction of the recipient *)

(** C4.  The extractor returns 42 on ["foo:bar,user_id:42"]; it returns no
    recipient, without raising, on a text that does not hold the marker, on
    an absent and on an empty custom payload; where the marker occurs, it
    reads the text after the last occurrence as a base-10 integer, and
    returns no recipient when that text is not one.  It never raises. *)
Theorem extract_chat_id_spec (L : Libs) :
  fst (extract_chat_id L (Some (u "foo:bar,user_id:42"))) = Return (Some 42)
  /\ (forall s, no_occurrence marker s ->
                fst (extract_chat_id L (Some s)) = Return None)
  /\ fst (extract_chat_id L None) = Return None
  /\ fst (extract_chat_id L (Some [])) = Return None
  /\ (forall p r, last_occurrence marker p r ->
                  fst (extract_chat_id L (Some (p ++ marker ++ r)))
                  = Return (int (unicode L) r))
  /\ (forall o, exists c, fst (extract_chat_id L o) = Return c).
Proof.
  split; [|split; [|split; [|split; [|split]]]].
  - rewrite extract_chat_id_eq. reflexivity.
  - intros s Hs. rewrite extract_chat_id_eq.
    destruct (truthy (Some s)); [|reflexivity].
    cbn [the]. now rewrite (no_occurrence_contains _ _ Hs).
  - reflexivity.
  - reflexivity.
  - intros p r Hlast. rewrite extract_chat_id_eq.
    assert (Ht : truthy (Some (p ++ marker ++ r)) = true)
      by (destruct p; reflexivity).
    rewrite Ht. cbn [the].
    rewrite contains_app_mid.
    rewrite (split_marker_last p r Hlast).
    destruct (int (unicode L) r); reflexivity.
  - intros o. destruct (extract_chat_id_total L o) as (c & t & -> & _).
    now exists c.
Qed.

Lemma extract_chat_id_spec_witness :
  last_occurrence marker (u "a user_id:1,") (u " 42 ")
  /\ fst (extract_chat_id strict_libs
            (Some (u "a user_id:1," ++ marker ++ u " 42 ")))
     = Return (int (unicode strict_libs) (u " 42 ")).
Proof.
  assert (H : last_occurrence marker (u "a user_id:1,") (u " 42 "))
    by (apply last_occurrence_marker; reflexivity).
  split; [exact H|].
  exact (proj1 (proj2 (proj2 (proj2 (proj2 (extract_chat_id_spec strict_libs)))))
           (u "a user_id:1,") (u " 42 ") H).
Defined.

(** ** The recipient-not-found branch *)

Lemma handler_not_found (L : Libs) (cfg : module) (net : network) raw hdr w c t1 :
  fst (parse_webhook L raw) = Return w ->
  extract_chat_id L (custom_payload (payload w)) = (Return c, t1) ->
  not_chat_id c = true ->
  crypto_pay_webhook_handler L cfg net raw hdr
  = (Return soft_error,
     preamble ++ [Log INFO ParsedWebhook] ++ t1 ++ [Log ERROR ChatIdNotFound]).
Proof.
  intros Hp He Hc.
  destruct (parse_webhook_decodes _ _ _ Hp) as [[text Hd] Hp'].
  rewrite handler_eq, Hd, Hp'. cbv zeta. now rewrite He, Hc.
Qed.

(** C3.  When the body parses and no recipient can be extracted from the
    custom payload, the handler answers 200 with the soft-error body
    (status "error", message "chat_id not found in payload, notification
    skipped") and its trace holds no call of the Telegram API. *)
Theorem recipient_not_found_is_soft_error
        (L : Libs) (cfg : module) (net : network) raw hdr w :
  fst (parse_webhook L raw) = Return w ->
  fst (extract_chat_id L (custom_payload (payload w))) = Return None ->
  respond (fst (crypto_pay_webhook_handler L cfg net raw hdr))
  = JSONResponse 200
      [ (u "status", u "error");
        (u "message", u "chat_id not found in payload, notification skipped") ]
  /\ notifier_invoked (snd (crypto_pay_webhook_handler L cfg net raw hdr)) = false.
Proof.
  intros Hp He.
  destruct (extract_chat_id_total L (custom_payload (payload w)))
    as (c & t1 & Hx & Ht1).
  rewrite Hx in He. cbn [fst] in He. injection He as ->.
  rewrite (handler_not_found L cfg net raw hdr w _ _ Hp Hx eq_refl).
  split; [reflexivity|].
  cbn [snd]. unfold notifier_invoked in *.
  rewrite !existsb_app, Ht1. reflexivity.
Qed.

Lemma recipient_not_found_is_soft_error_witness :
  fst (parse_webhook strict_libs body_no_marker)
  = Return webhook_no_marker
  /\ respond (fst (crypto_pay_webhook_handler strict_libs (config no_env) net_ok
                     body_no_marker None))
     = JSONResponse 200
         [ (u "status", u "error");
           (u "message", u "chat_id not found in payload, notification skipped") ]
  /\ notifier_invoked
       (snd (crypto_pay_webhook_handler strict_libs (config no_env) net_ok
               body_no_marker None)) = false.
Proof.
  split; [vm_compute; reflexivity|].
  apply (recipient_not_found_is_soft_error strict_libs (config no_env) net_ok
           body_no_marker None
           webhook_no_marker).
  - vm_compute; reflexivity.
  - vm_compute; reflexivity.
Defined.

(** C10.  When the custom payload of a request that parses ends in
    ["user_id:0"], extraction succeeds with the integer 0, and the handler
    still takes the recipient-not-found branch: it answers 200 with the
    soft-error body and its trace holds no call of the Telegram API. *)
Theorem chat_id_zero_is_not_found
        (L : Libs) (cfg : module) (net : network) raw hdr w p :
  fst (parse_webhook L raw) = Return w ->
  custom_payload (payload w) = Some (p ++ u "user_id:0") ->
  fst (extract_chat_id L (custom_payload (payload w))) = Return (Some 0)
  /\ respond (fst (crypto_pay_webhook_handler L cfg net raw hdr))
     = JSONResponse 200 soft_error
  /\ notifier_invoked (snd (crypto_pay_webhook_handler L cfg net raw hdr)) = false.
Proof.
  intros Hp Hc.
  assert (Hx : extract_chat_id L (custom_payload (payload w))
               = (Return (Some 0), [Log INFO ExtractedChatId])).
  { rewrite Hc, extract_chat_id_eq.
    assert (Ht : truthy (Some (p ++ u "user_id:0")) = true)
      by (destruct p; reflexivity).
    rewrite Ht. cbn [the].
    change (u "user_id:0") with (marker ++ u "0").
    rewrite contains_app_mid.
    rewrite (split_marker_last p (u "0"))
      by (apply last_occurrence_marker; reflexivity).
    reflexivity. }
  rewrite (handler_not_found L cfg net raw hdr w _ _ Hp Hx eq_refl), Hx.
  repeat split.
Qed.

Lemma chat_id_zero_is_not_found_witness :
  custom_payload (payload webhook_zero)
  = Some (u "order 9;" ++ u "user_id:0")
  /\ respond (fst (crypto_pay_webhook_handler strict_libs (config no_env) net_ok
                     body_zero None))
     = JSONResponse 200 soft_error
  /\ notifier_invoked
       (snd (crypto_pay_webhook_handler strict_libs (config no_env) net_ok
               body_zero None)) = false.
Proof.
  split; [reflexivity|].
  apply (chat_id_zero_is_not_found strict_libs (config no_env) net_ok
           body_zero None
           webhook_zero
           (u "order 9;")).
  - vm_compute; reflexivity.
  - reflexivity.
Defined.

(** ** Signature verification *)

(** C1, as the code has it.  The handler does not call [verify_signature]:
    its result and its trace are those of the same request without a
    signature header, and it never answers 403. *)
Theorem handler_ignores_signature
        (L : Libs) (cfg : module) (net : network) raw hdr :
  crypto_pay_webhook_handler L cfg net raw hdr
  = crypto_pay_webhook_handler L cfg net raw None
  /\ forall detail,
       respond (fst (crypto_pay_webhook_handler L cfg net raw hdr))
       <> ErrorResponse 403 detail.
Proof.
  split; [reflexivity|].
  intros detail. rewrite handler_eq.
  destruct (decode raw) as [text|]; [|discriminate].
  destruct (parse_webhook_cases L raw) as [[w ->]|(d & t & -> & _)];
    [|discriminate].
  cbv zeta.
  destruct (extract_chat_id_total L (custom_payload (payload w)))
    as (c & t1 & -> & _).
  destruct (not_chat_id c); [discriminate|].
  destruct (lookup "TELEGRAM_BOT_TOKEN" cfg) as [token|] eqn:Htok.
  - rewrite (send_telegram_message_eq cfg net _ _ _ Htok). cbv zeta.
    destruct (client_or_server_error _); discriminate.
  - rewrite (send_telegram_message_unbound cfg net _ _ Htok). discriminate.
Qed.

(** C1, as the specification states it, fails.  A secret is configured, the signature header is
    present and is not the digest of the body; [verify_signature], given a
    module that binds the secret, returns [False]; the handler answers 200
    and notifies. *)
Lemma forged_signature_is_processed :
  signature_fails (env_secret "CRYPTO_PAY_WEBHOOK_SECRET"%string)
                  (Some (u "00")) body_paid
  /\ fst (verify_signature (config_with_secret env_secret) body_paid
                           (Some (u "00"))) = Return false
  /\ respond (fst (crypto_pay_webhook_handler strict_libs (config env_secret)
                     net_ok body_paid (Some (u "00"))))
     = JSONResponse 200 processed
  /\ notifier_invoked
       (snd (crypto_pay_webhook_handler strict_libs (config env_secret)
               net_ok body_paid (Some (u "00")))) = true.
Proof.
  split; [|split; [|split]].
  - split; [reflexivity|]. split; [reflexivity|].
    exists (b "key"). split; [reflexivity|].
    vm_compute. discriminate.
  - vm_compute. reflexivity.
  - vm_compute. reflexivity.
  - vm_compute. reflexivity.
Qed.

(** C8.  [config.py] binds no name [CRYPTO_PAY_WEBHOOK_SECRET]: whatever the
    environment, the body and the header, [verify_signature] raises
    [AttributeError] where the specification has it return true.  Only in a module
    that binds the name does it fail open: it logs a warning and returns
    true when the secret or the header is missing or empty. *)
Theorem verify_signature_fails_open_only_when_bound :
  (forall (env : environ) raw hdr,
      verify_signature (config env) raw hdr
      = (Raise (AttributeError "CRYPTO_PAY_WEBHOOK_SECRET"), []))
  /\ (forall (cfg : module) secret raw hdr,
         lookup "CRYPTO_PAY_WEBHOOK_SECRET" cfg = Some secret ->
         truthy secret = false \/ truthy hdr = false ->
         verify_signature cfg raw hdr
         = (Return true, [Log WARNING SignatureSkipped])).
Proof.
  split.
  - intros env raw hdr.
    apply verify_signature_unbound, config_binds_no_secret.
  - intros cfg secret raw hdr Hb Hmiss.
    rewrite (verify_signature_bound cfg secret raw hdr Hb).
    destruct Hmiss as [-> | ->]; [reflexivity|].
    now rewrite orb_true_r.
Qed.

Lemma verify_signature_fails_open_only_when_bound_witness :
  lookup "CRYPTO_PAY_WEBHOOK_SECRET" (config_with_secret no_env) = Some None
  /\ verify_signature (config_with_secret no_env) fox (Some fox_signature)
     = (Return true, [Log WARNING SignatureSkipped]).
Proof.
  split; [reflexivity|].
  exact (proj2 verify_signature_fails_open_only_when_bound
           (config_with_secret no_env) None fox (Some fox_signature)
           eq_refl (or_introl eq_refl)).
Defined.

(** C7.  With the secret set in the environment and the header equal to the
    HMAC-SHA256 hex digest of the body, [verify_signature] raises
    [AttributeError] where the specification has it return true.  Only in a module
    that binds the name to a secret does it compare: with a secret and a
    header that are not empty it returns true exactly when the header is
    the hex digest of the raw body under the UTF-8 bytes of the secret,
    and false otherwise. *)
Theorem verify_signature_compares_only_when_bound :
  (hmac_sha256_hexdigest (b "key") fox = fox_signature
   /\ verify_signature (config env_secret) fox (Some fox_signature)
      = (Raise (AttributeError "CRYPTO_PAY_WEBHOOK_SECRET"), []))
  /\ (forall (cfg : module) (secret hdr : str) key raw,
         lookup "CRYPTO_PAY_WEBHOOK_SECRET" cfg = Some (Some secret) ->
         secret <> [] -> hdr <> [] -> encode secret = Some key ->
         (fst (verify_signature cfg raw (Some hdr)) = Return true
          <-> hdr = hmac_sha256_hexdigest key raw)
         /\ (fst (verify_signature cfg raw (Some hdr)) = Return true
             \/ fst (verify_signature cfg raw (Some hdr)) = Return false)).
Proof.
  split; [split; vm_compute; reflexivity|].
  intros cfg secret hdr key raw Hb Hs Hh Hk.
  rewrite (verify_signature_bound cfg (Some secret) raw (Some hdr) Hb).
  rewrite (truthy_some secret Hs), (truthy_some hdr Hh).
  cbn [negb orb the]. rewrite Hk.
  destruct (is_ascii hdr) eqn:Ha.
  - destruct (str_eqb (hmac_sha256_hexdigest key raw) hdr) eqn:E.
    + apply str_eqb_eq in E. split; [|now left].
      split; [now intros _ | reflexivity].
    + split; [|now right].
      split; [discriminate|]. intros ->.
      now rewrite str_eqb_refl in E.
  - split; [|now right].
    split; [discriminate|]. intros ->.
    unfold hmac_sha256_hexdigest in Ha. now rewrite hexlify_ascii in Ha.
Qed.

Lemma verify_signature_compares_only_when_bound_witness :
  lookup "CRYPTO_PAY_WEBHOOK_SECRET" (config_with_secret env_secret)
  = Some (Some (u "key"))
  /\ encode (u "key") = Some (b "key")
  /\ fox_signature = hmac_sha256_hexdigest (b "key") fox
  /\ fst (verify_signature (config_with_secret env_secret) fox
                           (Some fox_signature)) = Return true.
Proof.
  assert (Hd : fox_signature = hmac_sha256_hexdigest (b "key") fox)
    by (vm_compute; reflexivity).
  split; [reflexivity|]. split; [reflexivity|]. split; [exact Hd|].
  refine (proj2 (proj1 (proj2 verify_signature_compares_only_when_bound
                          (config_with_secret env_secret) (u "key")
                          fox_signature (b "key") fox eq_refl _ _ eq_refl)) Hd);
    discriminate.
Defined.

(** ** Parsing *)

Lemma ap_inl_l {A B} (e : error_details) (x : V A) :
  exists e', ap (inl e : V (A -> B)) x = inl e'.
Proof. destruct x; now eexists. Qed.

Lemma ap_inl_r {A B} (f : V (A -> B)) (e : error_details) :
  exists e', ap f (inl e) = inl e'.
Proof. destruct f; now eexists. Qed.

(** Without a valid [invoice_id] no invoice record is built. *)
Lemma invalid_invoice_id (L : Libs) (inv : dict) :
  dict_get (u "invoice_id") inv = None
  \/ (exists v, dict_get (u "invoice_id") inv = Some v
                /\ validate_int L v = None) ->
  exists errs, validate_InvoicePayload L inv = inl errs.
Proof.
  intros H. unfold validate_InvoicePayload.
  assert (H1 : exists e,
             required (scalar (validate_int L)) "invoice_id" inv = inl e).
  { unfold required, scalar.
    destruct H as [-> | (v & -> & ->)]; now eexists. }
  destruct H1 as [e ->].
  destruct (ap_inl_r (pure Build_InvoicePayload) e) as [e0 ->].
  repeat match goal with
         | |- context [@ap ?A ?B (inl ?e0) ?x] =>
           let e1 := fresh "e" in
           destruct (@ap_inl_l A B e0 x) as [e1 ->]
         end.
  now eexists.
Qed.

Lemma invalid_invoice_is_validation_error (L : Libs) (d inv : dict) :
  dict_get (u "payload") d = Some (JDict inv) ->
  dict_get (u "invoice_id") inv = None
  \/ (exists v, dict_get (u "invoice_id") inv = Some v
                /\ validate_int L v = None) ->
  exists errs,
    new_CryptoPayWebhook L (JDict d) = (Raise (ValidationError errs), []).
Proof.
  intros Hp Hi. destruct (invalid_invoice_id L inv Hi) as [e He].
  unfold new_CryptoPayWebhook, validate_CryptoPayWebhook.
  unfold required at 4. rewrite Hp. cbn [model]. rewrite He. cbn [at_field].
  unfold ap at 1.
  destruct (ap _ _); eexists; reflexivity.
Qed.

(** C2.  A body that is not UTF-8 is not JSON, and the handler does not
    answer 400: the decoding in the log statement before the [try] raises
    [UnicodeDecodeError], which nothing handles.  For a body that decodes,
    the two kinds of 400 are as specified: "Invalid JSON payload" when
    [json.loads] fails, and "Invalid payload structure: " followed by the
    text of the validation error when [invoice_id] is missing or refused. *)
Theorem body_error_kinds (L : Libs) (cfg : module) (net : network) hdr :
  (crypto_pay_webhook_handler L cfg net [xff] hdr
   = (Raise UnicodeDecodeError, [Log INFO ReceivedHeaders])
   /\ respond (fst (crypto_pay_webhook_handler L cfg net [xff] hdr))
      = InternalServerError)
  /\ (forall raw text e,
         decode raw = Some text -> loads (recursion_limit L) text = Err e ->
         respond (fst (crypto_pay_webhook_handler L cfg net raw hdr))
         = ErrorResponse 400 (u "Invalid JSON payload"))
  /\ (forall raw text d inv,
         decode raw = Some text ->
         loads (recursion_limit L) text = Ok (JDict d) ->
         dict_get (u "payload") d = Some (JDict inv) ->
         dict_get (u "invoice_id") inv = None
         \/ (exists v, dict_get (u "invoice_id") inv = Some v
                       /\ validate_int L v = None) ->
         exists errs,
           respond (fst (crypto_pay_webhook_handler L cfg net raw hdr))
           = ErrorResponse 400 (u "Invalid payload structure: "
                                  ++ exn_str L (ValidationError errs))).
Proof.
  split; [split; reflexivity|]. split.
  - intros raw text e Hd Hl.
    now rewrite handler_eq, Hd, parse_webhook_eq, Hd, Hl.
  - intros raw text d inv Hd Hl Hp Hi.
    destruct (invalid_invoice_is_validation_error L d inv Hp Hi) as [errs He].
    exists errs.
    now rewrite handler_eq, Hd, parse_webhook_eq, Hd, Hl, He.
Qed.

Lemma body_error_kinds_witness :
  decode (json_bytes "{'update_id':1") = Some (u "{" ++ [34%N] ++ u "update_id" ++ [34%N] ++ u ":1")
  /\ loads (recursion_limit strict_libs)
           (u "{" ++ [34%N] ++ u "update_id" ++ [34%N] ++ u ":1")
     = Err ExpectingComma
  /\ respond (fst (crypto_pay_webhook_handler strict_libs (config no_env) net_ok
                     (json_bytes "{'update_id':1") None))
     = ErrorResponse 400 (u "Invalid JSON payload").
Proof.
  assert (H1 : decode (json_bytes "{'update_id':1")
               = Some (u "{" ++ [34%N] ++ u "update_id" ++ [34%N] ++ u ":1"))
    by (vm_compute; reflexivity).
  assert (H2 : loads (recursion_limit strict_libs)
                     (u "{" ++ [34%N] ++ u "update_id" ++ [34%N] ++ u ":1")
               = Err ExpectingComma)
    by (vm_compute; reflexivity).
  split; [exact H1|]. split; [exact H2|].
  exact (proj1 (proj2 (body_error_kinds strict_libs (config no_env) net_ok None))
           _ _ _ H1 H2).
Defined.

(** ** Notification *)

(** C5, as the code has it.  The notifier returns false exactly when the
    call raises or the response is a 4xx or a 5xx; once the notifier has
    been called the handler answers 200 with the body
    (status "ok", message "Webhook processed"); the answer of the handler
    does not depend on what the network does. *)
Theorem notification_outcome_is_not_reported (L : Libs) (env : environ) :
  (forall net chat text,
      fst (send_telegram_message (config env) net chat text)
      = Return (negb (client_or_server_error
                        (net (send_message_url (env "TELEGRAM_BOT_TOKEN"%string))
                             chat text))))
  /\ (forall net raw hdr,
         notifier_invoked
           (snd (crypto_pay_webhook_handler L (config env) net raw hdr)) = true ->
         respond (fst (crypto_pay_webhook_handler L (config env) net raw hdr))
         = JSONResponse 200
             [ (u "status", u "ok"); (u "message", u "Webhook processed") ])
  /\ (forall net net' raw hdr,
         respond (fst (crypto_pay_webhook_handler L (config env) net raw hdr))
         = respond (fst (crypto_pay_webhook_handler L (config env) net' raw hdr))).
Proof.
  split; [|split].
  - intros net chat text.
    rewrite (send_telegram_message_eq (config env) net _ chat text (config_token env)).
    cbv zeta. destruct (client_or_server_error _); reflexivity.
  - intros net raw hdr. rewrite handler_eq.
    destruct (decode raw) as [text|]; [|discriminate].
    destruct (parse_webhook_cases L raw) as [[w ->]|(d & t & -> & Ht)].
    + cbv zeta.
      destruct (extract_chat_id_total L (custom_payload (payload w)))
        as (c & t1 & -> & Ht1).
      destruct (not_chat_id c).
      * cbn [snd]. unfold notifier_invoked in *.
        rewrite !existsb_app, Ht1. discriminate.
      * rewrite (send_telegram_message_eq (config env) net _ _ _ (config_token env)).
        cbv zeta. destruct (client_or_server_error _); reflexivity.
    + cbn [snd]. unfold notifier_invoked in *.
      rewrite existsb_app, Ht. discriminate.
  - intros net net' raw hdr. rewrite !handler_eq.
    destruct (decode raw) as [text|]; [|reflexivity].
    destruct (parse_webhook L raw) as [[w|e] t]; [|reflexivity].
    cbv zeta.
    destruct (extract_chat_id L _) as [[c|e] t1]; [|reflexivity].
    destruct (not_chat_id c); [reflexivity|].
    rewrite !(send_telegram_message_eq (config env) _ _ _ _ (config_token env)).
    cbv zeta.
    do 2 destruct (client_or_server_error _); reflexivity.
Qed.

Lemma notification_outcome_is_not_reported_witness :
  notifier_invoked
    (snd (crypto_pay_webhook_handler strict_libs (config no_env) net_down
            body_paid None)) = true
  /\ fst (send_telegram_message (config no_env) net_down 42 (u "text"))
     = Return false
  /\ respond (fst (crypto_pay_webhook_handler strict_libs (config no_env)
                     net_down body_paid None))
     = JSONResponse 200
         [ (u "status", u "ok"); (u "message", u "Webhook processed") ].
Proof.
  assert (H : notifier_invoked
                (snd (crypto_pay_webhook_handler strict_libs (config no_env)
                        net_down body_paid None)) = true)
    by (vm_compute; reflexivity).
  split; [exact H|]. split.
  - exact (proj1 (notification_outcome_is_not_reported strict_libs no_env)
             net_down 42 (u "text")).
  - exact (proj1 (proj2 (notification_outcome_is_not_reported strict_libs no_env))
             net_down body_paid None H).
Defined.

(** C5, as the specification states it, fails.  A 304 is not a 2xx, and the notifier returns
    true on it. *)
Lemma not_modified_counts_as_sent :
  non_2xx (Response 304) = true
  /\ fst (send_telegram_message (config no_env) net_not_modified
                                42 (u "text")) = Return true.
Proof. split; vm_compute; reflexivity. Qed.

(** ** The text of the notification *)

Ltac eval_literals :=
  repeat match goal with
         | |- context [u ?s] =>
           let v := eval vm_compute in (u s) in change (u s) with v
         end.

Lemma int_chars_differ (n : Z) (c : codepoint) :
  (57 < c)%N -> Forall (fun x => x <> c) (str_of_int n).
Proof.
  intros Hc. eapply Forall_impl; [|apply str_of_int_chars].
  intros x [->|Hx]; lia.
Qed.

(** The messages without an amount do not hold the words that introduce
    one, whatever the invoice id. *)
Lemma no_fragment_in_plain_paid (id : Z) :
  contains amount_fragment
           (u "✅ Ваш платеж (Инвойс ID: " ++ str_of_int id
              ++ u ") успешно получен!") = false.
Proof.
  unfold amount_fragment.
  pose proof (int_chars_differ id 1085%N eq_refl) as Hd.
  revert Hd. generalize (str_of_int id). intros d Hd.
  eval_literals. cbn [app contains startswith N.eqb Pos.eqb andb orb].
  rewrite contains_skip_eq by exact Hd.
  reflexivity.
Qed.

Lemma no_fragment_in_expired (id : Z) :
  contains amount_fragment
           (u "⌛️ Срок действия вашего платежа (Инвойс ID: "
              ++ str_of_int id ++ u ") истек.") = false.
Proof.
  unfold amount_fragment.
  pose proof (int_chars_differ id 1085%N eq_refl) as Hd.
  revert Hd. generalize (str_of_int id). intros d Hd.
  eval_literals. cbn [app contains startswith N.eqb Pos.eqb andb orb].
  rewrite contains_skip_eq by exact Hd.
  reflexivity.
Qed.

Lemma notification_text_paid_full (L : Libs) id (a s : str) :
  a <> [] -> s <> [] ->
  notification_text L id (u "paid") (Some a) (Some s)
  = u "✅ Ваш платеж на сумму " ++ a ++ u " " ++ s
      ++ u " (Инвойс ID: " ++ str_of_int id ++ u ") успешно получен!".
Proof.
  intros Ha Hs. unfold notification_text.
  rewrite str_eqb_refl, (truthy_some a Ha), (truthy_some s Hs).
  reflexivity.
Qed.

Lemma notification_text_paid_plain (L : Libs) id amount asset :
  truthy amount && truthy asset = false ->
  notification_text L id (u "paid") amount asset
  = u "✅ Ваш платеж (Инвойс ID: " ++ str_of_int id ++ u ") успешно получен!".
Proof.
  intros H. unfold notification_text. now rewrite str_eqb_refl, H.
Qed.

Lemma notification_text_expired (L : Libs) id amount asset :
  notification_text L id (u "expired") amount asset
  = u "⌛️ Срок действия вашего платежа (Инвойс ID: "
      ++ str_of_int id ++ u ") истек.".
Proof.
  unfold notification_text.
  change (str_eqb (u "expired") (u "paid")) with false.
  now rewrite str_eqb_refl.
Qed.

(** C6, as the code has it.  For the status "paid" with an amount and an
    asset that are both present and not empty, the message holds the
    amount, the asset and the success mark; for "paid" the words that
    introduce an amount are in the message exactly when both are present
    and not empty; for "expired" the message holds the expiry mark and not
    those words; for any other status the message is the generic one, with
    the status in upper case. *)
Theorem notification_text_spec (L : Libs) (id : Z) :
  (forall a s : str, a <> [] -> s <> [] ->
     contains a (notification_text L id (u "paid") (Some a) (Some s)) = true
     /\ contains s (notification_text L id (u "paid") (Some a) (Some s)) = true
     /\ contains success_marker
                 (notification_text L id (u "paid") (Some a) (Some s)) = true)
  /\ (forall amount asset,
        contains amount_fragment (notification_text L id (u "paid") amount asset)
        = truthy amount && truthy asset)
  /\ (forall amount asset,
        contains expiry_marker
                 (notification_text L id (u "expired") amount asset) = true
        /\ contains amount_fragment
                    (notification_text L id (u "expired") amount asset) = false)
  /\ (forall status amount asset,
        status <> u "paid" -> status <> u "expired" ->
        notification_text L id status amount asset
        = u "Статус вашего платежа (Инвойс ID: " ++ str_of_int id
            ++ u ") обновлен: <b>" ++ upper (unicode L) status ++ u "</b>.").
Proof.
  split; [|split; [|split]].
  - intros a s Ha Hs. rewrite (notification_text_paid_full L id a s Ha Hs).
    split; [|split].
    + apply contains_app_mid.
    + apply contains_iff.
      exists (u "✅ Ваш платеж на сумму " ++ a ++ u " "). eexists.
      rewrite <- !app_assoc. reflexivity.
    + apply contains_iff. exists []. eexists.
      unfold success_marker. eval_literals. reflexivity.
  - intros amount asset.
    destruct (truthy amount && truthy asset) eqn:E.
    + apply andb_true_iff in E as [Ha Hs].
      destruct amount as [[|c a]|]; try discriminate.
      destruct asset as [[|c' s]|]; try discriminate.
      rewrite (notification_text_paid_full L id (c :: a) (c' :: s))
        by discriminate.
      apply contains_iff. exists (u "✅ Ваш платеж "). eexists.
      unfold amount_fragment.
      change (u "✅ Ваш платеж на сумму ")
        with (u "✅ Ваш платеж " ++ u "на сумму" ++ u " ").
      rewrite <- !app_assoc. reflexivity.
    + rewrite (notification_text_paid_plain L id amount asset E).
      apply no_fragment_in_plain_paid.
  - intros amount asset. rewrite notification_text_expired.
    split; [|apply no_fragment_in_expired].
    apply contains_iff. exists []. eexists.
    unfold expiry_marker. eval_literals. reflexivity.
  - intros status amount asset Hp He. unfold notification_text.
    now rewrite (str_eqb_neq _ _ Hp), (str_eqb_neq _ _ He).
Qed.

Lemma notification_text_spec_witness :
  u "10.5" <> [] /\ u "TON" <> [] /\ u "active" <> u "paid"
  /\ contains (u "TON")
       (notification_text strict_libs 7 (u "paid") (Some (u "10.5"))
                          (Some (u "TON"))) = true
  /\ notification_text strict_libs 7 (u "active") None None
     = u "Статус вашего платежа (Инвойс ID: " ++ str_of_int 7
         ++ u ") обновлен: <b>" ++ upper (unicode strict_libs) (u "active")
         ++ u "</b>.".
Proof.
  assert (H1 : u "10.5" <> []) by discriminate.
  assert (H2 : u "TON" <> []) by discriminate.
  assert (H3 : u "active" <> u "paid") by discriminate.
  assert (H4 : u "active" <> u "expired") by discriminate.
  split; [exact H1|]. split; [exact H2|]. split; [exact H3|]. split.
  - exact (proj1 (proj2 (proj1 (notification_text_spec strict_libs 7)
                           (u "10.5") (u "TON") H1 H2))).
  - exact (proj2 (proj2 (proj2 (notification_text_spec strict_libs 7)))
             (u "active") None None H3 H4).
Defined.

(** C6, as the specification states it, fails.  An amount that is present and empty: the
    status is "paid", amount and asset are both present, and the message
    does not hold the asset. *)
Lemma empty_amount_drops_asset :
  contains (u "TON")
    (notification_text strict_libs 7 (u "paid") (Some []) (Some (u "TON")))
  = false.
Proof. vm_compute. reflexivity. Qed.

(** ** Parsing a valid body *)

Section Valid_body.

Variable L : Libs.
Hypothesis HL : conforms L.

Lemma required_int (d : dict) key n :
  has d key (JInt n) ->
  required (scalar (validate_int L)) key d = inr n.
Proof.
  unfold has, required, scalar. intros ->.
  now rewrite (int_accepts L HL).
Qed.

Lemma required_str (d : dict) key s :
  has d key (JStr s) ->
  required (scalar (validate_str L)) key d = inr s.
Proof.
  unfold has, required, scalar. intros ->.
  now rewrite (str_accepts L HL).
Qed.

Lemma optional_str (d : dict) key o :
  has_optional d key o ->
  optional (scalar (validate_str L)) key d = inr o.
Proof.
  unfold has_optional, has, optional, scalar.
  destruct o as [s|].
  - intros ->. now rewrite (str_accepts L HL).
  - intros [-> | ->]; reflexivity.
Qed.

Lemma validate_invoice_record (d : dict) (p : InvoicePayload) :
  invoice_record d p -> validate_InvoicePayload L d = inr p.
Proof.
  intros (H1 & H2 & H3 & H4 & H5 & H6 & H7 & H8 & H9).
  unfold validate_InvoicePayload.
  rewrite (required_int _ _ _ H1), (required_str _ _ _ H2),
    (optional_str _ _ _ H3), (optional_str _ _ _ H4), (optional_str _ _ _ H5),
    (optional_str _ _ _ H6), (optional_str _ _ _ H7), (optional_str _ _ _ H8),
    (optional_str _ _ _ H9).
  destruct p; reflexivity.
Qed.

Lemma validate_webhook_envelope (d : dict) (w : CryptoPayWebhook) :
  webhook_envelope d w -> validate_CryptoPayWebhook L d = inr w.
Proof.
  intros (H1 & H2 & H3 & inv & H4 & H5).
  unfold validate_CryptoPayWebhook.
  rewrite (required_int _ _ _ H1), (required_str _ _ _ H2),
    (required_str _ _ _ H3).
  unfold required at 1. unfold has in H4. rewrite H4.
  cbn [model]. rewrite (validate_invoice_record _ _ H5).
  destruct w; reflexivity.
Qed.

End Valid_body.

Lemma fits_mono (x : doc) :
  forall n m, (n <= m)%nat -> fits n x = true -> fits m x = true.
Proof.
  induction x as [ | b | mi i f e | l | w es IH | w ms IH] using doc_induction;
    intros n m Hnm; try (intros _; reflexivity); try (intros H; exact H).
  - cbn [fits]. destruct n as [|n]; [discriminate|].
    destruct m as [|m]; [lia|].
    rewrite !forallb_forall. rewrite Forall_forall in IH.
    intros H [[a x] b] Hin. specialize (H _ Hin). cbv beta iota in H.
    exact (IH _ Hin n m ltac:(lia) H).
  - cbn [fits]. destruct n as [|n]; [discriminate|].
    destruct m as [|m]; [lia|].
    rewrite !forallb_forall. rewrite Forall_forall in IH.
    intros H [[[[[a k] b] c] x] e] Hin. specialize (H _ Hin).
    cbv beta iota in H.
    exact (IH _ Hin n m ltac:(lia) H).
Qed.

Ltac sample_body :=
  split; [vm_compute; reflexivity|];
  exists [], []; eexists;
  split; [reflexivity|]; split; [reflexivity|];
  split; [vm_compute; reflexivity|];
  split; [vm_compute; reflexivity|];
  split; [reflexivity|]; split; [reflexivity|]; split; [reflexivity|];
  eexists; split; [vm_compute; reflexivity|];
  repeat split; try (left; reflexivity); vm_compute; reflexivity.

Lemma body_paid_valid : valid_body body_paid doc_paid webhook_paid.
Proof. sample_body. Qed.

Lemma body_surrogate_valid :
  valid_body body_surrogate doc_surrogate webhook_surrogate.
Proof. sample_body. Qed.

Lemma body_long_valid : valid_body body_long doc_long webhook_long.
Proof. sample_body. Qed.

(** What the handler makes of a valid body the interpreter has room for:
    the webhook, when every field of type [str] can be written in UTF-8,
    and a 400 when one cannot. *)
Lemma parse_valid_body (L : Libs) (raw : bytes) (x : doc)
      (w : CryptoPayWebhook) :
  conforms L -> valid_body raw x w -> fits (recursion_limit L) x = true ->
  parse_webhook L raw
  = if forallb encodable (str_fields w)
    then (Return w, [Log INFO ParsedWebhook])
    else (Raise (HTTPException 400 (u "Invalid payload structure: "
                                      ++ exn_str L PydanticSerializationError)),
          [Log ERROR ValidationFailed]).
Proof.
  intros HL (Hx & w1 & w2 & d & H1 & H2 & Hd & Hm & He) Hfit.
  rewrite parse_webhook_eq, Hd, (loads_text x w1 w2 _ Hx Hfit H1 H2), Hm.
  cbn [new_CryptoPayWebhook].
  now rewrite (validate_webhook_envelope L HL d w He).
Qed.


Lemma strict_libs_conform : conforms strict_libs.
Proof. split; reflexivity. Qed.



End Properties.

(* ================================================================== *)
(** * More facts: reading integers, traces, digests, validation *)
(* ================================================================== *)

Module More_facts.
Import Py Json Models Hashlib Config Main Spec Samples Observe.
Import Py_facts Main_facts.
Local Open Scope Z_scope.

Ltac eval_u :=
  repeat match goal with
         | |- context [u ?s] =>
           let v := eval vm_compute in (u s) in change (u s) with v
         end.

(** ** [int] reads what [str] writes *)

Lemma value_after_pos (d : Decimal.uint) (acc : positive) :
  Z.pos (Pos.of_uint_acc d acc) = value_after d (Z.pos acc).
Proof.
  revert acc; induction d; intros acc; cbn [Pos.of_uint_acc value_after];
    try reflexivity; rewrite IHd; f_equal; lia.
Qed.

Lemma value_after_zero (d : Decimal.uint) :
  Z.of_N (Pos.of_uint d) = value_after d 0.
Proof.
  induction d; cbn [Pos.of_uint value_after]; try reflexivity;
    try (rewrite IHd; reflexivity);
    cbn [Z.of_N]; rewrite value_after_pos; reflexivity.
Qed.

Lemma Forall_blank_head (c : codepoint) (s : str) :
  blank (c :: s) -> ascii_isspace c = true.
Proof. intros H. now inversion H. Qed.

Lemma space_not_digit (c : codepoint) :
  ascii_isspace c = true -> digit_val c = None /\ (c =? 95)%N = false.
Proof.
  unfold ascii_isspace, digit_val. intros H.
  apply orb_true_iff in H as [H|H].
  - apply andb_true_iff in H as [H1 H2].
    apply N.leb_le in H1, H2.
    split.
    + destruct (48 <=? c)%N eqn:E; [apply N.leb_le in E; lia | reflexivity].
    + apply N.eqb_neq. lia.
  - apply N.eqb_eq in H. subst c. split; reflexivity.
Qed.

Lemma digits_of_step (d : Decimal.uint) (c : codepoint) (k : Z) (rest : str) :
  digit_val c = Some k ->
  (forall acc n,
      scan_digits acc n (digits_of d ++ rest)
      = Some (value_after d acc,
              (n + N.of_nat (List.length (digits_of d)))%N, rest)) ->
  forall acc n,
    scan_digits acc n (c :: digits_of d ++ rest)
    = Some (value_after d (10 * acc + k),
            (n + N.of_nat (S (List.length (digits_of d))))%N, rest).
Proof.
  intros Hc IH acc n. cbn [scan_digits]. rewrite Hc, IH.
  do 3 f_equal. lia.
Qed.

(** The digits, then nothing or white space: the reader stops after them,
    and has counted them. *)
Lemma scan_digits_of (d : Decimal.uint) (rest : str) :
  blank rest ->
  forall acc n,
    scan_digits acc n (digits_of d ++ rest)
    = Some (value_after d acc, (n + N.of_nat (List.length (digits_of d)))%N,
            rest).
Proof.
  intros Hr.
  induction d; intros acc n;
    try (match goal with
         | |- context [digits_of (?D d)] =>
           let c := eval vm_compute in (hd 0%N (digits_of (D Decimal.Nil))) in
           let k := eval vm_compute in
                      (match digit_val c with Some k => k | None => 0 end) in
           change (digits_of (D d)) with (c :: digits_of d);
           cbn [app List.length];
           rewrite (digits_of_step d c k rest eq_refl IHd acc n)
         end;
         cbn [value_after]; rewrite ?Z.add_0_r; reflexivity).
  unfold digits_of. cbn [NilEmpty.string_of_uint list_ascii_of_string map app].
  cbn [List.length N.of_nat]. rewrite N.add_0_r.
  destruct rest as [|c rest]; [reflexivity|].
  cbn [scan_digits value_after].
  destruct (space_not_digit c (Forall_blank_head c rest Hr)) as [-> ->].
  reflexivity.
Qed.

Lemma digits_of_cons (d : Decimal.uint) :
  d <> Decimal.Nil ->
  exists k rest,
    (0 <= k <= 9)%Z /\
    digits_of d = (48 + Z.to_N k)%N :: digits_of rest
    /\ forall acc, value_after d acc = value_after rest (10 * acc + k).
Proof.
  intros Hd. destruct d; [congruence| | | | | | | | | |].
  - exists 0, d. split; [lia|]. split; [reflexivity|]. intros acc. cbn. f_equal. lia.
  - exists 1, d. split; [lia|]. split; reflexivity.
  - exists 2, d. split; [lia|]. split; reflexivity.
  - exists 3, d. split; [lia|]. split; reflexivity.
  - exists 4, d. split; [lia|]. split; reflexivity.
  - exists 5, d. split; [lia|]. split; reflexivity.
  - exists 6, d. split; [lia|]. split; reflexivity.
  - exists 7, d. split; [lia|]. split; reflexivity.
  - exists 8, d. split; [lia|]. split; reflexivity.
  - exists 9, d. split; [lia|]. split; reflexivity.
Qed.

(** What [str] writes: an optional minus sign and the digits of the
    absolute value, at least one. *)
Lemma str_of_int_shape (n : Z) :
  exists d : Decimal.uint,
    d <> Decimal.Nil
    /\ str_of_int (Z.abs n) = digits_of d
    /\ str_of_int n = (if n <? 0 then [45%N] else []) ++ digits_of d
    /\ Z.abs n = value_after d 0.
Proof.
  assert (Hpos : forall p,
             exists d, d <> Decimal.Nil
                       /\ str_of_int (Z.pos p) = digits_of d
                       /\ Z.pos p = value_after d 0).
  { intros p. pose proof (DecimalZ.of_to (Z.pos p)) as Hn.
    cbn [Z.to_int Z.of_int] in Hn. unfold Z.of_uint in Hn.
    exists (Pos.to_uint p).
    assert (Hd : Pos.to_uint p <> Decimal.Nil).
    { intros E. rewrite E in Hn. discriminate. }
    split; [exact Hd|]. split.
    - unfold str_of_int. cbn [Z.to_int NilZero.string_of_int].
      destruct (Pos.to_uint p); [congruence | reflexivity ..].
    - rewrite <- Hn at 1. apply value_after_zero. }
  destruct n as [|p|p].
  - exists (Decimal.D0 Decimal.Nil). repeat split. discriminate.
  - destruct (Hpos p) as (d & Hd & Hs & Hv). exists d. cbn [Z.abs Z.ltb Z.compare app].
    auto.
  - destruct (Hpos p) as (d & Hd & Hs & Hv). exists d.
    split; [exact Hd|]. split; [exact Hs|]. split; [|exact Hv].
    rewrite <- Hs. reflexivity.
Qed.

Lemma skip_space_blank (ws x : str) :
  blank ws -> skip_space (ws ++ x) = skip_space x.
Proof.
  intros H. induction H as [|c ws Hc _ IH]; [reflexivity|].
  cbn [app skip_space]. now rewrite Hc.
Qed.

Lemma skip_space_all (ws : str) : blank ws -> skip_space ws = [].
Proof.
  intros H. rewrite <- (app_nil_r ws), skip_space_blank by exact H.
  reflexivity.
Qed.

Lemma digit_char (k : Z) :
  (0 <= k <= 9)%Z ->
  let c := (48 + Z.to_N k)%N in
  digit_val c = Some k /\ ascii_isspace c = false
  /\ (c =? 43)%N = false /\ (c =? 45)%N = false.
Proof.
  intros Hk.
  assert (k = 0 \/ k = 1 \/ k = 2 \/ k = 3 \/ k = 4 \/ k = 5 \/ k = 6
          \/ k = 7 \/ k = 8 \/ k = 9) as Hc by lia.
  repeat (destruct Hc as [-> | Hc]; [repeat split|]). subst k. repeat split.
Qed.

(** [int_of_ascii] on blanks, a rendered integer and blanks: the integer,
    unless it has more digits than [int] reads. *)
Lemma int_of_ascii_str (n : Z) (ws1 ws2 : str) :
  blank ws1 -> blank ws2 ->
  int_of_ascii (ws1 ++ str_of_int n ++ ws2)
  = if (digit_count n <=? 4300)%N then Some n else None.
Proof.
  intros H1 H2.
  destruct (str_of_int_shape n) as (d & Hd & Ha & Hs & Hn).
  unfold digit_count. rewrite Ha, Hs.
  destruct (digits_of_cons d Hd) as (k & rest & Hk & Hds & Hv).
  destruct (digit_char k Hk) as (Hdig & Hsp & H43 & H45).
  unfold int_of_ascii. rewrite skip_space_blank by exact H1.
  rewrite Hds. cbn [List.length].
  replace (N.of_nat (S (List.length (digits_of rest))))
    with (1 + N.of_nat (List.length (digits_of rest)))%N by lia.
  change int_max_str_digits with 4300%N.
  rewrite (Hv 0) in Hn. replace (10 * 0 + k) with k in Hn by lia.
  destruct (n <? 0) eqn:Eneg; cbn [app skip_space ascii_isspace].
  - apply Z.ltb_lt in Eneg.
    change (ascii_isspace 45%N) with false. cbv iota.
    change (45 =? 43)%N with false. change (45 =? 45)%N with true. cbv iota.
    rewrite Hdig, scan_digits_of by exact H2.
    rewrite skip_space_all by exact H2.
    rewrite <- Hn. replace (- Z.abs n) with n by lia. reflexivity.
  - apply Z.ltb_ge in Eneg.
    rewrite Hsp. cbv iota. rewrite H43, H45. cbv iota.
    rewrite Hdig, scan_digits_of by exact H2.
    rewrite skip_space_all by exact H2.
    rewrite <- Hn. replace (Z.abs n) with n by lia. reflexivity.
Qed.

Lemma to_ascii_below (U : ucd) (s : str) :
  Forall (fun c => (c < 128)%N) s -> map (to_ascii U) s = s.
Proof.
  intros H. induction H as [|c s Hc _ IH]; [reflexivity|].
  cbn [map]. rewrite IH. unfold to_ascii.
  apply N.ltb_lt in Hc. now rewrite Hc.
Qed.

Lemma blank_below (ws : str) : blank ws -> Forall (fun c => (c < 128)%N) ws.
Proof.
  intros H. eapply Forall_impl; [|exact H].
  intros c Hc. unfold ascii_isspace in Hc.
  apply orb_true_iff in Hc as [Hc|Hc].
  - apply andb_true_iff in Hc as [_ Hc]. apply N.leb_le in Hc. lia.
  - apply N.eqb_eq in Hc. lia.
Qed.

Lemma int_chars_below (n : Z) : Forall (fun c => (c < 128)%N) (str_of_int n).
Proof.
  eapply Forall_impl; [|apply str_of_int_chars].
  intros c [->|Hc]; lia.
Qed.

(** [int(str(n))] is [n], also between ASCII white space, for an integer
    of at most 4300 digits; beyond that [int] raises. *)
Lemma int_str (U : ucd) (n : Z) (ws1 ws2 : str) :
  blank ws1 -> blank ws2 ->
  int U (ws1 ++ str_of_int n ++ ws2)
  = if (digit_count n <=? 4300)%N then Some n else None.
Proof.
  intros H1 H2. unfold int.
  rewrite to_ascii_below; [now apply int_of_ascii_str|].
  apply Forall_app; split; [now apply blank_below|].
  apply Forall_app; split; [apply int_chars_below | now apply blank_below].
Qed.

(** A text without the first character of the pattern holds no occurrence. *)
Lemma contains_none (f0 : codepoint) (frag s : str) :
  Forall (fun c => c <> f0) s -> contains (f0 :: frag) s = false.
Proof.
  intros H. induction H as [|c s Hc _ IH]; [reflexivity|].
  cbn [contains startswith]. apply N.eqb_neq in Hc.
  rewrite N.eqb_sym in Hc. now rewrite Hc, IH.
Qed.

Lemma last_occurrence_without_u (p r : str) :
  Forall (fun c => c <> 117%N) r -> last_occurrence marker p r.
Proof.
  intros H. apply last_occurrence_marker.
  change (skipn 1 (marker ++ r))
    with ([115; 101; 114; 95; 105; 100; 58]%N ++ r).
  change marker with (117%N :: [115; 101; 114; 95; 105; 100; 58]%N).
  apply contains_none, Forall_app. split; [|exact H].
  repeat constructor; discriminate.
Qed.

Lemma blank_small (ws : str) : blank ws -> Forall (fun c => (c <= 32)%N) ws.
Proof.
  intros H. eapply Forall_impl; [|exact H].
  intros c Hc. unfold ascii_isspace in Hc.
  apply orb_true_iff in Hc as [Hc|Hc].
  - apply andb_true_iff in Hc as [_ Hc]. apply N.leb_le in Hc. lia.
  - apply N.eqb_eq in Hc. lia.
Qed.

Lemma number_without_u (n : Z) (ws1 ws2 : str) :
  blank ws1 -> blank ws2 ->
  Forall (fun c => c <> 117%N) (ws1 ++ str_of_int n ++ ws2).
Proof.
  intros H1 H2.
  assert (Hb : forall ws, blank ws -> Forall (fun c => c <> 117%N) ws).
  { intros ws Hw. eapply Forall_impl; [|apply (blank_small ws Hw)].
    cbv beta. intros c Hc. lia. }
  apply Forall_app; split; [now apply Hb|].
  apply Forall_app; split; [|now apply Hb].
  eapply Forall_impl; [|apply str_of_int_chars].
  intros c [->|Hc]; lia.
Qed.

(** ** Traces *)

Lemma posts_app (t1 t2 : list event) : posts (t1 ++ t2) = posts t1 ++ posts t2.
Proof. apply filter_app. Qed.

Lemma posts_parse_webhook (L : Libs) (raw : bytes) :
  posts (snd (parse_webhook L raw)) = [].
Proof.
  rewrite parse_webhook_eq.
  destruct (decode raw) as [text|]; [|reflexivity].
  destruct (loads (recursion_limit L) text) as [v|e|l]; [|reflexivity ..].
  destruct (fst (new_CryptoPayWebhook L v)) as [w|e]; [|reflexivity].
  destruct (forallb encodable (str_fields w)); reflexivity.
Qed.

Lemma posts_extract_chat_id (L : Libs) (o : option str) :
  posts (snd (extract_chat_id L o)) = [].
Proof.
  rewrite extract_chat_id_eq.
  destruct (truthy o); [|reflexivity].
  destruct (contains _ _); [|reflexivity].
  destruct (int _ _); reflexivity.
Qed.

(** The handler with the module of [config.py], once the body has parsed:
    its answer, and the calls of the Telegram API it makes. *)
Lemma handler_after_parse (L : Libs) (env : environ) (net : network) raw hdr w :
  fst (parse_webhook L raw) = Return w ->
  let p := payload w in
  let c := fst (extract_chat_id L (custom_payload p)) in
  match c with
  | Return (Some n) =>
    if (n =? 0)%Z then
      fst (crypto_pay_webhook_handler L (config env) net raw hdr)
      = Return soft_error
      /\ posts (snd (crypto_pay_webhook_handler L (config env) net raw hdr)) = []
    else
      fst (crypto_pay_webhook_handler L (config env) net raw hdr)
      = Return processed
      /\ posts (snd (crypto_pay_webhook_handler L (config env) net raw hdr))
         = [Post (send_message_url (env "TELEGRAM_BOT_TOKEN"%string)) n
                 (notification_text L (invoice_id p) (status p)
                                    (amount p) (asset p))
                 (u "HTML")]
  | Return None =>
    fst (crypto_pay_webhook_handler L (config env) net raw hdr)
    = Return soft_error
    /\ posts (snd (crypto_pay_webhook_handler L (config env) net raw hdr)) = []
  | Raise _ => False
  end.
Proof.
  intros Hp. cbv zeta.
  destruct (parse_webhook_decodes L raw w Hp) as [[text Hd] Hp'].
  pose proof (posts_extract_chat_id L (custom_payload (payload w))) as Hx.
  destruct (extract_chat_id_total L (custom_payload (payload w)))
    as (c & t1 & He & _).
  rewrite handler_eq, Hd, Hp'. cbv zeta. rewrite He in *. cbn [fst snd] in *.
  destruct c as [n|]; cbn [not_chat_id].
  - destruct (n =? 0)%Z.
    + split; [reflexivity|]. cbn [snd].
      rewrite !posts_app, Hx. reflexivity.
    + rewrite (send_telegram_message_eq (config env) net _ _ _ (config_token env)).
      cbv zeta. destruct (client_or_server_error _); cbn [fst snd];
        (split; [reflexivity|]); rewrite !posts_app, Hx; reflexivity.
  - split; [reflexivity|]. cbn [snd]. rewrite !posts_app, Hx. reflexivity.
Qed.

Lemma handler_parse_fails (L : Libs) (cfg : module) (net : network) raw hdr e t :
  parse_webhook L raw = (Raise e, t) ->
  (exists e', fst (crypto_pay_webhook_handler L cfg net raw hdr) = Raise e')
  /\ posts (snd (crypto_pay_webhook_handler L cfg net raw hdr)) = [].
Proof.
  intros Hp. pose proof (posts_parse_webhook L raw) as Hpost.
  rewrite handler_eq.
  destruct (decode raw) as [text|] eqn:Hd.
  - rewrite Hp in *. cbn [fst snd] in *.
    split; [now exists e|]. rewrite posts_app, Hpost. reflexivity.
  - split; [eexists; reflexivity | reflexivity].
Qed.

(** The extractor on the marker and a rendered integer. *)
Lemma extract_reads_rendered_id_aux (L : Libs) (p ws1 ws2 : str) (n : Z) :
  blank ws1 -> blank ws2 ->
  extract_chat_id L (Some (p ++ marker ++ ws1 ++ str_of_int n ++ ws2))
  = if (digit_count n <=? 4300)%N
    then (Return (Some n), [Log INFO ExtractedChatId])
    else (Return None, [Log ERROR ChatIdParseFailed]).
Proof.
  intros H1 H2. rewrite extract_chat_id_eq.
  assert (Ht : truthy (Some (p ++ marker ++ ws1 ++ str_of_int n ++ ws2)) = true)
    by (destruct p; reflexivity).
  rewrite Ht. cbn [the]. rewrite contains_app_mid.
  rewrite split_marker_last
    by (apply last_occurrence_without_u, number_without_u; assumption).
  rewrite int_str by assumption.
  destruct (digit_count n <=? 4300)%N; reflexivity.
Qed.

(** ** The size and the alphabet of a digest *)

Lemma round_length (st : list Z) (kw : Z * Z) :
  List.length (round st kw) = List.length st.
Proof.
  unfold round.
  destruct st as [|a [|b0 [|c [|d [|e [|f [|g [|h [|i st]]]]]]]]]; reflexivity.
Qed.

Lemma fold_round_length (l : list (Z * Z)) (st : list Z) :
  List.length (fold_left round l st) = List.length st.
Proof.
  revert st; induction l as [|kw l IH]; intros st; [reflexivity|].
  cbn [fold_left]. now rewrite IH, round_length.
Qed.

Lemma compress_length (h block : list Z) :
  List.length (compress h block) = List.length h.
Proof.
  unfold compress.
  rewrite length_map, length_combine, fold_round_length. lia.
Qed.

Lemma absorb_length (ws : list Z) : forall h cur n,
  List.length (absorb h cur n ws) = List.length h.
Proof.
  induction ws as [|w ws IH]; intros h cur n; [reflexivity|].
  cbn [absorb]. destruct (Nat.eqb n 15); rewrite IH;
    [apply compress_length | reflexivity].
Qed.

Lemma flat_map_length_const {A B} (f : A -> list B) (k : nat) (l : list A) :
  (forall a, List.length (f a) = k) ->
  List.length (flat_map f l) = (k * List.length l)%nat.
Proof.
  intros Hf. induction l as [|a l IH]; [cbn; lia|].
  cbn [flat_map List.length]. rewrite length_app, Hf, IH. lia.
Qed.

Lemma be_bytes_length (n : nat) (x : Z) : List.length (be_bytes n x) = n.
Proof.
  unfold be_bytes. now rewrite length_map, length_rev, length_seq.
Qed.

(** A SHA-256 digest is 32 octets. *)
Lemma sha256_octets_length (msg : list Z) :
  List.length (sha256_octets msg) = 32%nat.
Proof.
  unfold sha256_octets.
  rewrite (flat_map_length_const (be_bytes 4) 4)
    by (intros a; apply be_bytes_length).
  now rewrite absorb_length.
Qed.

Lemma hexlify_length (x : bytes) :
  List.length (hexlify x) = (2 * List.length x)%nat.
Proof.
  unfold hexlify. apply flat_map_length_const. reflexivity.
Qed.

Lemma hmac_sha256_hexdigest_length (key msg : bytes) :
  List.length (hmac_sha256_hexdigest key msg) = 64%nat.
Proof.
  unfold hmac_sha256_hexdigest, hmac_sha256, of_octets.
  now rewrite hexlify_length, length_map, sha256_octets_length.
Qed.

Lemma hex_digit_lower (n : N) :
  (n < 16)%N -> is_lower_hex (hex_digit n) = true.
Proof.
  intros H. unfold hex_digit, is_lower_hex.
  destruct (n <? 10)%N eqn:E.
  - apply N.ltb_lt in E. apply orb_true_iff. left.
    apply andb_true_iff. split; apply N.leb_le; lia.
  - apply N.ltb_ge in E. apply orb_true_iff. right.
    apply andb_true_iff. split; apply N.leb_le; lia.
Qed.

Lemma hexlify_lower (x : bytes) : forallb is_lower_hex (hexlify x) = true.
Proof.
  unfold hexlify. induction x as [|c x IH]; [reflexivity|].
  cbn [flat_map app forallb].
  pose proof (Byte.to_N_bounded c) as Hc.
  rewrite !hex_digit_lower, IH; [reflexivity| |].
  - apply N.mod_lt; lia.
  - apply N.Div0.div_lt_upper_bound; lia.
Qed.

(** ** Validation, read backwards *)

Lemma ap_inr_inv {A B} (f : V (A -> B)) (x : V A) (y : B) :
  ap f x = inr y -> exists g a, f = inr g /\ x = inr a /\ y = g a.
Proof.
  destruct f as [e|g], x as [e'|a]; try discriminate.
  intros [= <-]. now exists g, a.
Qed.

Lemma required_inr_inv {A} (validate : value -> option A) key (d : dict) a :
  required (scalar validate) key d = inr a ->
  exists v, dict_get (u key) d = Some v /\ validate v = Some a.
Proof.
  unfold required, scalar.
  destruct (dict_get (u key) d) as [v|]; [|discriminate].
  destruct (validate v) as [a'|] eqn:E; cbn [at_field]; [|discriminate].
  intros [= <-]. now exists v.
Qed.

Lemma optional_inr_inv {A} (validate : value -> option A) key (d : dict) o :
  optional (scalar validate) key d = inr o ->
  o = match dict_get (u key) d with
      | None | Some JNone => None
      | Some v => validate v
      end
  /\ (o = None -> dict_get (u key) d = None \/ dict_get (u key) d = Some JNone).
Proof.
  unfold optional, scalar.
  destruct (dict_get (u key) d) as [v|]; [|intros [= <-]; auto].
  destruct v; try (intros [= <-]; auto);
    match goal with
    | |- context [validate ?v] => destruct (validate v) as [a|]
    end; cbn [at_field]; try discriminate; intros [= <-];
    (split; [reflexivity|discriminate]).
Qed.

Lemma dict_get_set_other (k k' : str) (v : value) (d : dict) :
  k' <> k -> dict_get k' (dict_set k v d) = dict_get k' d.
Proof.
  intros Hk. induction d as [|[k0 v0] d IH]; cbn [dict_set dict_get].
  - now rewrite (str_eqb_neq _ _ Hk).
  - destruct (str_eqb k k0) eqn:E; cbn [dict_get].
    + apply str_eqb_eq in E. subst k0. now rewrite (str_eqb_neq _ _ Hk).
    + now rewrite IH.
Qed.

Lemma dict_get_set_same (k : str) (v : value) (d : dict) :
  dict_get k (dict_set k v d) = Some v.
Proof.
  induction d as [|[k0 v0] d IH]; cbn [dict_set dict_get].
  - now rewrite str_eqb_refl.
  - destruct (str_eqb k k0) eqn:E; cbn [dict_get]; [now rewrite str_eqb_refl|].
    now rewrite E.
Qed.

Lemma required_model_inv {A} (fields : dict -> V A) key (d : dict) a :
  required (model fields) key d = inr a ->
  exists inv, dict_get (u key) d = Some (JDict inv) /\ fields inv = inr a.
Proof.
  unfold required, model.
  destruct (dict_get (u key) d) as [v|]; [|discriminate].
  destruct v; cbn [at_field]; try discriminate.
  destruct (fields members) as [e|a'] eqn:E; cbn [at_field]; [discriminate|].
  intros [= <-]. now exists members.
Qed.

Lemma skip_ws_blank (s : str) : json_blank s -> skip_ws s = [].
Proof.
  intros H. induction H as [|c s Hc _ IH]; [reflexivity|].
  cbn [skip_ws]. now rewrite Hc.
Qed.

(** ** [split] and [join] *)

Lemma join_cons (sep x : str) (rest : list str) :
  rest <> [] -> join sep (x :: rest) = x ++ sep ++ join sep rest.
Proof. destruct rest; [congruence | reflexivity]. Qed.

Lemma startswith_skipn (p s : str) :
  startswith p s = true -> p ++ skipn (List.length p) s = s.
Proof.
  intros H. destruct (startswith_inv p s H) as [r ->].
  rewrite <- (Nat.add_0_r (List.length p)), skipn_app_length. reflexivity.
Qed.

Lemma join_split_from (sep : str) :
  sep <> [] ->
  forall s skip cur,
    join sep (split_from sep skip cur s) = rev cur ++ skipn skip s.
Proof.
  intros Hsep. induction s as [|c s IH]; intros skip cur.
  - cbn [split_from join]. now rewrite skipn_nil, app_nil_r.
  - cbn [split_from]. destruct skip as [|k].
    + destruct (startswith sep (c :: s)) eqn:E.
      * rewrite join_cons by apply split_from_not_nil.
        rewrite IH. cbn [rev app skipn]. f_equal.
        transitivity (sep ++ skipn (List.length sep) (c :: s));
          [|apply startswith_skipn; exact E].
        f_equal. destruct sep as [|a sep']; [congruence|].
        cbn [List.length skipn Nat.sub]. try rewrite Nat.sub_0_r. reflexivity.
      * rewrite IH. cbn [rev skipn]. now rewrite <- app_assoc.
    + now rewrite IH.
Qed.

End More_facts.

(* ================================================================== *)
(** * Further properties of the request, end to end *)
(* ================================================================== *)

Module Coverage.
Import Py Json Models Hashlib Config Main Spec Samples Observe.
Import Py_facts Main_facts More_facts.
Local Open Scope Z_scope.

(** ** From the custom payload to the chat *)

(** X1.  The extractor reads back a chat id written in decimal, up to the
    4300 digits that [int] accepts: on a custom payload that ends in the
    marker and [str(n)], with ASCII white space allowed around the number
    and any text before the marker, it returns [n], negative numbers
    included, when [n] has at most 4300 digits; when [n] has more, [int]
    raises, the failure is logged and no recipient is returned. *)
Theorem extract_reads_rendered_id (L : Libs) (p ws1 ws2 : str) (n : Z) :
  blank ws1 -> blank ws2 ->
  extract_chat_id L (Some (p ++ marker ++ ws1 ++ str_of_int n ++ ws2))
  = if (digit_count n <=? 4300)%N
    then (Return (Some n), [Log INFO ExtractedChatId])
    else (Return None, [Log ERROR ChatIdParseFailed]).
Proof.
  intros H1 H2. rewrite extract_chat_id_eq.
  assert (Ht : truthy (Some (p ++ marker ++ ws1 ++ str_of_int n ++ ws2)) = true)
    by (destruct p; reflexivity).
  rewrite Ht. cbn [the]. rewrite contains_app_mid.
  rewrite split_marker_last
    by (apply last_occurrence_without_u, number_without_u; assumption).
  rewrite int_str by assumption.
  destruct (digit_count n <=? 4300)%N; reflexivity.
Qed.

Lemma extract_reads_rendered_id_witness :
  blank [32%N] /\ blank [9%N; 10%N]
  /\ extract_chat_id strict_libs
       (Some (u "order 9;" ++ marker ++ [32%N] ++ str_of_int (-100200)
                ++ [9%N; 10%N]))
     = (Return (Some (-100200)), [Log INFO ExtractedChatId]).
Proof.
  assert (H1 : blank [32%N]) by (repeat constructor).
  assert (H2 : blank [9%N; 10%N]) by (repeat constructor).
  split; [exact H1|]. split; [exact H2|].
  exact (extract_reads_rendered_id strict_libs (u "order 9;") [32%N]
           [9%N; 10%N] (-100200) H1 H2).
Defined.

(** X2.  A request that parses and whose custom payload ends in the marker
    and a decimal chat id other than 0, of at most 4300 digits, is answered
    200 with the body
    (status "ok"), and the handler calls the Telegram API exactly once: at
    the URL built from [TELEGRAM_BOT_TOKEN], for that chat id, with the
    notification text of the invoice and the parse mode HTML. *)
Theorem rendered_id_is_notified
        (L : Libs) (env : environ) (net : network) raw hdr w
        (p ws1 ws2 : str) (n : Z) :
  fst (parse_webhook L raw) = Return w ->
  custom_payload (payload w)
  = Some (p ++ marker ++ ws1 ++ str_of_int n ++ ws2) ->
  blank ws1 -> blank ws2 -> n <> 0 -> (digit_count n <=? 4300)%N = true ->
  respond (fst (crypto_pay_webhook_handler L (config env) net raw hdr))
  = JSONResponse 200 processed
  /\ posts (snd (crypto_pay_webhook_handler L (config env) net raw hdr))
     = [Post (send_message_url (env "TELEGRAM_BOT_TOKEN"%string)) n
             (notification_text L (invoice_id (payload w)) (status (payload w))
                                (amount (payload w)) (asset (payload w)))
             (u "HTML")].
Proof.
  intros Hp Hc H1 H2 Hn Hdigits.
  pose proof (handler_after_parse L env net raw hdr w Hp) as H.
  cbv zeta in H.
  rewrite Hc in H.
  rewrite (extract_reads_rendered_id_aux L p ws1 ws2 n H1 H2), Hdigits in H.
  cbn [fst] in H. apply Z.eqb_neq in Hn. rewrite Hn in H.
  destruct H as [-> ->]. split; reflexivity.
Qed.

Lemma rendered_id_is_notified_witness :
  fst (parse_webhook strict_libs body_group)
  = Return (webhook_with (u "expired")
              (Some (u "order 9;" ++ marker ++ [32%N] ++ str_of_int (-100200)
                       ++ [32%N])))
  /\ posts (snd (crypto_pay_webhook_handler strict_libs (config no_env) net_down
                   body_group None))
     = [Post (u "https://api.telegram.org/botNone/sendMessage") (-100200)
             (u "⌛️ Срок действия вашего платежа (Инвойс ID: 7) истек.")
             (u "HTML")].
Proof.
  assert (Hp : fst (parse_webhook strict_libs body_group)
               = Return (webhook_with (u "expired")
                           (Some (u "order 9;" ++ marker ++ [32%N]
                                    ++ str_of_int (-100200) ++ [32%N]))))
    by (vm_compute; reflexivity).
  split; [exact Hp|].
  refine (proj2 (rendered_id_is_notified strict_libs no_env net_down body_group
                   None _ (u "order 9;") [32%N] [32%N] (-100200)
                   Hp eq_refl _ _ _ _)).
  - repeat constructor.
  - repeat constructor.
  - discriminate.
  - reflexivity.
Defined.

(** ** What the provider and the chat see *)

(** X3.  A request whose body parses is always answered 200, whatever the
    custom payload holds and whatever the network does: with the body
    (status "ok") when the Telegram API was called, with the soft-error
    body when it was not. *)
Theorem parsed_request_is_acknowledged
        (L : Libs) (env : environ) (net : network) raw hdr w :
  fst (parse_webhook L raw) = Return w ->
  respond (fst (crypto_pay_webhook_handler L (config env) net raw hdr))
  = JSONResponse 200
      (match posts (snd (crypto_pay_webhook_handler L (config env) net raw hdr))
       with
       | [] => soft_error
       | _ :: _ => processed
       end).
Proof.
  intros Hp.
  pose proof (handler_after_parse L env net raw hdr w Hp) as H.
  cbv zeta in H.
  destruct (fst (extract_chat_id L (custom_payload (payload w))))
    as [[n|]|e]; [|now destruct H as [-> ->]|contradiction].
  destruct (n =? 0); now destruct H as [-> ->].
Qed.

Lemma parsed_request_is_acknowledged_witness :
  fst (parse_webhook strict_libs body_paid) = Return webhook_paid
  /\ respond (fst (crypto_pay_webhook_handler strict_libs (config no_env)
                     net_down body_paid None))
     = JSONResponse 200 processed.
Proof.
  assert (Hp : fst (parse_webhook strict_libs body_paid) = Return webhook_paid)
    by (vm_compute; reflexivity).
  split; [exact Hp|].
  exact (parsed_request_is_acknowledged strict_libs no_env net_down body_paid
           None webhook_paid Hp).
Defined.

(** X4.  The handler calls the Telegram API at most once per request, and
    exactly once when, and only when, it answers 200 with the body
    (status "ok", message "Webhook processed"). *)
Theorem one_post_per_processed_request
        (L : Libs) (env : environ) (net : network) raw hdr :
  (List.length
     (posts (snd (crypto_pay_webhook_handler L (config env) net raw hdr)))
   <= 1)%nat
  /\ (respond (fst (crypto_pay_webhook_handler L (config env) net raw hdr))
      = JSONResponse 200 processed
      <-> List.length
            (posts (snd (crypto_pay_webhook_handler L (config env) net raw hdr)))
          = 1%nat).
Proof.
  destruct (parse_webhook L raw) as [[w|e] t] eqn:Hp.
  - assert (Hp' : fst (parse_webhook L raw) = Return w) by now rewrite Hp.
    pose proof (handler_after_parse L env net raw hdr w Hp') as H.
    cbv zeta in H.
    destruct (fst (extract_chat_id L (custom_payload (payload w))))
      as [[n|]|e0]; [| |contradiction].
    + destruct (n =? 0); destruct H as [-> ->]; cbn [List.length respond];
        (split; [lia|]); split; try reflexivity; try discriminate; try lia.
    + destruct H as [-> ->]. cbn [List.length respond].
      split; [lia|]. split; discriminate.
  - destruct (handler_parse_fails L (config env) net raw hdr e t Hp)
      as [[e' ->] ->].
    cbn [List.length]. split; [lia|].
    split; [|discriminate]. destruct e'; discriminate.
Qed.

(** X5.  The answer of the handler depends on the body alone: not on the
    signature header, not on the environment, not on the network.  Its
    trace depends on the environment through [TELEGRAM_BOT_TOKEN] only:
    [CRYPTO_PAY_API_TOKEN] and every other variable are never read. *)
Theorem only_the_bot_token_is_read
        (L : Libs) (env env' : environ) (net net' : network) raw hdr hdr' :
  respond (fst (crypto_pay_webhook_handler L (config env) net raw hdr))
  = respond (fst (crypto_pay_webhook_handler L (config env') net' raw hdr'))
  /\ (env "TELEGRAM_BOT_TOKEN"%string = env' "TELEGRAM_BOT_TOKEN"%string ->
      crypto_pay_webhook_handler L (config env) net raw hdr
      = crypto_pay_webhook_handler L (config env') net raw hdr').
Proof.
  split.
  - rewrite !handler_eq.
    destruct (decode raw) as [text|]; [|reflexivity].
    destruct (parse_webhook L raw) as [[w|e] t]; [|reflexivity].
    cbv zeta.
    destruct (extract_chat_id L _) as [[c|e] t1]; [|reflexivity].
    destruct (not_chat_id c); [reflexivity|].
    rewrite (send_telegram_message_eq (config env) net _ _ _ (config_token env)).
    rewrite (send_telegram_message_eq (config env') net' _ _ _ (config_token env')).
    cbv zeta.
    do 2 destruct (client_or_server_error _); reflexivity.
  - intros Htok. rewrite !handler_eq.
    destruct (decode raw) as [text|]; [|reflexivity].
    destruct (parse_webhook L raw) as [[w|e] t]; [|reflexivity].
    cbv zeta.
    destruct (extract_chat_id L _) as [[c|e] t1]; [|reflexivity].
    destruct (not_chat_id c); [reflexivity|].
    rewrite (send_telegram_message_eq (config env) net _ _ _ (config_token env)).
    rewrite (send_telegram_message_eq (config env') net _ _ _ (config_token env')).
    now rewrite Htok.
Qed.

Lemma only_the_bot_token_is_read_witness :
  no_env "TELEGRAM_BOT_TOKEN"%string = env_secret "TELEGRAM_BOT_TOKEN"%string
  /\ crypto_pay_webhook_handler strict_libs (config no_env) net_ok body_paid None
     = crypto_pay_webhook_handler strict_libs (config env_secret) net_ok
         body_paid (Some (u "00")).
Proof.
  split; [reflexivity|].
  exact (proj2 (only_the_bot_token_is_read strict_libs no_env env_secret
                  net_ok net_ok body_paid None (Some (u "00"))) eq_refl).
Defined.

(** X6.  Every notification names the invoice: whatever the status, the
    amount and the asset, the text holds the invoice id in decimal. *)
Theorem notification_names_invoice
        (L : Libs) (id : Z) (status : str) (amount asset : option str) :
  contains (str_of_int id) (notification_text L id status amount asset) = true.
Proof.
  unfold notification_text.
  destruct (str_eqb status (u "paid")).
  - destruct (truthy amount && truthy asset); apply contains_iff.
    + exists (u "✅ Ваш платеж на сумму " ++ the amount ++ u " " ++ the asset
                ++ u " (Инвойс ID: "). eexists.
      rewrite <- !app_assoc. reflexivity.
    + eexists. eexists. reflexivity.
  - destruct (str_eqb status (u "expired")); apply contains_iff;
      eexists; eexists; reflexivity.
Qed.

(** ** The signature verifier, given a module that binds the secret *)

(** X7.  In a module that binds the secret, [verify_signature] never
    raises: it returns a boolean and writes one log record.  What goes
    wrong on the way is a failed verification: a secret that cannot be
    encoded in UTF-8, or a header with a non-ASCII character, gives
    [False] and an error record. *)
Theorem verify_signature_swallows_errors
        (cfg : module) (secret : option str) raw (hdr : option str) :
  lookup "CRYPTO_PAY_WEBHOOK_SECRET" cfg = Some secret ->
  (exists ok lvl what,
      verify_signature cfg raw hdr = (Return ok, [Log lvl what]))
  /\ (truthy secret = true -> truthy hdr = true ->
      encode (the secret) = None \/ is_ascii (the hdr) = false ->
      verify_signature cfg raw hdr = (Return false, [Log ERROR SignatureError])).
Proof.
  intros Hb. rewrite (verify_signature_bound cfg secret raw hdr Hb). split.
  - destruct (negb (truthy secret) || negb (truthy hdr));
      [now eexists _, _, _|].
    destruct (encode (the secret)) as [key|]; [|now eexists _, _, _].
    destruct (is_ascii (the hdr)); [|now eexists _, _, _].
    destruct (str_eqb _ _); now eexists _, _, _.
  - intros -> -> [He | Hh]; cbn [negb orb].
    + now rewrite He.
    + rewrite Hh. destruct (encode (the secret)); reflexivity.
Qed.

Lemma verify_signature_swallows_errors_witness :
  lookup "CRYPTO_PAY_WEBHOOK_SECRET" config_bad_secret
  = Some (Some [107%N; 56448%N])
  /\ encode [107%N; 56448%N] = None
  /\ verify_signature config_bad_secret fox (Some fox_signature)
     = (Return false, [Log ERROR SignatureError]).
Proof.
  split; [reflexivity|]. split; [reflexivity|].
  exact (proj2 (verify_signature_swallows_errors config_bad_secret
                  (Some [107%N; 56448%N]) fox (Some fox_signature) eq_refl)
           eq_refl eq_refl (or_introl eq_refl)).
Defined.

(** X8.  In a module that binds a secret, a header that [verify_signature]
    accepts is 64 characters long and made of lower-case hexadecimal
    digits: a header of another length, or with an upper-case digit, is
    never accepted. *)
Theorem accepted_signature_is_a_hex_digest
        (cfg : module) (secret hdr : str) raw :
  lookup "CRYPTO_PAY_WEBHOOK_SECRET" cfg = Some (Some secret) ->
  secret <> [] -> hdr <> [] ->
  fst (verify_signature cfg raw (Some hdr)) = Return true ->
  List.length hdr = 64%nat /\ forallb is_lower_hex hdr = true.
Proof.
  intros Hb Hs Hh.
  rewrite (verify_signature_bound cfg (Some secret) raw (Some hdr) Hb).
  rewrite (truthy_some secret Hs), (truthy_some hdr Hh). cbn [negb orb the].
  destruct (encode secret) as [key|]; [|discriminate].
  destruct (is_ascii hdr); [|discriminate].
  destruct (str_eqb (hmac_sha256_hexdigest key raw) hdr) eqn:E; [|discriminate].
  intros _. apply str_eqb_eq in E. subst hdr. split.
  - apply hmac_sha256_hexdigest_length.
  - apply hexlify_lower.
Qed.

Lemma accepted_signature_is_a_hex_digest_witness :
  fst (verify_signature (config_with_secret env_secret) fox (Some fox_signature))
  = Return true
  /\ List.length fox_signature = 64%nat
  /\ forallb is_lower_hex fox_signature = true.
Proof.
  assert (H : fst (verify_signature (config_with_secret env_secret) fox
                                    (Some fox_signature)) = Return true)
    by (vm_compute; reflexivity).
  split; [exact H|].
  refine (accepted_signature_is_a_hex_digest (config_with_secret env_secret)
            (u "key") fox_signature fox eq_refl _ _ H); discriminate.
Defined.

(** ** What the models read *)

(** X9.  A webhook is built only from a body that holds it: when parsing
    succeeds, the body is UTF-8 and a JSON object, the object binds
    [update_id], [update_type], [request_date] and [payload], the last one
    to an object that binds [invoice_id] and [status], each to a value its
    validator turns into the field; and every optional field of the record
    is what the validator makes of its key, or [None] when the key is
    absent or [null], with [custom_payload] read from the key [payload]. *)
Theorem parsed_webhook_comes_from_body (L : Libs) (raw : bytes) w :
  fst (parse_webhook L raw) = Return w ->
  exists text d inv,
    decode raw = Some text /\ loads (recursion_limit L) text = Ok (JDict d)
    /\ (exists v, dict_get (u "update_id") d = Some v
                  /\ validate_int L v = Some (update_id w))
    /\ (exists v, dict_get (u "update_type") d = Some v
                  /\ validate_str L v = Some (update_type w))
    /\ (exists v, dict_get (u "request_date") d = Some v
                  /\ validate_str L v = Some (request_date w))
    /\ dict_get (u "payload") d = Some (JDict inv)
    /\ (exists v, dict_get (u "invoice_id") inv = Some v
                  /\ validate_int L v = Some (invoice_id (payload w)))
    /\ (exists v, dict_get (u "status") inv = Some v
                  /\ validate_str L v = Some (status (payload w)))
    /\ amount (payload w)
       = match dict_get (u "amount") inv with
         | None | Some JNone => None
         | Some v => validate_str L v
         end
    /\ asset (payload w)
       = match dict_get (u "asset") inv with
         | None | Some JNone => None
         | Some v => validate_str L v
         end
    /\ custom_payload (payload w)
       = match dict_get (u "payload") inv with
         | None | Some JNone => None
         | Some v => validate_str L v
         end.
Proof.
  rewrite parse_webhook_eq.
  destruct (decode raw) as [text|] eqn:Hd; [|discriminate].
  destruct (loads (recursion_limit L) text) as [v|e|l] eqn:Hl;
    [|discriminate ..].
  unfold new_CryptoPayWebhook.
  destruct v; try discriminate.
  destruct (validate_CryptoPayWebhook L members) as [errs|w'] eqn:Hv;
    [discriminate|].
  cbn [fst ret]. destruct (forallb encodable (str_fields w')); [|discriminate].
  cbn [fst]. intros [= ->].
  unfold validate_CryptoPayWebhook in Hv.
  apply ap_inr_inv in Hv as (g4 & p & Hv & H4 & ->).
  apply ap_inr_inv in Hv as (g3 & rd & Hv & H3 & ->).
  apply ap_inr_inv in Hv as (g2 & ut & Hv & H2 & ->).
  apply ap_inr_inv in Hv as (g1 & ui & Hv & H1 & ->).
  injection Hv as <-.
  apply required_model_inv in H4 as (inv & H4 & Hi).
  unfold validate_InvoicePayload in Hi.
  apply ap_inr_inv in Hi as (f9 & cp & Hi & I9 & ->).
  apply ap_inr_inv in Hi as (f8 & de & Hi & I8 & ->).
  apply ap_inr_inv in Hi as (f7 & fc & Hi & I7 & ->).
  apply ap_inr_inv in Hi as (f6 & fa & Hi & I6 & ->).
  apply ap_inr_inv in Hi as (f5 & fe & Hi & I5 & ->).
  apply ap_inr_inv in Hi as (f4 & ass & Hi & I4 & ->).
  apply ap_inr_inv in Hi as (f3 & am & Hi & I3 & ->).
  apply ap_inr_inv in Hi as (f2 & st & Hi & I2 & ->).
  apply ap_inr_inv in Hi as (f1 & ii & Hi & I1 & ->).
  injection Hi as <-.
  exists text, members, inv. cbn.
  split; [reflexivity|]. split; [exact Hl|].
  split; [exact (required_inr_inv _ _ _ _ H1)|].
  split; [exact (required_inr_inv _ _ _ _ H2)|].
  split; [exact (required_inr_inv _ _ _ _ H3)|].
  split; [exact H4|].
  split; [exact (required_inr_inv _ _ _ _ I1)|].
  split; [exact (required_inr_inv _ _ _ _ I2)|].
  split; [exact (proj1 (optional_inr_inv _ _ _ _ I3))|].
  split; [exact (proj1 (optional_inr_inv _ _ _ _ I4))|].
  exact (proj1 (optional_inr_inv _ _ _ _ I9)).
Qed.

Lemma parsed_webhook_comes_from_body_witness :
  fst (parse_webhook strict_libs body_paid) = Return webhook_paid
  /\ exists text d inv,
       decode body_paid = Some text
       /\ loads (recursion_limit strict_libs) text = Ok (JDict d)
       /\ dict_get (u "payload") d = Some (JDict inv)
       /\ custom_payload (payload webhook_paid)
          = match dict_get (u "payload") inv with
            | None | Some JNone => None
            | Some v => validate_str strict_libs v
            end.
Proof.
  assert (Hp : fst (parse_webhook strict_libs body_paid) = Return webhook_paid)
    by (vm_compute; reflexivity).
  split; [exact Hp|].
  destruct (parsed_webhook_comes_from_body strict_libs body_paid webhook_paid Hp)
    as (text & d & inv & H1 & H2 & _ & _ & _ & H6 & _ & _ & _ & _ & H11).
  exists text, d, inv. repeat (split; [assumption|]). exact H11.
Defined.

(** X10.  A key the model does not read changes nothing: binding any key
    other than the nine that [InvoicePayload] reads, [custom_payload]
    among them, leaves the result of validation as it was. *)
Theorem unknown_invoice_key_is_ignored
        (L : Libs) (k : str) (v : value) (d : dict) :
  Forall (fun key => u key <> k) invoice_keys ->
  validate_InvoicePayload L (dict_set k v d) = validate_InvoicePayload L d.
Proof.
  intros H. unfold invoice_keys in H.
  repeat match goal with
         | H : Forall _ (_ :: _) |- _ =>
           let H1 := fresh "K" in
           apply Forall_cons_iff in H as [H1 H]
         end.
  unfold validate_InvoicePayload, required, optional.
  now rewrite !dict_get_set_other by assumption.
Qed.

Lemma unknown_invoice_key_is_ignored_witness :
  Forall (fun key => u key <> u "custom_payload") invoice_keys
  /\ validate_InvoicePayload strict_libs
       (dict_set (u "custom_payload") (JStr (u "user_id:1"))
                 [(u "invoice_id", JInt 7); (u "status", JStr (u "paid"))])
     = validate_InvoicePayload strict_libs
         [(u "invoice_id", JInt 7); (u "status", JStr (u "paid"))].
Proof.
  assert (H : Forall (fun key => u key <> u "custom_payload") invoice_keys)
    by (repeat constructor; discriminate).
  split; [exact H|].
  exact (unknown_invoice_key_is_ignored strict_libs (u "custom_payload")
           (JStr (u "user_id:1"))
           [(u "invoice_id", JInt 7); (u "status", JStr (u "paid"))] H).
Defined.

(** ** The two kinds of 400 *)

(** X11.  For a body that is UTF-8, the handler answers 400 with the detail
    "Invalid JSON payload" when, and only when, [json.loads] raises
    [JSONDecodeError]: a validation failure has another detail, and so has
    a text that [json.loads] gives up on without calling it malformed,
    because it is nested deeper than the interpreter has room for
    ([RecursionError]) or holds an integer of more than 4300 digits
    ([ValueError]): the detail is then that of the structure kind. *)
Theorem invalid_json_detail_iff
        (L : Libs) (cfg : module) (net : network) raw hdr text :
  decode raw = Some text ->
  (respond (fst (crypto_pay_webhook_handler L cfg net raw hdr))
   = ErrorResponse 400 (u "Invalid JSON payload")
   <-> exists e, loads (recursion_limit L) text = Err e)
  /\ (forall l,
        loads (recursion_limit L) text = Exceeded l ->
        respond (fst (crypto_pay_webhook_handler L cfg net raw hdr))
        = ErrorResponse 400 (u "Invalid payload structure: "
                               ++ exn_str L (limit_error l))).
Proof.
  intros Hd. rewrite handler_eq, Hd, parse_webhook_eq, Hd.
  destruct (loads (recursion_limit L) text) as [v|e|l].
  - split; [|discriminate].
    split; [|intros [e [=]]].
    destruct (fst (new_CryptoPayWebhook L v)) as [w|e].
    + destruct (forallb encodable (str_fields w)).
      * cbv zeta.
        destruct (extract_chat_id_total L (custom_payload (payload w)))
          as (c & t1 & -> & _).
        destruct (not_chat_id c); [discriminate|].
        destruct (lookup "TELEGRAM_BOT_TOKEN" cfg) as [token|] eqn:Htok.
        -- rewrite (send_telegram_message_eq cfg net _ _ _ Htok). cbv zeta.
           destruct (client_or_server_error _); discriminate.
        -- rewrite (send_telegram_message_unbound cfg net _ _ Htok).
           discriminate.
      * cbn [fst respond]. eval_u. cbn [app]. discriminate.
    + cbn [fst respond]. eval_u. cbn [app]. discriminate.
  - split; [|discriminate].
    split; [now exists e | reflexivity].
  - split.
    + split; [|intros [e [=]]].
      cbn [fst respond]. eval_u. cbn [app]. discriminate.
    + intros l' [= <-]. reflexivity.
Qed.

Lemma invalid_json_detail_iff_witness :
  decode (b "{") = Some (u "{")
  /\ (exists e, loads (recursion_limit strict_libs) (u "{") = Err e)
  /\ respond (fst (crypto_pay_webhook_handler strict_libs (config no_env) net_ok
                     (b "{") None))
     = ErrorResponse 400 (u "Invalid JSON payload").
Proof.
  assert (Hd : decode (b "{") = Some (u "{")) by reflexivity.
  assert (He : exists e, loads (recursion_limit strict_libs) (u "{") = Err e)
    by (exists ExpectingPropertyName; reflexivity).
  split; [exact Hd|]. split; [exact He|].
  exact (proj2 (proj1 (invalid_json_detail_iff strict_libs (config no_env)
                         net_ok (b "{") None (u "{") Hd)) He).
Defined.

(** X12.  A body that is UTF-8 and JSON but not an object (an array, a
    string, a number, a boolean, [null]) is answered 400 with the detail of
    the structure kind, the text being that of a [TypeError]; nothing is
    sent. *)
Theorem non_object_body_is_a_structure_error
        (L : Libs) (cfg : module) (net : network) raw hdr text v :
  decode raw = Some text -> loads (recursion_limit L) text = Ok v ->
  (forall d, v <> JDict d) ->
  respond (fst (crypto_pay_webhook_handler L cfg net raw hdr))
  = ErrorResponse 400 (u "Invalid payload structure: " ++ exn_str L TypeError)
  /\ posts (snd (crypto_pay_webhook_handler L cfg net raw hdr)) = [].
Proof.
  intros Hd Hl Hv.
  rewrite handler_eq, Hd, parse_webhook_eq, Hd, Hl.
  destruct v; try (split; reflexivity).
  now elim (Hv members).
Qed.

Lemma non_object_body_is_a_structure_error_witness :
  decode (b "[1, 2]") = Some (u "[1, 2]")
  /\ loads (recursion_limit strict_libs) (u "[1, 2]")
     = Ok (JList [JInt 1; JInt 2])
  /\ respond (fst (crypto_pay_webhook_handler strict_libs (config no_env) net_ok
                     (b "[1, 2]") None))
     = ErrorResponse 400
         (u "Invalid payload structure: " ++ exn_str strict_libs TypeError).
Proof.
  assert (Hd : decode (b "[1, 2]") = Some (u "[1, 2]")) by reflexivity.
  assert (Hl : loads (recursion_limit strict_libs) (u "[1, 2]")
               = Ok (JList [JInt 1; JInt 2]))
    by reflexivity.
  split; [exact Hd|]. split; [exact Hl|].
  refine (proj1 (non_object_body_is_a_structure_error strict_libs
                   (config no_env) net_ok (b "[1, 2]") None _ _ Hd Hl _)).
  discriminate.
Defined.

(** X13.  A body that is empty, or holds JSON white space only, or starts
    with a byte order mark, is answered 400 with the detail
    "Invalid JSON payload". *)
Theorem blank_body_is_invalid_json
        (L : Libs) (cfg : module) (net : network) raw hdr text :
  decode raw = Some text ->
  json_blank text \/ startswith [65279%N] text = true ->
  respond (fst (crypto_pay_webhook_handler L cfg net raw hdr))
  = ErrorResponse 400 (u "Invalid JSON payload").
Proof.
  intros Hd Ht.
  assert (Hl : exists e, loads (recursion_limit L) text = Err e).
  { unfold loads. destruct (startswith [65279%N] text) eqn:Eb; [now eexists|].
    destruct Ht as [Ht | Ht]; [|discriminate].
    rewrite (skip_ws_blank text Ht). now eexists. }
  destruct Hl as [e Hl].
  now rewrite handler_eq, Hd, parse_webhook_eq, Hd, Hl.
Qed.

Lemma blank_body_is_invalid_json_witness :
  decode (b "  ") = Some (u "  ") /\ json_blank (u "  ")
  /\ respond (fst (crypto_pay_webhook_handler strict_libs (config no_env) net_ok
                     (b "  ") None))
     = ErrorResponse 400 (u "Invalid JSON payload").
Proof.
  assert (Hd : decode (b "  ") = Some (u "  ")) by reflexivity.
  assert (Hb : json_blank (u "  ")) by (repeat constructor).
  split; [exact Hd|]. split; [exact Hb|].
  exact (blank_body_is_invalid_json strict_libs (config no_env) net_ok
           (b "  ") None (u "  ") Hd (or_introl Hb)).
Defined.

(** ** The notifier *)

(** X14.  The notifier makes one attempt and never raises: whatever the
    network does, its trace holds exactly one call of the Telegram API,
    followed by one information record when it returns true and by two
    error records when it returns false.  When [TELEGRAM_BOT_TOKEN] is not
    set the call still goes out, to the URL with the text [None] in place
    of the token. *)
Theorem notifier_posts_once (env : environ) (net : network) chat text :
  (exists ok logs,
      send_telegram_message (config env) net chat text
      = (Return ok,
         Post (send_message_url (env "TELEGRAM_BOT_TOKEN"%string)) chat text
              (u "HTML") :: logs)
      /\ posts logs = []
      /\ logs = if ok then [Log INFO MessageSent]
                else [Log ERROR MessageFailed; Log ERROR MessageFailedContent])
  /\ (env "TELEGRAM_BOT_TOKEN"%string = None ->
      send_message_url (env "TELEGRAM_BOT_TOKEN"%string)
      = u "https://api.telegram.org/botNone/sendMessage").
Proof.
  split.
  - rewrite (send_telegram_message_eq (config env) net _ chat text
               (config_token env)).
    cbv zeta. destruct (client_or_server_error _);
      eexists _, _; repeat split; reflexivity.
  - intros ->. reflexivity.
Qed.

Lemma notifier_posts_once_witness :
  no_env "TELEGRAM_BOT_TOKEN"%string = None
  /\ send_message_url (no_env "TELEGRAM_BOT_TOKEN"%string)
     = u "https://api.telegram.org/botNone/sendMessage".
Proof.
  split; [reflexivity|].
  exact (proj2 (notifier_posts_once no_env net_ok 1 (u "text")) eq_refl).
Defined.

(** ** The pieces of a custom payload *)

(** X15.  [split] loses nothing: for a separator that is not empty, joining
    the pieces of a text with the separator gives the text back.  So the
    pieces the extractor takes the last of are the text between the
    occurrences of the marker. *)
Theorem join_split (sep s : str) :
  sep <> [] -> join sep (split sep s) = s.
Proof.
  intros Hsep. unfold split.
  now rewrite (join_split_from sep Hsep s 0%nat []).
Qed.

Lemma join_split_witness :
  marker <> []
  /\ join marker (split marker (u "user_id:1,user_id:2"))
     = u "user_id:1,user_id:2".
Proof.
  assert (H : marker <> []) by discriminate.
  split; [exact H|].
  exact (join_split marker (u "user_id:1,user_id:2") H).
Defined.

(** X16.  A custom payload that ends at the marker, with nothing or only
    white space after it, names no recipient: the extractor logs the
    failure of [int], returns [None], and the request that carries it is
    answered with the soft-error body without a call of the Telegram API. *)
Theorem marker_without_id_is_not_found
        (L : Libs) (cfg : module) (net : network) raw hdr w (p ws : str) :
  fst (parse_webhook L raw) = Return w ->
  custom_payload (payload w) = Some (p ++ marker ++ ws) ->
  blank ws ->
  extract_chat_id L (custom_payload (payload w))
  = (Return None, [Log ERROR ChatIdParseFailed])
  /\ respond (fst (crypto_pay_webhook_handler L cfg net raw hdr))
     = JSONResponse 200 soft_error
  /\ posts (snd (crypto_pay_webhook_handler L cfg net raw hdr)) = [].
Proof.
  intros Hp Hc Hw.
  assert (Hx : extract_chat_id L (custom_payload (payload w))
               = (Return None, [Log ERROR ChatIdParseFailed])).
  { rewrite Hc, extract_chat_id_eq.
    assert (Ht : truthy (Some (p ++ marker ++ ws)) = true)
      by (destruct p; reflexivity).
    rewrite Ht. cbn [the]. rewrite contains_app_mid.
    rewrite split_marker_last.
    - unfold int. rewrite to_ascii_below by (now apply blank_below).
      unfold int_of_ascii. now rewrite (skip_space_all ws Hw).
    - apply last_occurrence_without_u.
      eapply Forall_impl; [|apply (blank_small ws Hw)].
      cbv beta. intros c Hc'. lia. }
  split; [exact Hx|].
  destruct (parse_webhook_decodes L raw w Hp) as [[text Hd] Hp'].
  rewrite handler_eq, Hd, Hp'. cbv zeta. rewrite Hx. cbn [not_chat_id].
  split; reflexivity.
Qed.

Lemma marker_without_id_is_not_found_witness :
  fst (parse_webhook strict_libs body_no_id)
  = Return (webhook_with (u "paid") (Some (u "order 9;" ++ marker ++ [32%N])))
  /\ blank [32%N]
  /\ respond (fst (crypto_pay_webhook_handler strict_libs (config no_env) net_ok
                     body_no_id None))
     = JSONResponse 200 soft_error.
Proof.
  assert (Hp : fst (parse_webhook strict_libs body_no_id)
               = Return (webhook_with (u "paid")
                           (Some (u "order 9;" ++ marker ++ [32%N]))))
    by (vm_compute; reflexivity).
  assert (Hb : blank [32%N]) by (repeat constructor).
  split; [exact Hp|]. split; [exact Hb|].
  exact (proj1 (proj2 (marker_without_id_is_not_found strict_libs
                         (config no_env) net_ok body_no_id None _
                         (u "order 9;") [32%N] Hp eq_refl Hb))).
Defined.

End Coverage.
